(** * RBI circular checker: a shallow embedding of [App.py]

    The development follows the order of the source file: the Python
    string primitives the program relies on, the parsed page (the
    BeautifulSoup tree), the index parser, URL validation, the artifact
    resolver, the fetcher, the file-name derivation, the state store and
    finally [main].

    Conventions.
    - A Python [str] is a [string]; its characters are read as the code
      points U+0000..U+00FF, so the character tables below ([isspace],
      [lower], the regular-expression class [\w]) are the Unicode tables
      restricted to that range.
    - Everything outside the interpreter (the browser, HTTP, the clock,
      Google's services, the PDF libraries) is a field of [World]; a
      function that performs effects returns its result together with
      the list of [event]s it caused, in order.
    - A logging call is recorded with its level and the text of its
      format string; the interpolated values are not rendered. *)

From Stdlib Require Import String Ascii List Bool Arith Lia ZArith.
From Stdlib Require Import Strings.Byte Permutation.
Import ListNotations.
Open Scope list_scope.
Open Scope string_scope.

Set Implicit Arguments.

(* ================================================================== *)
(** * Python string primitives *)

Module PyStr.

Definition code (c : ascii) : nat := nat_of_ascii c.

Definition between (lo hi n : nat) : bool := Nat.leb lo n && Nat.leb n hi.

(** [str.isspace] on one character. *)
Definition is_space (c : ascii) : bool :=
  let n := code c in
  between 9 13 n || between 28 32 n || (Nat.eqb n 133) || (Nat.eqb n 160).

(** [str.lower] on one character. *)
Definition lower_char (c : ascii) : ascii :=
  let n := code c in
  if between 65 90 n || (between 192 222 n && negb (Nat.eqb n 215))
  then ascii_of_nat (n + 32) else c.

Fixpoint lower (s : string) : string :=
  match s with
  | EmptyString => EmptyString
  | String c s' => String (lower_char c) (lower s')
  end.

(** Truth value of a string: only the empty string is false. *)
Definition truthy (s : string) : bool :=
  match s with EmptyString => false | String _ _ => true end.

Definition truthy_opt (o : option string) : bool :=
  match o with Some s => truthy s | None => false end.

Fixpoint lstrip (s : string) : string :=
  match s with
  | EmptyString => EmptyString
  | String c s' => if is_space c then lstrip s' else s
  end.

Fixpoint rstrip (s : string) : string :=
  match s with
  | EmptyString => EmptyString
  | String c s' =>
      match rstrip s' with
      | EmptyString => if is_space c then EmptyString else String c EmptyString
      | r => String c r
      end
  end.

(** [s.strip()] *)
Definition strip (s : string) : string := rstrip (lstrip s).

(** [sub in s] *)
Fixpoint contains (sub s : string) : bool :=
  prefix sub s ||
  match s with
  | EmptyString => false
  | String _ s' => contains sub s'
  end.

(** [s.endswith(suf)] *)
Fixpoint endswith (suf s : string) : bool :=
  (s =? suf) ||
  match s with
  | EmptyString => false
  | String _ s' => endswith suf s'
  end.

(** [s.startswith(p)] *)
Definition startswith (p s : string) : bool := prefix p s.

(** [s.split(sep)] for a non-empty separator: the pieces between the
    successive, non-overlapping occurrences of [sep], left to right.
    [skip] counts the characters of a matched separator still to be
    passed over and [cur] is the piece being read. *)
Fixpoint split_go (sep : string) (skip : nat) (cur s : string) : list string :=
  match s with
  | EmptyString => [cur]
  | String c s' =>
      match skip with
      | S k => split_go sep k cur s'
      | O =>
          if prefix sep s
          then cur :: split_go sep (String.length sep - 1) EmptyString s'
          else split_go sep 0 (cur ++ String c EmptyString) s'
      end
  end.

Definition split (sep s : string) : list string := split_go sep 0 EmptyString s.

(** [s.rsplit(sep, 1)[0]]: everything before the last occurrence of
    [sep], or all of [s] when [sep] does not occur. *)
Fixpoint before_last (sep s : string) : option string :=
  match s with
  | EmptyString => if prefix sep s then Some EmptyString else None
  | String c s' =>
      match before_last sep s' with
      | Some r => Some (String c r)
      | None => if prefix sep s then Some EmptyString else None
      end
  end.

Definition rsplit1_head (sep s : string) : string :=
  match before_last sep s with Some r => r | None => s end.

(** The class [\w] of [re] on a [str] pattern: [isalnum] or ['_']. *)
Definition is_word (c : ascii) : bool :=
  let n := code c in
  between 48 57 n || between 65 90 n || (Nat.eqb n 95) || between 97 122 n
  || (Nat.eqb n 170) || (Nat.eqb n 178) || (Nat.eqb n 179) || (Nat.eqb n 181) || (Nat.eqb n 185)
  || (Nat.eqb n 186) || between 188 190 n || between 192 214 n
  || between 216 246 n || between 248 255 n.

(** The set [[A-Za-z0-9_.-]]. *)
Definition is_ascii_safe (c : ascii) : bool :=
  let n := code c in
  between 48 57 n || between 65 90 n || between 97 122 n
  || (Nat.eqb n 95) || (Nat.eqb n 46) || (Nat.eqb n 45).

(** The characters of the class [[\w\-_.]]. *)
Definition in_kept_class (c : ascii) : bool :=
  let n := code c in
  is_word c || (Nat.eqb n 45) || (Nat.eqb n 95) || (Nat.eqb n 46).

Definition is_ascii (c : ascii) : bool := Nat.ltb (code c) 128.

(** One character of [re.sub(r'[^\w\-_.]', '_', s)]. *)
Definition sub_unsafe_char (c : ascii) : ascii :=
  if in_kept_class c then c else "_"%char.

(** [re.sub(r'[^\w\-_.]', '_', s)] *)
Fixpoint sub_unsafe (s : string) : string :=
  match s with
  | EmptyString => EmptyString
  | String c s' => String (sub_unsafe_char c) (sub_unsafe s')
  end.

Fixpoint forallb_str (p : ascii -> bool) (s : string) : bool :=
  match s with
  | EmptyString => true
  | String c s' => p c && forallb_str p s'
  end.

Fixpoint existsb_str (p : ascii -> bool) (s : string) : bool :=
  match s with
  | EmptyString => false
  | String c s' => p c || existsb_str p s'
  end.

Fixpoint last_char (s : string) : option ascii :=
  match s with
  | EmptyString => None
  | String c s' =>
      match last_char s' with
      | Some d => Some d
      | None => Some c
      end
  end.

Definition first_char (s : string) : option ascii :=
  match s with EmptyString => None | String c _ => Some c end.

(** A string has no surrounding whitespace when it is empty or both
    its first and its last character are not whitespace. *)
Definition starts_clean (s : string) : bool :=
  match first_char s with Some c => negb (is_space c) | None => true end.

Definition ends_clean (s : string) : bool :=
  match last_char s with Some c => negb (is_space c) | None => true end.

Definition no_surrounding_space (s : string) : bool :=
  starts_clean s && ends_clean s.

Definition CR : ascii := ascii_of_nat 13.
Definition LF : ascii := ascii_of_nat 10.

Definition has_cr (s : string) : bool := existsb_str (Ascii.eqb CR) s.

(** [os.path.join(a, b)] on POSIX. *)
Definition path_join (a b : string) : string :=
  if startswith "/" b then b
  else if negb (truthy a) || endswith "/" a then a ++ b
  else a ++ "/" ++ b.

End PyStr.

Import PyStr.

(* ================================================================== *)
(** * The parsed page

    What [BeautifulSoup(markup, 'html.parser')] builds: elements with a
    lower-case name, their attributes and children; text; and the
    strings that [get_text] leaves out (comments and the like). *)

Unset Elimination Schemes.
Inductive node : Type :=
| Elem (name : string) (attrs : list (string * string)) (children : list node)
| Text (s : string)
| Comment (s : string).
Set Elimination Schemes.

(** Induction on a page: a property of an element may use it on the
    children. *)
Section NodeInduction.

Variable P : node -> Prop.
Hypothesis P_elem : forall nm attrs cs, Forall P cs -> P (Elem nm attrs cs).
Hypothesis P_text : forall s, P (Text s).
Hypothesis P_comment : forall s, P (Comment s).

Fixpoint node_ind (n : node) : P n :=
  match n with
  | Elem nm attrs cs =>
      @P_elem nm attrs cs
        ((fix all (l : list node) : Forall P l :=
            match l with
            | [] => Forall_nil P
            | c :: rest => Forall_cons c (node_ind c) (all rest)
            end) cs)
  | Text s => P_text s
  | Comment s => P_comment s
  end.

End NodeInduction.

Module Dom.

(** [tag.get(key)] *)
Fixpoint lookup (key : string) (attrs : list (string * string)) : option string :=
  match attrs with
  | [] => None
  | (k, v) :: rest => if (k =? key) then Some v else lookup key rest
  end.

Definition get (key : string) (n : node) : option string :=
  match n with
  | Elem _ attrs _ => lookup key attrs
  | _ => None
  end.

Definition children_of (n : node) : list node :=
  match n with
  | Elem _ _ cs => cs
  | _ => []
  end.

(** The descendants of a node in document order. *)
Fixpoint descendants (n : node) : list node :=
  match n with
  | Elem _ _ cs => flat_map (fun c => c :: descendants c) cs
  | _ => []
  end.

Definition has_name (names : list string) (n : node) : bool :=
  match n with
  | Elem nm _ _ => existsb (String.eqb nm) names
  | _ => false
  end.

(** [tag.find_all(names)]: recursive, the tag itself excluded. *)
Definition find_all (names : list string) (n : node) : list node :=
  filter (has_name names) (descendants n).

Definition has_attr (key : string) (n : node) : bool :=
  match get key n with Some _ => true | None => false end.

(** [tag.find_all('a', href=True)] *)
Definition find_all_a_href (n : node) : list node :=
  filter (has_attr "href") (find_all ["a"] n).

(** [tag.find('a', href=True)] *)
Definition find_a_href (n : node) : option node := hd_error (find_all_a_href n).

Definition text_of (n : node) : list string :=
  match n with Text s => [s] | _ => [] end.

(** The strings below a tag, in document order. *)
Definition strings (n : node) : list string := flat_map text_of (descendants n).

(** [tag.get_text(strip=True)]: every string stripped, the empty ones
    dropped, the rest concatenated. *)
Definition get_text_strip (n : node) : string :=
  String.concat "" (filter truthy (map strip (strings n))).

End Dom.

(* ================================================================== *)
(** * Index parser *)

(** The dictionary built for one table row; [url] is the key that
    [get_latest_circular_info] adds afterwards. *)
Record circular : Type := mkCircular {
  link : node;
  href : string;
  circular_number : string;
  date : string;
  department : string;
  subject : string;
  url : option string
}.

Definition DETAIL_PATTERN : string := "BS_CircularIndexDisplay.aspx?Id=".

Definition cell_text (cells : list node) (i : nat) : string :=
  match nth_error cells i with
  | Some c => Dom.get_text_strip c
  | None => ""
  end.

(** The body of the inner loop of [parse_circulars_table]: the entries
    one row appends to [circulars]. *)
Definition parse_row (row : node) : list circular :=
  let cells := Dom.find_all ["td"; "th"] row in
  if Nat.leb 4 (List.length cells) then
    match cells with
    | first_cell :: _ =>
        match Dom.find_a_href first_cell with
        | Some a =>
            match Dom.get "href" a with
            | Some h =>
                if contains DETAIL_PATTERN h then
                  [ {| link := a;
                       href := h;
                       circular_number := Dom.get_text_strip a;
                       date := cell_text cells 1;
                       department := cell_text cells 2;
                       subject := cell_text cells 3;
                       url := None |} ]
                else []
            | None => []
            end
        | None => []
        end
    | [] => []
    end
  else [].

Definition parse_circulars_table (soup : node) : list circular :=
  flat_map (fun table => flat_map parse_row (Dom.find_all ["tr"] table))
           (Dom.find_all ["table"] soup).

(** ** The rows of a page, read independently of the parser

    A row of the page is a [tr] element that lies inside a [table] of
    the page; [table_rows] lists each of them once, in document order.
    [rows_under in_table n] lists the rows below [n], where [in_table]
    says whether [n] itself lies inside a table. *)
Fixpoint rows_under (in_table : bool) (n : node) : list node :=
  match n with
  | Elem nm _ cs =>
      let inside := in_table || Dom.has_name ["table"] n in
      flat_map (fun c =>
                  (if inside && Dom.has_name ["tr"] c then [c] else [])
                  ++ rows_under inside c)%list
               cs
  | _ => []
  end.

Definition table_rows (soup : node) : list node :=
  flat_map (rows_under false) (Dom.children_of soup).

(** The structural prerequisites of a row: at least 4 cells, and the
    first link of the first cell carries the detail-page pattern. *)
Definition well_formed_row (row : node) : bool :=
  let cells := Dom.find_all ["td"; "th"] row in
  Nat.leb 4 (List.length cells) &&
  match hd_error cells with
  | Some first_cell =>
      match Dom.find_a_href first_cell with
      | Some a =>
          match Dom.get "href" a with
          | Some h => contains DETAIL_PATTERN h
          | None => false
          end
      | None => false
      end
  | None => false
  end.

(** The summary read off a row: link text, then cells 1 to 3. *)
Definition summary_of_row (row : node) : circular :=
  let cells := Dom.find_all ["td"; "th"] row in
  let a := match hd_error cells with
           | Some first_cell =>
               match Dom.find_a_href first_cell with
               | Some a => a
               | None => Text ""
               end
           | None => Text ""
           end in
  {| link := a;
     href := match Dom.get "href" a with Some h => h | None => "" end;
     circular_number := Dom.get_text_strip a;
     date := cell_text cells 1;
     department := cell_text cells 2;
     subject := cell_text cells 3;
     url := None |}.

(** No [table] element of the page lies inside another one. *)
Definition tables_flat (soup : node) : Prop :=
  forall t, In t (Dom.find_all ["table"] soup) -> Dom.find_all ["table"] t = [].

(** The rows that the parser visits: those of every table, table by
    table. *)
Definition visited_rows (n : node) : list node :=
  flat_map (Dom.find_all ["tr"]) (Dom.find_all ["table"] n).

(** No table at or below [n] contains another table. *)
Definition flat_below (n : node) : Prop :=
  forall t, In t (n :: Dom.descendants n) ->
            Dom.has_name ["table"] t = true -> Dom.find_all ["table"] t = [].

(* ================================================================== *)
(** * The outside world *)

Inductive outcome (A : Type) : Type :=
| Ok (a : A)
| Raise.
Arguments Raise {A}.

Inductive level : Type := INFO | WARNING | ERROR | CRITICAL.

Inductive event : Type :=
| Log (lvl : level) (msg : string)
| PageLoad (page_url : string)
| HeadRequest (target : string)
| GetRequest (target : string)
| FileWrite (path : string)
| Authenticate
| DriveUpload (path : string)
| GeminiRequest
| MailSend (delivered : bool)
| StateWrite (id : string).

(** What the browser holds once a page is loaded: the markup that
    [driver.page_source] returns, and what
    [driver.find_element(By.TAG_NAME, 'body').get_attribute('innerHTML')]
    gives, which raises when the element cannot be had. *)
Record page : Type := mkPage {
  page_source : node;
  body_inner_html : outcome string
}.

(** A [requests] response; for a streamed GET, [chunks] is what
    [iter_content] yields and [stream_breaks] says that the transfer
    fails after the last of them. *)
Record response : Type := mkResponse {
  status_code : Z;
  headers : list (string * string);
  chunks : list (list byte);
  stream_breaks : bool
}.

(** How [weasyprint] serves [create_pdf_from_html_content]: the PDF is
    written, the import fails, or anything else in the [try] block
    raises. *)
Inductive weasyprint_outcome : Type :=
| WeasyWritten
| WeasyImportError
| WeasyError.

(** How the writing of a local file ends: [os.makedirs] or [open]
    raises and nothing is created; [open] creates the file, or empties
    the one that is there, and a write raises; or the file is
    written. *)
Inductive file_outcome : Type :=
| FileWritten
| CannotCreate
| WriteFails.

(** The fields of the interpreter and the operating system:
    - [urljoin base reference] raises [ValueError] on an address it
      cannot parse, such as one with an unclosed bracket in the host;
    - [urlparse_path] is [urlparse(u).path]; [download_pdf] calls it
      after [requests.get] has accepted the same address, which rules
      out the addresses on which it raises;
    - [set_order] is the order in which [list(set(l))] enumerates;
    - [now] is the timestamp [%Y%m%d_%H%M%S] of the run, [script_dir]
      the directory of the script;
    - [local_file path] tells how the writing of that file ends, and
      [read_back path] whether the written file can be opened and read;
    - [state_write] tells how the writing of the state file ends. *)
Record World : Type := mkWorld {
  (* interpreter and operating system *)
  urljoin : string -> string -> outcome string;
  urlparse_path : string -> string;
  set_order : list string -> list string;
  set_order_perm : forall l, Permutation (set_order l) (nodup string_dec l);
  now : string;
  script_dir : string;
  local_file : string -> file_outcome;
  read_back : string -> bool;
  state_write : file_outcome;
  credentials_present : bool;
  (* browser *)
  driver_available : bool;
  render : string -> outcome page;
  (* network *)
  http_head : string -> outcome response;
  http_get : string -> outcome response;
  (* document libraries *)
  weasyprint : weasyprint_outcome;
  pdf_pages : string -> outcome (list (option string));
  (* Google services *)
  authenticate_google_apis : outcome bool;
  build_services : outcome unit;
  upload_drive : string -> option string;
  gemini : string -> outcome (option string);
  gmail_send : bool
}.

(** The state file can be written. *)
Definition state_writable (w : World) : bool :=
  match state_write w with
  | FileWritten => true
  | _ => false
  end.

Definition BASE_PAGE : string := "https://rbi.org.in/Scripts/BS_CircularIndexDisplay.aspx".
Definition RBI_BASE : string := "https://rbi.org.in/Scripts/".
Definition HTML_ONLY : string := "HTML_ONLY".

(** [response.headers.get(name, default)]: the names of [requests]
    headers compare without regard to case. *)
Fixpoint header_get (name : string) (hs : list (string * string)) (default : string) : string :=
  match hs with
  | [] => default
  | (k, v) :: rest => if (lower k =? lower name) then v else header_get name rest default
  end.

Definition has_header (name : string) (hs : list (string * string)) : bool :=
  existsb (fun kv => lower (fst kv) =? lower name) hs.

(* ================================================================== *)
(** * URL validation *)

Definition is_valid_pdf_response (r : response) : bool :=
  let content_type := lower (header_get "content-type" (headers r) "") in
  (status_code r =? 200)%Z && contains "pdf" content_type.

Definition check_pdf_url_exists (w : World) (u : string) : bool * list event :=
  match http_head w u with
  | Ok r =>
      if is_valid_pdf_response r
      then (true, [HeadRequest u; Log INFO "Valid PDF found: {url}"])
      else (false, [HeadRequest u;
                    Log WARNING "Not a valid PDF: {url} (Status: {response.status_code}, Type: {content_type})"])
  | Raise => (false, [HeadRequest u; Log ERROR "Error checking URL {url}: {e}"])
  end.

(* ================================================================== *)
(** * Artifact resolver *)

Definition generate_pdf_from_circular_id (circular_id : string) : list string :=
  [ "https://rbidocs.rbi.org.in/rdocs/content/pdfs/" ++ circular_id ++ ".pdf";
    "https://www.rbi.org.in/Scripts/BS_PressReleaseDisplay.aspx?prid=" ++ circular_id;
    "https://rbidocs.rbi.org.in/rdocs/circulars/" ++ circular_id ++ ".pdf" ].

Definition MARKER : string := "utkarsh".

(** [circular_url.split('?Id=')[1].split('&')[0]] when ['?Id='] occurs. *)
Definition parse_circular_id (circular_url : string) : option string :=
  if contains "?Id=" circular_url
  then Some (nth 0 (split "&" (nth 1 (split "?Id=" circular_url) "")) "")
  else None.

(** The hyperlink scan keeps the [href]s that end in [.pdf] and do not
    carry the marker. *)
Definition anchor_passes (h : string) : bool :=
  endswith ".pdf" (lower h) && negb (contains MARKER (lower h)).

(** The references that the hyperlink scan hands to [urljoin], in
    document order. *)
Definition anchor_kept (soup : node) : list string :=
  flat_map (fun a =>
              match Dom.get "href" a with
              | Some h => if anchor_passes h then [h] else []
              | None => []
              end)
           (Dom.find_all_a_href soup).

(** [tag.get('src') or tag.get('data')] *)
Definition embed_reference (tag : node) : option string :=
  match Dom.get "src" tag with
  | Some s => if truthy s then Some s else Dom.get "data" tag
  | None => Dom.get "data" tag
  end.

Definition embed_passes (s : string) : bool :=
  truthy s && contains ".pdf" (lower s) && negb (contains MARKER (lower s)).

(** The references that the scan of the embedded documents hands to
    [urljoin], in document order. *)
Definition embed_kept (soup : node) : list string :=
  flat_map (fun tag =>
              match embed_reference tag with
              | Some s => if embed_passes s then [s] else []
              | None => []
              end)
           (Dom.find_all ["object"; "iframe"; "embed"] soup).

(** One scanning loop: each kept reference is joined to the address of
    the page and the result is validated; the valid ones are appended.
    [urljoin] raises on a reference it cannot parse, which leaves the
    loop with the requests made so far. *)
Fixpoint scan (w : World) (circular_url : string) (refs : list string)
  : outcome (list string) * list event :=
  match refs with
  | [] => (Ok [], [])
  | r :: rest =>
      match urljoin w circular_url r with
      | Raise => (Raise, [])
      | Ok full_url =>
          let '(ok, e1) := check_pdf_url_exists w full_url in
          let '(found, e2) := scan w circular_url rest in
          (match found with
           | Ok links => Ok (if ok then full_url :: links else links)
           | Raise => Raise
           end,
           (e1 ++ e2)%list)
      end
  end.

(** The addresses that a scan makes of its references before
    [urljoin] raises, if it does. *)
Fixpoint joined (w : World) (circular_url : string) (refs : list string) : list string :=
  match refs with
  | [] => []
  | r :: rest =>
      match urljoin w circular_url r with
      | Ok full_url => full_url :: joined w circular_url rest
      | Raise => []
      end
  end.

Fixpoint join_raises (w : World) (circular_url : string) (refs : list string) : bool :=
  match refs with
  | [] => false
  | r :: rest =>
      match urljoin w circular_url r with
      | Ok _ => join_raises w circular_url rest
      | Raise => true
      end
  end.

(** The candidates of the two scans: the addresses they validate. *)
Definition anchor_candidates (w : World) (circular_url : string) (soup : node) : list string :=
  joined w circular_url (anchor_kept soup).

Definition embed_candidates (w : World) (circular_url : string) (soup : node) : list string :=
  joined w circular_url (embed_kept soup).

(** Whether [urljoin] raises in a scan. *)
Definition anchor_scan_raises (w : World) (circular_url : string) (soup : node) : bool :=
  join_raises w circular_url (anchor_kept soup).

Definition embed_scan_raises (w : World) (circular_url : string) (soup : node) : bool :=
  join_raises w circular_url (embed_kept soup).

(** The validation of a list of addresses in turn: the valid ones are
    kept. *)
Fixpoint collect_valid (w : World) (cands : list string) : list string * list event :=
  match cands with
  | [] => ([], [])
  | u :: rest =>
      let '(ok, e1) := check_pdf_url_exists w u in
      let '(found, e2) := collect_valid w rest in
      ((if ok then u :: found else found), (e1 ++ e2)%list)
  end.

(** The fallback loop: validation stops at the first valid URL. *)
Fixpoint first_valid (w : World) (cands : list string) : list string * list event :=
  match cands with
  | [] => ([], [])
  | u :: rest =>
      let '(ok, e1) := check_pdf_url_exists w u in
      if ok then ([u], e1)
      else let '(found, e2) := first_valid w rest in (found, (e1 ++ e2)%list)
  end.

Definition is_nil {A : Type} (l : list A) : bool :=
  match l with [] => true | _ => false end.

Definition get_pdf_from_circular_page (w : World) (circular_url : string)
  : (option string * option string) * list event :=
  if negb (driver_available w) then ((None, None), [])
  else
    let e0 := [Log INFO "Loading circular page: {circular_url}"; PageLoad circular_url] in
    let error := Log ERROR "Error loading circular page: {e}" in
    match render w circular_url with
    | Raise => ((None, None), (e0 ++ [error])%list)
    | Ok pg =>
        let soup := page_source pg in
        let circular_id := parse_circular_id circular_url in
        let e_id := match circular_id with
                    | Some _ => [Log INFO "Circular ID: {circular_id}"]
                    | None => []
                    end in
        let '(hyperlinks, e1) := scan w circular_url (anchor_kept soup) in
        match hyperlinks with
        | Raise => ((None, None), (e0 ++ e_id ++ e1 ++ [error])%list)
        | Ok links1 =>
            let '(embedded, e2) := scan w circular_url (embed_kept soup) in
            match embedded with
            | Raise => ((None, None), (e0 ++ e_id ++ e1 ++ e2 ++ [error])%list)
            | Ok links2 =>
                let scanned := (links1 ++ links2)%list in
                let '(pdf_links, e3) :=
                  match circular_id with
                  | Some cid =>
                      if truthy cid && is_nil scanned then
                        let '(found, e) := first_valid w (generate_pdf_from_circular_id cid) in
                        ((scanned ++ found)%list,
                         (Log INFO "Trying to generate PDF URLs from circular ID..." :: e))
                      else (scanned, [])
                  | None => (scanned, [])
                  end in
                let ev := (e0 ++ e_id ++ e1 ++ e2 ++ e3)%list in
                if is_nil pdf_links then
                  let ev' := (ev ++ [Log INFO "This appears to be an HTML-only circular"])%list in
                  match body_inner_html pg with
                  | Ok page_content => ((Some HTML_ONLY, Some page_content), ev')
                  | Raise => ((None, None), (ev' ++ [error])%list)
                  end
                else
                  match set_order w pdf_links with
                  | first :: _ =>
                      ((Some first, None),
                       (ev ++ [Log INFO "Found valid PDF link: {pdf_links[0]}"])%list)
                  | [] =>
                      ((None, None),
                       (ev ++ [Log WARNING "No valid PDF found for this circular"])%list)
                  end
            end
        end
    end.

(* ================================================================== *)
(** * Latest circular *)

Definition get_latest_circular_info (w : World) : option circular * list event :=
  if negb (driver_available w) then (None, [])
  else
    let e0 := [Log INFO "Loading RBI circulars page..."; PageLoad BASE_PAGE] in
    match render w BASE_PAGE with
    | Raise => (None, (e0 ++ [Log ERROR "Error fetching latest circular: {e}"])%list)
    | Ok pg =>
        match parse_circulars_table (page_source pg) with
        | [] => (None, (e0 ++ [Log ERROR "No circulars found in table format"])%list)
        | latest :: _ =>
            match urljoin w RBI_BASE (href latest) with
            | Ok circular_url =>
                (Some {| link := link latest;
                         href := href latest;
                         circular_number := circular_number latest;
                         date := date latest;
                         department := department latest;
                         subject := subject latest;
                         url := Some circular_url |},
                 e0)
            | Raise => (None, (e0 ++ [Log ERROR "Error fetching latest circular: {e}"])%list)
            end
        end
    end.

(* ================================================================== *)
(** * Local artifact names *)

(** [re.sub(r'[^\w\-_.]', '_', circular_data['circular_number'])] *)
Definition safe_name (c : circular) : string := sub_unsafe (circular_number c).

(** [f"{prefix}_{safe_name}_{timestamp}{ext}"] *)
Definition artifact_filename (prefix safe timestamp ext : string) : string :=
  prefix ++ "_" ++ safe ++ "_" ++ timestamp ++ ext.

Definition synthesized_pdf_path (w : World) (c : circular) : string :=
  path_join "downloads" (artifact_filename "RBI_Circular" (safe_name c) (now w) ".pdf").

Definition synthesized_html_path (w : World) (c : circular) : string :=
  path_join "downloads" (artifact_filename "RBI_Circular" (safe_name c) (now w) ".html").

Definition checklist_path (w : World) (c : circular) : string :=
  path_join (path_join (script_dir w) "downloads")
            (artifact_filename "RBI_Checklist" (safe_name c) (now w) ".txt").

(** What is caught inside the function comes back as [None]; what
    raises inside the handler of [ImportError] (the directory or the
    file cannot be created, a write fails, the markup to write is
    [None]) leaves the function as an exception. *)
Definition create_pdf_from_html_content (w : World) (c : circular) (html_content : option string)
  : outcome (option string) * list event :=
  match weasyprint w with
  | WeasyWritten =>
      let filepath := synthesized_pdf_path w c in
      (Ok (Some filepath),
       [FileWrite filepath; Log INFO "PDF created from HTML content: {filepath}"])
  | WeasyImportError =>
      let filepath := synthesized_html_path w c in
      let e0 := [Log WARNING "weasyprint not installed. Install it with: pip install weasyprint";
                 Log INFO "Saving HTML content instead..."] in
      match local_file w filepath, html_content with
      | CannotCreate, _ => (Raise, e0)
      | FileWritten, Some _ =>
          (Ok (Some filepath),
           (e0 ++ [FileWrite filepath; Log INFO "HTML content saved: {filepath}"])%list)
      | _, _ => (Raise, (e0 ++ [FileWrite filepath])%list)
      end
  | WeasyError => (Ok None, [Log ERROR "Error creating PDF from HTML: {e}"])
  end.

Definition create_checklist_file (w : World) (checklist_text : string) (c : circular)
  : option string * list event :=
  let filepath := checklist_path w c in
  let error := Log ERROR "Error saving checklist file: {e}" in
  match local_file w filepath with
  | FileWritten => (Some filepath, [FileWrite filepath; Log INFO "Checklist saved to: {filepath}"])
  | CannotCreate => (None, [error])
  | WriteFails => (None, [FileWrite filepath; error])
  end.

(* ================================================================== *)
(** * Fetcher *)

Definition PDF_MAGIC : list byte := [x25; x50; x44; x46].

Definition is_digit (c : ascii) : bool := between 48 57 (code c).

(** Digits with single underscores between them. *)
Fixpoint digits_ok (after_digit : bool) (s : string) : bool :=
  match s with
  | EmptyString => after_digit
  | String c s' =>
      if is_digit c then digits_ok true s'
      else if Nat.eqb (code c) 95 then after_digit && digits_ok false s'
      else false
  end.

(** The whitespace that [int] skips around a number: the ASCII
    whitespace and, outside ASCII, U+0085 and U+00A0; the separators
    U+001C to U+001F, which [str.strip] removes, are not skipped. *)
Definition is_int_space (c : ascii) : bool :=
  let n := code c in
  between 9 13 n || Nat.eqb n 32 || Nat.eqb n 133 || Nat.eqb n 160.

Fixpoint int_lstrip (s : string) : string :=
  match s with
  | EmptyString => EmptyString
  | String c s' => if is_int_space c then int_lstrip s' else s
  end.

Fixpoint int_rstrip (s : string) : string :=
  match s with
  | EmptyString => EmptyString
  | String c s' =>
      match int_rstrip s' with
      | EmptyString => if is_int_space c then EmptyString else String c EmptyString
      | r => String c r
      end
  end.

Fixpoint count_digits (s : string) : nat :=
  match s with
  | EmptyString => 0
  | String c s' => if is_digit c then S (count_digits s') else count_digits s'
  end.

(** [sys.get_int_max_str_digits()] as the interpreter sets it. *)
Definition INT_MAX_STR_DIGITS : nat := 4300.

(** Whether [int(s)] accepts the text [s]: whitespace, an optional
    sign, digits with single underscores between them, whitespace; and
    no more digits than the interpreter converts. *)
Definition int_accepts (s : string) : bool :=
  match int_rstrip (int_lstrip s) with
  | String c rest =>
      let number := if Nat.eqb (code c) 43 || Nat.eqb (code c) 45
                    then rest else String c rest in
      digits_ok false number && Nat.leb (count_digits number) INT_MAX_STR_DIGITS
  | EmptyString => false
  end.

(** A character that [int] takes for part of a number: a digit, an
    underscore, a sign or the whitespace it skips. *)
Definition int_char (c : ascii) : bool :=
  is_digit c || Nat.eqb (code c) 95 || Nat.eqb (code c) 43 || Nat.eqb (code c) 45
  || is_int_space c.

(** [int(response.headers.get('content-length', 0))] does not raise. *)
Definition content_length_ok (r : response) : bool :=
  if has_header "content-length" (headers r)
  then int_accepts (header_get "content-length" (headers r) "")
  else true.

(** [raise_for_status] raises for the codes 400 to 599. *)
Definition raises_for_status (r : response) : bool :=
  (400 <=? status_code r)%Z && (status_code r <? 600)%Z.

(** The local name derived from the URL, with the timestamp inserted
    before a forced [.pdf] extension. *)
Definition download_filename (w : World) (pdf_url : string) : string :=
  let url_path := urlparse_path w pdf_url in
  let last_segment := nth 0 (split "?" (List.last (split "/" url_path) "")) "" in
  let fname := if truthy last_segment then last_segment
               else "rbi_circular_" ++ now w ++ ".pdf" in
  let fname := if endswith ".pdf" (lower fname) then fname else fname ++ ".pdf" in
  rsplit1_head ".pdf" fname ++ "_" ++ now w ++ ".pdf".

Definition download_path (w : World) (pdf_url : string) : string :=
  path_join (path_join (script_dir w) "downloads") (download_filename w pdf_url).

(** The bytes in the file once every chunk has been written. *)
Definition file_bytes (r : response) : list byte := List.concat (chunks r).

(** [f.read(4)] *)
Definition read_header (content : list byte) : list byte := firstn 4 content.

Definition bytes_eqb (a b : list byte) : bool :=
  if list_eq_dec Byte.byte_eq_dec a b then true else false.

Definition SIGNATURE_WARNING : event :=
  Log WARNING "Downloaded file doesn't appear to be a valid PDF".

(** [f.write] is called for the chunks that are not empty. *)
Definition writes_a_chunk (r : response) : bool :=
  existsb (fun chunk => negb (is_nil chunk)) (chunks r).

Definition cannot_create (o : file_outcome) : bool :=
  match o with CannotCreate => true | _ => false end.

Definition write_fails (o : file_outcome) : bool :=
  match o with WriteFails => true | _ => false end.

(** The steps inside the [try], in the order of the source: the
    request, the status, the directory, the announced length, the file
    and its chunks, the file read again.  An exception of [requests] is
    logged as a failed download, any other as an unexpected error; both
    return [None].  The directory and the file that cannot be created
    are one case here, since they end the call in the same way. *)
Definition download_pdf (w : World) (pdf_url : string) : option string * list event :=
  let e0 := [Log INFO "Downloading PDF from: {pdf_url}"; GetRequest pdf_url] in
  let failed := Log ERROR "Failed downloading PDF: {e}" in
  let unexpected := Log ERROR "Unexpected error downloading PDF: {e}" in
  match http_get w pdf_url with
  | Raise => (None, (e0 ++ [failed])%list)
  | Ok r =>
      if raises_for_status r then (None, (e0 ++ [failed])%list)
      else
        let e1 := (e0 ++ [Log INFO "Content-Type: {content_type}"])%list in
        let path := download_path w pdf_url in
        if cannot_create (local_file w path) || negb (content_length_ok r)
        then (None, (e1 ++ [unexpected])%list)
        else if write_fails (local_file w path) && writes_a_chunk r
        then (None, (e1 ++ [FileWrite path; unexpected])%list)
        else if stream_breaks r
        then (None, (e1 ++ [FileWrite path; failed])%list)
        else
          let e2 := (e1 ++ [FileWrite path;
                            Log INFO "PDF saved to: {path} ({downloaded} bytes)"])%list in
          if negb (read_back w path)
          then (None, (e2 ++ [unexpected])%list)
          else
            let header := read_header (file_bytes r) in
            if bytes_eqb header PDF_MAGIC
            then (Some path, e2)
            else (Some path, (e2 ++ [SIGNATURE_WARNING])%list)
  end.

(* ================================================================== *)
(** * State store

    The state file is either absent or holds a text.  It is opened in
    text mode: what is written is stored as it is (POSIX line ends), and
    on reading every carriage return, alone or followed by a line feed,
    comes back as one line feed. *)

Fixpoint universal_newlines (s : string) : string :=
  match s with
  | EmptyString => EmptyString
  | String c s' =>
      if Ascii.eqb c CR then
        match s' with
        | String c' _ => if Ascii.eqb c' LF then universal_newlines s'
                         else String LF (universal_newlines s')
        | EmptyString => String LF EmptyString
        end
      else String c (universal_newlines s')
  end.

Definition state_file : Type := option string.

Definition get_last_circular_id (fs : state_file) : option string :=
  match fs with
  | Some content => Some (strip (universal_newlines content))
  | None => None
  end.

(** The call returns or raises, and leaves the state file behind:
    with the new content; as it was, when it cannot be opened for
    writing; or empty, when the write raises after [open] has emptied
    it. *)
Definition set_last_circular_id (w : World) (circular_id : string) (fs : state_file)
  : (outcome unit * state_file) * list event :=
  match state_write w with
  | FileWritten =>
      ((Ok tt, Some circular_id),
       [StateWrite circular_id; Log INFO "Updated last circular ID to: {circular_id}"])
  | CannotCreate => ((Raise, fs), [])
  | WriteFails => ((Raise, Some ""), [])
  end.

(* ================================================================== *)
(** * Run orchestrator *)

Definition CRITICAL_LOG : event :=
  Log CRITICAL "An unhandled exception occurred in the main process: {e}".

(** ["\n".join([page.extract_text() for page in pdf.pages if page.extract_text()])] *)
Definition extract_pdf_text (w : World) (local_filepath : string) : option string * list event :=
  match pdf_pages w local_filepath with
  | Ok texts =>
      (Some (String.concat (String LF EmptyString)
                  (flat_map (fun t => match t with
                                      | Some s => if truthy s then [s] else []
                                      | None => []
                                      end) texts)),
       [])
  | Raise =>
      (None, [Log WARNING "Failed to extract text from PDF for checklist generation: {e}"])
  end.

(** Step 6 of [main]: the checklist link, or an exception leaving
    [generate_checklist_from_text]. *)
Definition checklist_step (w : World) (c : circular) (circular_content : option string)
  : outcome (option string) * list event :=
  match circular_content with
  | Some text =>
      if truthy text then
        let e0 := [GeminiRequest] in
        match gemini w text with
        | Raise => (Raise, e0)
        | Ok None => (Ok None, e0)
        | Ok (Some checklist_text) =>
            if truthy checklist_text then
              let '(checklist_filepath, e1) := create_checklist_file w checklist_text c in
              match checklist_filepath with
              | Some p =>
                  if truthy p
                  then (Ok (upload_drive w p), (e0 ++ e1 ++ [DriveUpload p])%list)
                  else (Ok None, (e0 ++ e1)%list)
              | None => (Ok None, (e0 ++ e1)%list)
              end
            else (Ok None, e0)
        end
      else (Ok None, [])
  | None => (Ok None, [])
  end.

(** Steps 4 to 8 of [main], entered with a local document in hand. *)
Definition publish (w : World) (fs : state_file) (c : circular)
           (local_filepath : string) (circular_content : option string)
  : state_file * list event :=
  let e4 := [Log INFO "Authenticating with Google APIs..."] in
  if negb (credentials_present w) then
    (fs, (e4 ++ [Log WARNING "credentials.json not found. Skipping Google Drive upload and email."])%list)
  else
    match authenticate_google_apis w with
    | Raise => (fs, (e4 ++ [Authenticate; CRITICAL_LOG])%list)
    | Ok false =>
        (fs, (e4 ++ [Authenticate; Log ERROR "Authentication with Google APIs failed. Exiting."])%list)
    | Ok true =>
        match build_services w with
        | Raise => (fs, (e4 ++ [Authenticate; CRITICAL_LOG])%list)
        | Ok _ =>
            let e5 := (e4 ++ [Authenticate; DriveUpload local_filepath])%list in
            if negb (truthy_opt (upload_drive w local_filepath)) then
              (fs, (e5 ++ [Log ERROR "Failed to upload circular to Google Drive. Exiting."])%list)
            else
              let '(checklist_drive_link, e6) := checklist_step w c circular_content in
              match checklist_drive_link with
              | Raise => (fs, (e5 ++ e6 ++ [CRITICAL_LOG])%list)
              | Ok _ =>
                  let e7 := (e5 ++ e6 ++ [MailSend (gmail_send w)])%list in
                  let '((written, fs'), e8) := set_last_circular_id w (circular_number c) fs in
                  match written with
                  | Ok _ =>
                      (fs', (e7 ++ e8 ++ [Log INFO "Process completed successfully!"])%list)
                  | Raise => (fs', (e7 ++ e8 ++ [CRITICAL_LOG])%list)
                  end
              end
        end
    end.

Definition same_id (current : string) (last : option string) : bool :=
  match last with
  | Some l => current =? l
  | None => false
  end.

Definition main (w : World) (fs : state_file) : state_file * list event :=
  let last_circular_id := get_last_circular_id fs in
  let e0 := [Log INFO "Starting RBI Circular Downloader...";
             Log INFO "Last processed circular ID: {last_circular_id}"] in
  let '(latest_circular, e1) := get_latest_circular_info w in
  match latest_circular with
  | None =>
      (fs, (e0 ++ e1 ++ [Log ERROR "Could not fetch the latest circular information. Exiting."])%list)
  | Some c =>
      let current_circular_id := circular_number c in
      if same_id current_circular_id last_circular_id then
        (fs, (e0 ++ e1 ++
              [Log INFO "No new circular found. The latest circular ({current_circular_id}) has already been processed."])%list)
      else
        let e1' := (e0 ++ e1 ++
                    [Log INFO "New circular detected: {current_circular_id} - {latest_circular['subject']}"])%list in
        let circular_url := match url c with Some u => u | None => "" end in
        let '((pdf_url, html_content), e2) := get_pdf_from_circular_page w circular_url in
        let e12 := (e1' ++ e2)%list in
        let no_document := Log ERROR "Failed to process the circular document. Exiting." in
        match pdf_url with
        | Some u =>
            if truthy u && negb (u =? HTML_ONLY) then
              let '(local_filepath, e3) := download_pdf w u in
              match local_filepath with
              | Some p =>
                  if truthy p then
                    let '(circular_content, e3') := extract_pdf_text w p in
                    let '(fs', e4) := publish w fs c p circular_content in
                    (fs', (e12 ++ e3 ++ e3' ++ e4)%list)
                  else (fs, (e12 ++ e3 ++ [no_document])%list)
              | None => (fs, (e12 ++ e3 ++ [no_document])%list)
              end
            else if u =? HTML_ONLY then
              let e3 := [Log INFO "This circular is HTML-only. Creating a PDF from the page content."] in
              let '(local_filepath, e3') := create_pdf_from_html_content w c html_content in
              match local_filepath with
              | Ok (Some p) =>
                  if truthy p then
                    let '(fs', e4) := publish w fs c p html_content in
                    (fs', (e12 ++ e3 ++ e3' ++ e4)%list)
                  else (fs, (e12 ++ e3 ++ e3' ++ [no_document])%list)
              | Ok None => (fs, (e12 ++ e3 ++ e3' ++ [no_document])%list)
              | Raise => (fs, (e12 ++ e3 ++ e3' ++ [CRITICAL_LOG])%list)
              end
            else
              (fs, (e12 ++ [Log ERROR "Failed to find or generate a circular document."])%list)
        | None =>
            (fs, (e12 ++ [Log ERROR "Failed to find or generate a circular document."])%list)
        end
  end.

(* ================================================================== *)
(** * Reading a trace *)

(** The addresses of the header-only requests of a trace, in order. *)
Definition head_targets (evs : list event) : list string :=
  flat_map (fun e => match e with HeadRequest u => [u] | _ => [] end) evs.

(** Whether the validation of [u] succeeds in [w]. *)
Definition validates (w : World) (u : string) : bool := fst (check_pdf_url_exists w u).

(** The candidates up to and including the first that satisfies [p]. *)
Fixpoint through_first {A : Type} (p : A -> bool) (l : list A) : list A :=
  match l with
  | [] => []
  | x :: rest => if p x then [x] else x :: through_first p rest
  end.

(** An event that reaches outside the process after the index page has
    been read: a second page load, a request, a file, a Google call or
    the state file. *)
Definition is_processing (e : event) : bool :=
  match e with
  | Log _ _ => false
  | PageLoad u => negb (u =? BASE_PAGE)
  | _ => true
  end.

Definition is_state_write (e : event) : bool :=
  match e with StateWrite _ => true | _ => false end.

(** A log record above the level [INFO]. *)
Definition is_alarm (e : event) : bool :=
  match e with
  | Log INFO _ => false
  | Log _ _ => true
  | _ => false
  end.

(** The addresses the resolver derives from the identifier of the
    detail address: none when there is no identifier or it is empty. *)
Definition fallback_candidates (circular_url : string) : list string :=
  match parse_circular_id circular_url with
  | Some cid => if truthy cid then generate_pdf_from_circular_id cid else []
  | None => []
  end.

(** The references that the two scans read off a page, kept or not. *)
Definition anchor_references (soup : node) : list string :=
  flat_map (fun a => match Dom.get "href" a with Some h => [h] | None => [] end)
           (Dom.find_all_a_href soup).

Definition embed_references (soup : node) : list string :=
  flat_map (fun tag => match embed_reference tag with Some s => [s] | None => [] end)
           (Dom.find_all ["object"; "iframe"; "embed"] soup).

(** A reference carries the marker, in whatever letter case. *)
Definition marked (reference : string) : bool := contains MARKER (lower reference).

(** Whether a trace records a write of the state file. *)
Definition state_written (evs : list event) : bool := existsb is_state_write evs.

(** The last events of a run that completes: the mail is sent, with
    whatever result, and the state is written. *)
Definition completion (w : World) (c : circular) : list event :=
  [ MailSend (gmail_send w);
    StateWrite (circular_number c);
    Log INFO "Updated last circular ID to: {circular_id}";
    Log INFO "Process completed successfully!" ].

(** The detail address that [main] passes to the resolver. *)
Definition detail_address (c : circular) : string :=
  match url c with Some u => u | None => "" end.

(** The local document of a run and the text kept for the checklist:
    the download of the PDF the resolver found, with the text of its
    pages, or the file synthesized from the captured markup, with that
    markup. *)
Definition local_document (w : World) (c : circular) (p : string) (content : option string)
  : Prop :=
  exists u html,
    fst (get_pdf_from_circular_page w (detail_address c)) = (Some u, html)
    /\ ((truthy u && negb (u =? HTML_ONLY) = true
         /\ fst (download_pdf w u) = Some p
         /\ content = fst (extract_pdf_text w p))
        \/ (u = HTML_ONLY
            /\ fst (create_pdf_from_html_content w c html) = Ok (Some p)
            /\ content = html))
    /\ truthy p = true.

(** Every step of a run before the mail succeeds: a circular is found
    and is new, a local document is produced, the credentials are
    there, authentication, the services and the upload of the circular
    succeed, and no exception leaves the checklist step. *)
Definition reaches_mail (w : World) (fs : state_file) (c : circular)
           (p : string) (content : option string) : Prop :=
  fst (get_latest_circular_info w) = Some c
  /\ same_id (circular_number c) (get_last_circular_id fs) = false
  /\ local_document w c p content
  /\ credentials_present w = true
  /\ authenticate_google_apis w = Ok true
  /\ build_services w = Ok tt
  /\ truthy_opt (upload_drive w p) = true
  /\ fst (checklist_step w c content) <> Raise.

(** The last events of a run whose state write raises: the mail, sent
    with whatever result, and the record of the exception. *)
Definition mail_without_state (w : World) : list event :=
  [ MailSend (gmail_send w); CRITICAL_LOG ].

(* ================================================================== *)
(** * More readings of a trace *)

Definition page_loads (evs : list event) : list string :=
  flat_map (fun e => match e with PageLoad u => [u] | _ => [] end) evs.

Definition get_targets (evs : list event) : list string :=
  flat_map (fun e => match e with GetRequest u => [u] | _ => [] end) evs.

Definition files_written (evs : list event) : list string :=
  flat_map (fun e => match e with FileWrite p => [p] | _ => [] end) evs.

Definition uploads (evs : list event) : list string :=
  flat_map (fun e => match e with DriveUpload p => [p] | _ => [] end) evs.

Definition mails (evs : list event) : list bool :=
  flat_map (fun e => match e with MailSend b => [b] | _ => [] end) evs.

Definition state_writes (evs : list event) : list string :=
  flat_map (fun e => match e with StateWrite id => [id] | _ => [] end) evs.

Definition gemini_requests (evs : list event) : nat :=
  List.length (filter (fun e => match e with GeminiRequest => true | _ => false end) evs).

(** The events of reading the site: logging, page loads and header-only
    requests. *)
Definition is_site_read (e : event) : bool :=
  match e with
  | Log _ _ | PageLoad _ | HeadRequest _ => true
  | _ => false
  end.

(** The events that precede publication: reading the site, the
    download and the local files. *)
Definition is_preparation (e : event) : bool :=
  match e with
  | Log _ _ | PageLoad _ | HeadRequest _ | GetRequest _ | FileWrite _ => true
  | _ => false
  end.

Definition NO_VALID_PDF : event := Log WARNING "No valid PDF found for this circular".

(** The character [q] does not occur in [s]. *)
Definition no_char (q : ascii) (s : string) : bool :=
  forallb_str (fun c => negb (Ascii.eqb q c)) s.

(** The last segment of the path of the address, up to a question
    mark: what [download_pdf] takes as the name of the file. *)
Definition url_segment (w : World) (pdf_url : string) : string :=
  nth 0 (split "?" (List.last (split "/" (urlparse_path w pdf_url)) "")) "".

(** The directory of the downloads and of the checklists. *)
Definition downloads_dir (w : World) : string := path_join (script_dir w) "downloads".

(** Whether a download gets as far as creating the local file. *)
Definition download_streams (w : World) (pdf_url : string) : bool :=
  match http_get w pdf_url with
  | Ok r => negb (raises_for_status r)
            && negb (cannot_create (local_file w (download_path w pdf_url)))
            && content_length_ok r
  | Raise => false
  end.

(** The events of publication: logging, the Google services, the
    checklist file, the mail and the state file. *)
Definition is_publication (e : event) : bool :=
  match e with
  | PageLoad _ | HeadRequest _ | GetRequest _ => false
  | _ => true
  end.

(** A run that stops early: it leaves the state file as it was, sends
    no mail and writes no state. *)
Definition stops_early (w : World) (fs : state_file) : Prop :=
  fst (main w fs) = fs
  /\ state_written (snd (main w fs)) = false
  /\ mails (snd (main w fs)) = [].

(* ================================================================== *)
(** * Sample inputs *)

Module Samples.

(** A reference whose host opens a bracket that is never closed:
    [urljoin] raises [ValueError] on it. *)
Definition unclosed_host (reference : string) : bool :=
  (prefix "http://[" reference || prefix "//[" reference)
  && negb (contains "]" reference).

(** [urljoin] on the references that occur in the samples: it raises on
    an unclosed host, an absolute URL is returned as it is, and a file
    name is appended to a base that ends in a slash. *)
Definition sample_urljoin (base reference : string) : outcome string :=
  if unclosed_host reference then Raise
  else if contains "://" reference then Ok reference
  else if endswith "/" base then Ok (base ++ reference)
  else Ok reference.

Fixpoint from_slash (s : string) : string :=
  match s with
  | EmptyString => EmptyString
  | String c s' => if Ascii.eqb c "/" then s else from_slash s'
  end.

(** [urlparse(u).path] on the addresses that occur in the samples:
    what follows the host name, up to the query. *)
Definition sample_path (u : string) : string :=
  nth 0 (split "?" (from_slash (nth 1 (split "://" u) ""))) "".

(** A world in which the optional services are all available. *)
Definition base_world : World :=
  {| urljoin := sample_urljoin;
     urlparse_path := sample_path;
     set_order := nodup string_dec;
     set_order_perm := fun l => Permutation_refl (nodup string_dec l);
     now := "20250101_093000";
     script_dir := "/srv/rbi";
     local_file := fun _ => FileWritten;
     read_back := fun _ => true;
     state_write := FileWritten;
     credentials_present := true;
     driver_available := true;
     render := fun _ => Raise;
     http_head := fun _ => Raise;
     http_get := fun _ => Raise;
     weasyprint := WeasyWritten;
     pdf_pages := fun _ => Ok [Some "Guidelines on X"];
     authenticate_google_apis := Ok true;
     build_services := Ok tt;
     upload_drive := fun _ => Some "https://drive.google.com/file/d/1/view";
     gemini := fun _ => Ok (Some "1. Is X in place?");
     gmail_send := true |}.

Definition with_network (w : World)
           (pages : string -> outcome page)
           (head get : string -> outcome response) : World :=
  {| urljoin := urljoin w;
     urlparse_path := urlparse_path w;
     set_order := set_order w;
     set_order_perm := set_order_perm w;
     now := now w;
     script_dir := script_dir w;
     local_file := local_file w;
     read_back := read_back w;
     state_write := state_write w;
     credentials_present := credentials_present w;
     driver_available := driver_available w;
     render := pages;
     http_head := head;
     http_get := get;
     weasyprint := weasyprint w;
     pdf_pages := pdf_pages w;
     authenticate_google_apis := authenticate_google_apis w;
     build_services := build_services w;
     upload_drive := upload_drive w;
     gemini := gemini w;
     gmail_send := gmail_send w |}.

Definition with_mail (w : World) (delivered : bool) : World :=
  {| urljoin := urljoin w;
     urlparse_path := urlparse_path w;
     set_order := set_order w;
     set_order_perm := set_order_perm w;
     now := now w;
     script_dir := script_dir w;
     local_file := local_file w;
     read_back := read_back w;
     state_write := state_write w;
     credentials_present := credentials_present w;
     driver_available := driver_available w;
     render := render w;
     http_head := http_head w;
     http_get := http_get w;
     weasyprint := weasyprint w;
     pdf_pages := pdf_pages w;
     authenticate_google_apis := authenticate_google_apis w;
     build_services := build_services w;
     upload_drive := upload_drive w;
     gemini := gemini w;
     gmail_send := delivered |}.

Definition pdf_response : response :=
  {| status_code := 200;
     headers := [("Content-Type", "application/pdf")];
     chunks := [[x25; x50; x44; x46; x2d; x31]; [x2e; x34]];
     stream_breaks := false |}.

Definition html_response : response :=
  {| status_code := 200;
     headers := [("Content-Type", "text/html")];
     chunks := [[x3c; x68; x74; x6d; x6c; x3e]];
     stream_breaks := false |}.

Definition missing_response : response :=
  {| status_code := 404;
     headers := [("Content-Type", "application/pdf")];
     chunks := [];
     stream_breaks := false |}.

Definition td (content : list node) : node := Elem "td" [] content.

Definition detail_link (target text : string) : node :=
  Elem "a" [("href", target)] [Text text].

(** The row of the end-to-end scenario. *)
Definition index_row : node :=
  Elem "tr" []
       [ td [detail_link "BS_CircularIndexDisplay.aspx?Id=9999" "DOR.2025.01"];
         td [Text "01.01.2025"];
         td [Text "DOR"];
         td [Text "Guidelines on X"] ].

Definition short_row : node :=
  Elem "tr" [] [ td [Text "Circular Number"]; td [Text "Date"] ].

Definition index_soup : node :=
  Elem "[document]" [] [ Elem "table" [] [short_row; index_row] ].

(** The same row inside a table that is itself laid out inside the
    cell of another table, whose own row starts with a heading. *)
Definition nested_soup : node :=
  Elem "[document]" []
       [ Elem "table" []
              [ Elem "tr" []
                     [ Elem "th" [] [Text "Circulars"];
                       td [ Elem "table" [] [index_row] ] ] ] ].

(** A row whose link carries an image and no text. *)
Definition untitled_row : node :=
  Elem "tr" []
       [ td [Elem "a" [("href", "BS_CircularIndexDisplay.aspx?Id=9999")]
                  [Elem "img" [("src", "pdf.gif")] []]];
         td [Text "01.01.2025"];
         td [Text "DOR"];
         td [Text "Guidelines on X"] ].

Definition untitled_soup : node :=
  Elem "[document]" [] [ Elem "table" [] [untitled_row] ].

Definition empty_detail : page :=
  {| page_source := Elem "[document]" [] [Elem "body" [] [Text "Circular text"]];
     body_inner_html := Ok "Circular text" |}.

Definition index_page : page :=
  {| page_source := index_soup; body_inner_html := Ok "" |}.

Definition detail_url : string := "https://rbi.org.in/Scripts/BS_CircularIndexDisplay.aspx?Id=9999".

Definition site (u : string) : outcome page :=
  if u =? BASE_PAGE then Ok index_page
  else if u =? detail_url then Ok empty_detail
  else Raise.

(** Every header-only request is answered with a PDF. *)
Definition pdf_everywhere : World :=
  with_network base_world site (fun _ => Ok pdf_response) (fun _ => Ok pdf_response).


(** No address answers with a PDF. *)
Definition no_pdf : World :=
  with_network base_world site (fun _ => Ok html_response) (fun _ => Raise).

(** A detail address whose identifier spells the marker. *)
Definition marked_url : string := "https://rbi.org.in/Scripts/BS_CircularIndexDisplay.aspx?Id=utkarsh".

Definition marked_world : World :=
  with_network base_world (fun _ => Ok empty_detail)
               (fun _ => Ok pdf_response) (fun _ => Ok pdf_response).

(** A detail page with a marked hyperlink, an ordinary one and a marked
    frame; every address answers with a PDF. *)
Definition linked_detail : page :=
  {| page_source :=
       Elem "[document]" []
            [Elem "body" []
                  [ Elem "a" [("href", "https://rbidocs.rbi.org.in/rdocs/Utkarsh/cover.pdf")]
                         [Text "cover"];
                    Elem "a" [("href", "https://rbidocs.rbi.org.in/rdocs/notification/PDFs/45.pdf")]
                         [Text "PDF"];
                    Elem "iframe" [("src", "https://rbidocs.rbi.org.in/rdocs/utkarsh/frame.pdf")] [] ]];
     body_inner_html := Ok "cover PDF" |}.

Definition linked_world : World :=
  with_network base_world (fun _ => Ok linked_detail)
               (fun _ => Ok pdf_response) (fun _ => Ok pdf_response).

(** A download answered with a page of markup instead of a PDF. *)
Definition html_download : World :=
  with_network base_world site (fun _ => Ok pdf_response) (fun _ => Ok html_response).

(** A detail page whose second hyperlink names a host that [urljoin]
    cannot parse; every address answers with a PDF. *)
Definition broken_detail : page :=
  {| page_source :=
       Elem "[document]" []
            [Elem "body" []
                  [ Elem "a" [("href", "https://rbidocs.rbi.org.in/rdocs/notification/PDFs/45.pdf")]
                         [Text "PDF"];
                    Elem "a" [("href", "http://[x.pdf")] [Text "annex"] ]];
     body_inner_html := Ok "PDF annex" |}.

Definition broken_world : World :=
  with_network base_world (fun _ => Ok broken_detail)
               (fun _ => Ok pdf_response) (fun _ => Ok pdf_response).

(** An index page whose only row links to an address that [urljoin]
    cannot parse. *)
Definition unjoinable_index : page :=
  {| page_source :=
       Elem "[document]" []
            [ Elem "table" []
                   [ Elem "tr" []
                          [ td [detail_link "//[/BS_CircularIndexDisplay.aspx?Id=1" "DOR.2025.02"];
                            td [Text "02.01.2025"];
                            td [Text "DOR"];
                            td [Text "Guidelines on Y"] ] ] ];
     body_inner_html := Ok "" |}.

Definition unjoinable_world : World :=
  with_network base_world (fun _ => Ok unjoinable_index)
               (fun _ => Ok pdf_response) (fun _ => Ok pdf_response).

(** The same world with another disk: [files] tells how the writing
    of each local file ends, [state] that of the state file. *)
Definition with_disk (w : World) (files : string -> file_outcome) (state : file_outcome)
  : World :=
  {| urljoin := urljoin w;
     urlparse_path := urlparse_path w;
     set_order := set_order w;
     set_order_perm := set_order_perm w;
     now := now w;
     script_dir := script_dir w;
     local_file := files;
     read_back := read_back w;
     state_write := state;
     credentials_present := credentials_present w;
     driver_available := driver_available w;
     render := render w;
     http_head := http_head w;
     http_get := http_get w;
     weasyprint := weasyprint w;
     pdf_pages := pdf_pages w;
     authenticate_google_apis := authenticate_google_apis w;
     build_services := build_services w;
     upload_drive := upload_drive w;
     gemini := gemini w;
     gmail_send := gmail_send w |}.


(** No local file can be created. *)
Definition read_only_disk : World :=
  with_disk no_pdf (fun _ => CannotCreate) FileWritten.

(** U+00E9, a letter outside ASCII. *)
Definition e_acute : ascii := ascii_of_nat 233.

Definition accented_number : string := String e_acute EmptyString.

(** An identifier with a carriage return inside. *)
Definition cr_id : string := String "a" (String CR (String "b" EmptyString)).

Definition circular_numbered (number : string) : circular :=
  {| link := Text ""; href := "BS_CircularIndexDisplay.aspx?Id=9999";
     circular_number := number; date := "01.01.2025"; department := "DOR";
     subject := "Guidelines on X"; url := Some detail_url |}.

End Samples.

(* ================================================================== *)
(** * Google Drive

    The Drive service as [get_or_create_folder] and [upload_drive] use
    it: a store of entries that [files().list] searches and
    [files().create] extends.  What the service decides on its own is
    its [behaviour]: the identifier of a new entry, the calls that end
    in an error and the link it reports for an entry.  The folder names
    of the program are the year and the name of the month, which hold no
    quote, so the query text selects by equality of the name. *)

Module Drive.

Definition FOLDER_MIME : string := "application/vnd.google-apps.folder".

Record entry : Type := mkEntry {
  entry_id : string;
  entry_name : string;
  mime_type : string;
  parents : list string
}.

Record service : Type := mkService {
  stored : list entry;
  calls : nat
}.

Record behaviour : Type := mkBehaviour {
  new_id : nat -> string;
  fails : nat -> bool;
  web_view_link : string -> option string
}.

Definition tick (d : service) : service :=
  {| stored := stored d; calls := S (calls d) |}.

(** The entries selected by
    [name='...' and mimeType='application/vnd.google-apps.folder' and '...' in parents]. *)
Definition is_folder_named (name parent : string) (e : entry) : bool :=
  (entry_name e =? name) && (mime_type e =? FOLDER_MIME)
  && existsb (String.eqb parent) (parents e).

(** [files().list(q=query, ...).execute()] *)
Definition files_list (b : behaviour) (d : service) (name parent : string)
  : outcome (list entry) * service :=
  if fails b (calls d) then (Raise, tick d)
  else (Ok (filter (is_folder_named name parent) (stored d)), tick d).

(** [files().create(body=file_metadata, ...).execute()] *)
Definition files_create (b : behaviour) (d : service) (name mime : string)
           (parent_ids : list string) : outcome entry * service :=
  if fails b (calls d) then (Raise, tick d)
  else
    let e := {| entry_id := new_id b (calls d); entry_name := name;
                mime_type := mime; parents := parent_ids |} in
    (Ok e, tick {| stored := (stored d ++ [e])%list; calls := calls d |}).

Definition get_or_create_folder (b : behaviour) (d : service) (folder_name parent_id : string)
  : option string * service :=
  match files_list b d folder_name parent_id with
  | (Raise, d1) => (None, d1)
  | (Ok folders, d1) =>
      match folders with
      | first :: _ => (Some (entry_id first), d1)
      | [] =>
          match files_create b d1 folder_name FOLDER_MIME [parent_id] with
          | (Raise, d2) => (None, d2)
          | (Ok folder, d2) => (Some (entry_id folder), d2)
          end
      end
  end.

(** [os.path.basename(filepath)] *)
Definition basename (filepath : string) : string := List.last (split "/" filepath) "".

(** ['application/pdf' if filepath.lower().endswith('.pdf') else 'text/plain'] *)
Definition upload_mimetype (filepath : string) : string :=
  if endswith ".pdf" (lower filepath) then "application/pdf" else "text/plain".

(** [upload_drive]; [current_year] and [current_month] are what the
    clock gives for [%Y] and [%B], and [file_exists] says whether
    [MediaFileUpload] finds the local file. *)
Definition upload_drive (b : behaviour) (d : service) (current_year current_month : string)
           (file_exists : bool) (filepath rbi_folder_id : string)
  : option string * service :=
  let '(year_folder_id, d1) := get_or_create_folder b d current_year rbi_folder_id in
  match year_folder_id with
  | None => (None, d1)
  | Some year_id =>
      if negb (truthy year_id) then (None, d1)
      else
        let '(month_folder_id, d2) := get_or_create_folder b d1 current_month year_id in
        match month_folder_id with
        | None => (None, d2)
        | Some month_id =>
            if negb (truthy month_id) then (None, d2)
            else if negb file_exists then (None, d2)
            else
              match files_create b d2 (basename filepath) (upload_mimetype filepath) [month_id] with
              | (Raise, d3) => (None, d3)
              | (Ok result, d3) => (web_view_link b (entry_id result), d3)
              end
        end
  end.

(** The first folder of that name under that parent, if there is one. *)
Definition find_folder (d : service) (name parent : string) : option entry :=
  hd_error (filter (is_folder_named name parent) (stored d)).

Definition folders_of (d : service) : list entry :=
  filter (fun e => mime_type e =? FOLDER_MIME) (stored d).

(** A Drive that never fails, numbers its entries and reports a link
    for each. *)
Definition reliable : behaviour :=
  {| new_id := fun n => String.concat "" (repeat "i" (S n));
     fails := fun _ => false;
     web_view_link := fun id => Some ("https://drive.google.com/file/d/" ++ id ++ "/view") |}.

Definition empty : service := {| stored := []; calls := 0 |}.

End Drive.

(* ================================================================== *)
(** * Google credentials

    [authenticate_google_apis] with what it finds and what it can call:
    the stored token (absent, unreadable, or credentials), the refresh
    of credentials, the consent flow in the browser, and whether
    [token.json] can be written. *)

Module Auth.

Record credentials : Type := mkCredentials {
  valid : bool;
  expired : bool;
  refresh_token : option string
}.

Record environment : Type := mkEnvironment {
  token_json : option (outcome credentials);
  refresh : credentials -> outcome credentials;
  run_flow : outcome credentials;
  token_writable : bool
}.

Inductive action : Type :=
| Refreshed
| Consent
| TokenWritten (c : credentials).

(** [with open('token.json', 'w') as f: f.write(creds.to_json())] and
    the [return creds] that follows. *)
Definition write_token (env : environment) (c : credentials) (done : list action)
  : outcome credentials * list action :=
  if token_writable env then (Ok c, (done ++ [TokenWritten c])%list) else (Raise, done).

(** The [else] branch: the consent flow. *)
Definition consent (env : environment) : outcome credentials * list action :=
  match run_flow env with
  | Ok c => write_token env c [Consent]
  | Raise => (Raise, [Consent])
  end.

Definition authenticate_google_apis (env : environment)
  : outcome credentials * list action :=
  match token_json env with
  | Some Raise => (Raise, [])
  | Some (Ok creds) =>
      if valid creds then (Ok creds, [])
      else if expired creds && truthy_opt (refresh_token creds) then
        match refresh env creds with
        | Ok refreshed => write_token env refreshed [Refreshed]
        | Raise => (Raise, [Refreshed])
        end
      else consent env
  | None => consent env
  end.

Definition usable_token (env : environment) : Prop :=
  exists c, token_json env = Some (Ok c) /\ valid c = true.

(** An expired token with a refresh token, and a refresh that fails. *)
Definition stale : environment :=
  {| token_json := Some (Ok {| valid := false; expired := true;
                               refresh_token := Some "1//0g" |});
     refresh := fun _ => Raise;
     run_flow := Ok {| valid := true; expired := false; refresh_token := Some "1//0h" |};
     token_writable := true |}.

End Auth.

(* ================================================================== *)
(** * Checklist generation

    [generate_checklist_from_text] with the model it calls:
    [setup_ok] says that configuring the library and naming the model
    do not raise, and [generate_content] gives the text of the answer to
    a prompt, or raises. *)

Module Checklist.

Definition PROMPT_HEAD : string := "
    As an expert in RBI regulations and cybersecurity, analyze the provided text to generate a unified, exhaustive compliance checklist, grouping all requirements under clear headings and converting each specific, detailed item into an audit-ready yes/no question without omitting any conditions or timeframes.
    Circular Text:
    ".

Definition PROMPT_TAIL : string := "

    Compliance Checklist:
    ".

Definition prompt_of (document_text : string) : string :=
  PROMPT_HEAD ++ document_text ++ PROMPT_TAIL.

Definition generate_checklist_from_text
           (setup_ok : bool) (generate_content : string -> outcome string)
           (document_text : string) : outcome (option string) :=
  if negb setup_ok then Raise
  else
    match generate_content (prompt_of document_text) with
    | Ok text => Ok (Some (strip text))
    | Raise => Ok None
    end.

End Checklist.

(* ================================================================== *)
(** * Facts about the string primitives *)

Section StringFacts.

Lemma append_empty_r (s : string) : s ++ "" = s.
Proof. induction s as [|c s IH]; simpl; [reflexivity | now rewrite IH]. Qed.

Lemma append_assoc' (a b c : string) : (a ++ b) ++ c = a ++ (b ++ c).
Proof. induction a as [|x a IH]; simpl; [reflexivity | now rewrite IH]. Qed.

Lemma prefix_spec (p s : string) :
  prefix p s = true <-> exists rest, s = p ++ rest.
Proof.
  revert s; induction p as [|c p IH]; intros s.
  - split; [intros _; now exists s | intros _; now destruct s].
  - destruct s as [|d s]; simpl.
    + split; [discriminate | intros [rest H]; discriminate].
    + destruct (ascii_dec c d) as [->|ne].
      * rewrite IH. split; intros [rest H]; exists rest.
        -- now rewrite H.
        -- now injection H.
      * split; [discriminate | intros [rest H]; injection H; intros; congruence].
Qed.

Lemma contains_spec (sub s : string) :
  contains sub s = true <-> exists pre post, s = pre ++ sub ++ post.
Proof.
  induction s as [|c s IH]; cbn [contains].
  - rewrite orb_false_r, prefix_spec. split.
    + intros [rest H]. now exists "", rest.
    + intros [pre [post H]]. destruct pre; simpl in H.
      * now exists post.
      * discriminate.
  - rewrite orb_true_iff, prefix_spec, IH. split.
    + intros [[rest H] | [pre [post H]]].
      * now exists "", rest.
      * exists (String c pre), post. simpl. now rewrite H.
    + intros [pre [post H]]. destruct pre as [|d pre]; simpl in H.
      * left. now exists post.
      * right. injection H as _ H. now exists pre, post.
Qed.

Lemma contains_append (sub a b : string) :
  contains sub b = true -> contains sub (a ++ b) = true.
Proof.
  rewrite !contains_spec. intros [pre [post H]].
  exists (a ++ pre), post. now rewrite H, append_assoc'.
Qed.

Lemma contains_trans (a b s : string) :
  contains a b = true -> contains b s = true -> contains a s = true.
Proof.
  rewrite !contains_spec. intros [p1 [q1 H1]] [p2 [q2 H2]].
  exists (p2 ++ p1), (q1 ++ q2). rewrite H2, H1.
  now rewrite !append_assoc'.
Qed.

End StringFacts.

Section StripFacts.

Lemma last_char_cons (c d : ascii) (s : string) :
  last_char (String c (String d s)) = last_char (String d s).
Proof. simpl. now destruct (last_char s). Qed.

Lemma ends_clean_cons (c d : ascii) (s : string) :
  ends_clean (String c (String d s)) = ends_clean (String d s).
Proof. unfold ends_clean. now rewrite last_char_cons. Qed.

Lemma rstrip_fixed (s : string) : ends_clean s = true -> rstrip s = s.
Proof.
  induction s as [|c s IH]; [reflexivity|].
  destruct s as [|d s].
  - unfold ends_clean; simpl. now destruct (is_space c).
  - rewrite ends_clean_cons. intros H. specialize (IH H).
    change (rstrip (String c (String d s)))
      with (match rstrip (String d s) with
            | EmptyString => if is_space c then EmptyString else String c EmptyString
            | r => String c r
            end).
    now rewrite IH.
Qed.

Lemma rstrip_ends_clean (s : string) : ends_clean (rstrip s) = true.
Proof.
  induction s as [|c s IH]; [reflexivity|].
  simpl. destruct (rstrip s) as [|d r] eqn:E.
  - destruct (is_space c) eqn:Hc; [reflexivity|].
    unfold ends_clean; simpl. now rewrite Hc.
  - now rewrite ends_clean_cons.
Qed.

Lemma rstrip_starts_clean (s : string) :
  starts_clean s = true -> starts_clean (rstrip s) = true.
Proof.
  destruct s as [|c s]; [reflexivity|].
  unfold starts_clean; simpl. intros H.
  destruct (rstrip s); [|exact H].
  destruct (is_space c) eqn:E; [discriminate|].
  simpl. now rewrite E.
Qed.

Lemma lstrip_fixed (s : string) : starts_clean s = true -> lstrip s = s.
Proof.
  destruct s as [|c s]; [reflexivity|].
  unfold starts_clean; simpl. now destruct (is_space c).
Qed.

Lemma lstrip_starts_clean (s : string) : starts_clean (lstrip s) = true.
Proof.
  induction s as [|c s IH]; [reflexivity|].
  simpl. destruct (is_space c) eqn:Hc; [exact IH|].
  unfold starts_clean; simpl. now rewrite Hc.
Qed.

Lemma strip_clean (s : string) : no_surrounding_space (strip s) = true.
Proof.
  unfold no_surrounding_space, strip.
  now rewrite rstrip_starts_clean, rstrip_ends_clean by apply lstrip_starts_clean.
Qed.

Lemma strip_fixed (s : string) : no_surrounding_space s = true -> strip s = s.
Proof.
  unfold no_surrounding_space, strip. intros H.
  apply andb_true_iff in H as [H1 H2].
  rewrite (lstrip_fixed _ H1). now apply rstrip_fixed.
Qed.

Lemma strip_fixed_iff (s : string) : strip s = s <-> no_surrounding_space s = true.
Proof.
  split; [|apply strip_fixed].
  intros H. rewrite <- H. apply strip_clean.
Qed.

Lemma starts_clean_append (a b : string) :
  truthy a = true -> starts_clean (a ++ b) = starts_clean a.
Proof. destruct a; [discriminate | reflexivity]. Qed.

Lemma ends_clean_append (a b : string) :
  truthy b = true -> ends_clean (a ++ b) = ends_clean b.
Proof.
  intros Hb. induction a as [|c a IH]; [reflexivity|].
  simpl. destruct (a ++ b) as [|d r] eqn:E.
  - destruct a; destruct b; discriminate.
  - now rewrite ends_clean_cons.
Qed.

Lemma truthy_append (a b : string) : truthy a = true -> truthy (a ++ b) = true.
Proof. destruct a; [discriminate | reflexivity]. Qed.

(** Gluing non-empty stripped pieces gives a stripped text. *)
Lemma concat_clean (pieces : list string) :
  Forall (fun p => truthy p = true /\ no_surrounding_space p = true) pieces ->
  no_surrounding_space (String.concat "" pieces) = true
  /\ (pieces <> [] -> truthy (String.concat "" pieces) = true).
Proof.
  induction 1 as [|p rest [Hp Hc] Hrest [IH1 IH2]]; [split; [reflexivity | congruence]|].
  destruct rest as [|q rest].
  - simpl. split; [exact Hc | intros _; exact Hp].
  - assert (Hq : truthy (String.concat "" (q :: rest)) = true) by (apply IH2; congruence).
    remember (String.concat "" (q :: rest)) as tail eqn:Etail.
    assert (E : String.concat "" (p :: q :: rest) = p ++ tail)
      by (rewrite Etail; reflexivity).
    rewrite E.
    split; [|intros _; now apply truthy_append].
    unfold no_surrounding_space in *.
    apply andb_true_iff in Hc as [Hc1 Hc2].
    apply andb_true_iff in IH1 as [IH1a IH1b].
    rewrite starts_clean_append, ends_clean_append by assumption.
    now rewrite Hc1, IH1b.
Qed.

Lemma get_text_strip_clean (n : node) :
  no_surrounding_space (Dom.get_text_strip n) = true.
Proof.
  unfold Dom.get_text_strip. apply concat_clean.
  apply Forall_forall. intros p Hp.
  apply filter_In in Hp as [Hin Ht]. split; [exact Ht|].
  apply in_map_iff in Hin as [s [<- _]]. apply strip_clean.
Qed.

Lemma universal_newlines_fixed (s : string) :
  has_cr s = false -> universal_newlines s = s.
Proof.
  induction s as [|c s IH]; [reflexivity|].
  unfold has_cr in *; cbn [existsb_str universal_newlines]. intros H.
  apply orb_false_iff in H as [Hc Hs].
  rewrite Ascii.eqb_sym in Hc. rewrite Hc.
  now rewrite (IH Hs).
Qed.

End StripFacts.


(* ================================================================== *)
(** * URL validation *)

Lemma header_get_single (name value : string) :
  header_get "content-type" [("Content-Type", value)] "" = value.
Proof. reflexivity. Qed.

(** C2. A candidate passes validation exactly when the header-only
    request is answered with status 200 and a content type that, in
    lower case, contains [pdf]; a request that raises makes the
    candidate invalid; one request is made, never a second; and a 200
    with [application/pdf] is accepted while a 200 with [text/html] and
    a 404 are rejected. *)
Theorem check_pdf_url_exists_correct (w : World) (u : string) :
  (validates w u = true <->
     exists r, http_head w u = Ok r
               /\ status_code r = 200%Z
               /\ exists pre post,
                    lower (header_get "content-type" (headers r) "") = pre ++ "pdf" ++ post)
  /\ (http_head w u = Raise -> validates w u = false)
  /\ head_targets (snd (check_pdf_url_exists w u)) = [u]
  /\ (forall r, http_head w u = Ok r -> status_code r = 200%Z ->
                header_get "content-type" (headers r) "" = "application/pdf" ->
                validates w u = true)
  /\ (forall r, http_head w u = Ok r -> status_code r = 200%Z ->
                header_get "content-type" (headers r) "" = "text/html" ->
                validates w u = false)
  /\ (forall r, http_head w u = Ok r -> status_code r = 404%Z ->
                validates w u = false).
Proof.
  unfold validates, check_pdf_url_exists, is_valid_pdf_response.
  destruct (http_head w u) as [r|] eqn:Hh.
  - repeat split.
    + intros H. exists r. split; [reflexivity|].
      destruct (status_code r =? 200)%Z eqn:Hs; [|discriminate H].
      destruct (contains "pdf" _) eqn:Hc; [|discriminate H].
      split; [now apply Z.eqb_eq | now apply contains_spec].
    + intros [r' [E [Hs Hc]]]. injection E as <-.
      apply Z.eqb_eq in Hs. apply contains_spec in Hc. now rewrite Hs, Hc.
    + discriminate.
    + now destruct (_ && _).
    + intros r' E Hs Hc. injection E as <-. now rewrite Hs, Hc.
    + intros r' E Hs Hc. injection E as <-. now rewrite Hs, Hc.
    + intros r' E Hs. injection E as <-. now rewrite Hs.
  - repeat split; try discriminate; try reflexivity.
    intros [r [E _]]. discriminate.
Qed.

Lemma check_pdf_url_exists_witness :
  validates Samples.pdf_everywhere "https://rbidocs.rbi.org.in/rdocs/content/pdfs/9999.pdf" = true
  /\ validates Samples.no_pdf "https://rbidocs.rbi.org.in/rdocs/content/pdfs/9999.pdf" = false.
Proof.
  split.
  - apply (proj1 (proj2 (proj2 (proj2 (check_pdf_url_exists_correct Samples.pdf_everywhere
             "https://rbidocs.rbi.org.in/rdocs/content/pdfs/9999.pdf"))))
             Samples.pdf_response); reflexivity.
  - apply (proj1 (proj2 (proj2 (proj2 (proj2 (check_pdf_url_exists_correct Samples.no_pdf
             "https://rbidocs.rbi.org.in/rdocs/content/pdfs/9999.pdf")))))
             Samples.html_response); reflexivity.
Defined.


(* ================================================================== *)
(** * Index parser *)

Section ListFacts.

Context {A B C : Type}.

Lemma filter_flat_map (p : B -> bool) (f : A -> list B) (l : list A) :
  filter p (flat_map f l) = flat_map (fun x => filter p (f x)) l.
Proof.
  induction l as [|x l IH]; [reflexivity|].
  simpl. now rewrite filter_app, IH.
Qed.

Lemma flat_map_flat_map (f : A -> list B) (g : B -> list C) (l : list A) :
  flat_map g (flat_map f l) = flat_map (fun x => flat_map g (f x)) l.
Proof.
  induction l as [|x l IH]; [reflexivity|].
  simpl. now rewrite flat_map_app, IH.
Qed.

Lemma flat_map_ext_Forall (f g : A -> list B) (l : list A) :
  Forall (fun x => f x = g x) l -> flat_map f l = flat_map g l.
Proof.
  induction 1 as [|x l Hx _ IH]; [reflexivity|].
  simpl. now rewrite Hx, IH.
Qed.

Lemma flat_map_singleton_filter (p : A -> bool) (f : A -> B) (l : list A) :
  flat_map (fun x => if p x then [f x] else []) l = map f (filter p l).
Proof.
  induction l as [|x l IH]; [reflexivity|].
  simpl. destruct (p x); simpl; now rewrite IH.
Qed.

End ListFacts.

Section DomFacts.

Lemma descendants_elem nm attrs cs :
  Dom.descendants (Elem nm attrs cs) = flat_map (fun c => c :: Dom.descendants c) cs.
Proof. reflexivity. Qed.

Lemma find_all_elem names nm attrs cs :
  Dom.find_all names (Elem nm attrs cs)
  = flat_map (fun c => (if Dom.has_name names c then [c] else [])
                       ++ Dom.find_all names c)%list cs.
Proof.
  unfold Dom.find_all. rewrite descendants_elem, filter_flat_map.
  apply flat_map_ext. intros c. simpl. now destruct (Dom.has_name names c).
Qed.

Lemma descendants_child nm attrs cs c t :
  In c cs -> In t (c :: Dom.descendants c) -> In t (Dom.descendants (Elem nm attrs cs)).
Proof.
  intros Hc Ht. rewrite descendants_elem. apply in_flat_map. now exists c.
Qed.

(** Below a table every [tr] is a row. *)
Lemma rows_under_table (n : node) : rows_under true n = Dom.find_all ["tr"] n.
Proof.
  induction n as [nm attrs cs IH | s | s] using node_ind; try reflexivity.
  rewrite find_all_elem. cbn [rows_under orb andb].
  apply flat_map_ext_Forall.
  eapply Forall_impl; [|exact IH]. intros c Hc. cbn beta. now rewrite Hc.
Qed.

Lemma rows_under_of_table (n : node) :
  Dom.has_name ["table"] n = true -> rows_under false n = Dom.find_all ["tr"] n.
Proof.
  intros H. rewrite <- rows_under_table.
  destruct n as [nm attrs cs | s | s]; try reflexivity.
  cbn [rows_under]. now rewrite H.
Qed.

Lemma visited_rows_elem nm attrs cs :
  visited_rows (Elem nm attrs cs)
  = flat_map (fun c => (if Dom.has_name ["table"] c then Dom.find_all ["tr"] c else [])
                       ++ visited_rows c)%list cs.
Proof.
  unfold visited_rows. rewrite find_all_elem, flat_map_flat_map.
  apply flat_map_ext. intros c. rewrite flat_map_app.
  destruct (Dom.has_name ["table"] c); simpl; [now rewrite app_nil_r | reflexivity].
Qed.

Lemma rows_under_flat (n : node) :
  flat_below n ->
  rows_under false n
  = ((if Dom.has_name ["table"] n then Dom.find_all ["tr"] n else []) ++ visited_rows n)%list.
Proof.
  induction n as [nm attrs cs IH | s | s] using node_ind; try reflexivity.
  intros Hflat.
  destruct (Dom.has_name ["table"] (Elem nm attrs cs)) eqn:Ht.
  - rewrite (rows_under_of_table _ Ht).
    unfold visited_rows. rewrite (Hflat _ (or_introl eq_refl) Ht).
    simpl. now rewrite app_nil_r.
  - rewrite visited_rows_elem. cbn [rows_under]. rewrite Ht. cbn [orb andb app].
    apply flat_map_ext_Forall. apply Forall_forall. intros c Hc.
    rewrite Forall_forall in IH. apply (IH c Hc).
    intros t Hin. apply Hflat. right. eapply descendants_child; eassumption.
Qed.

Lemma parse_row_spec (row : node) :
  parse_row row = if well_formed_row row then [summary_of_row row] else [].
Proof.
  unfold parse_row, well_formed_row, summary_of_row.
  destruct (Nat.leb 4 _); [|reflexivity].
  destruct (Dom.find_all ["td"; "th"] row) as [|first_cell rest]; [reflexivity|].
  cbn [hd_error andb].
  destruct (Dom.find_a_href first_cell) as [a|]; [|reflexivity].
  destruct (Dom.get "href" a) as [h|]; [|reflexivity].
  now destruct (contains DETAIL_PATTERN h).
Qed.

Lemma parse_rows_spec (rows : list node) :
  flat_map parse_row rows = map summary_of_row (filter well_formed_row rows).
Proof.
  rewrite <- flat_map_singleton_filter.
  apply flat_map_ext. apply parse_row_spec.
Qed.

(** Whatever the page, the parser returns the summaries of the
    well-formed rows it visits, in the order of the visit. *)
Lemma parse_circulars_table_visited (soup : node) :
  parse_circulars_table soup
  = map summary_of_row (filter well_formed_row (visited_rows soup)).
Proof.
  unfold parse_circulars_table, visited_rows.
  now rewrite <- parse_rows_spec, flat_map_flat_map.
Qed.

Lemma visited_rows_flat (soup : node) :
  tables_flat soup -> visited_rows soup = table_rows soup.
Proof.
  intros Hflat. destruct soup as [nm attrs cs | s | s]; try reflexivity.
  rewrite visited_rows_elem. unfold table_rows. cbn [Dom.children_of].
  apply flat_map_ext_Forall. apply Forall_forall. intros c Hc.
  symmetry. apply rows_under_flat.
  intros t Hin Ht. apply Hflat. unfold Dom.find_all.
  apply filter_In. split; [|exact Ht].
  eapply descendants_child; eassumption.
Qed.

End DomFacts.

(** C3 (amended). On a page whose tables are not nested, the parser
    returns one summary for each well-formed row of the page, in the
    order of the rows; the other rows are left out without changing
    that order; the parser is total and so returns a list, possibly
    empty, on every page. *)
Theorem parse_circulars_table_flat (soup : node) :
  tables_flat soup ->
  parse_circulars_table soup
  = map summary_of_row (filter well_formed_row (table_rows soup))
  /\ List.length (parse_circulars_table soup)
     = List.length (filter well_formed_row (table_rows soup)).
Proof.
  intros Hflat.
  assert (E : parse_circulars_table soup
              = map summary_of_row (filter well_formed_row (table_rows soup)))
    by (rewrite parse_circulars_table_visited; now rewrite visited_rows_flat).
  split; [exact E|]. rewrite E. apply length_map.
Qed.

Lemma parse_circulars_table_flat_witness :
  parse_circulars_table Samples.index_soup
  = map summary_of_row (filter well_formed_row (table_rows Samples.index_soup))
  /\ List.length (parse_circulars_table Samples.index_soup) = 1.
Proof.
  assert (Hflat : tables_flat Samples.index_soup).
  { intros t Hin. vm_compute in Hin. destruct Hin as [<- | []]. reflexivity. }
  split.
  - exact (proj1 (parse_circulars_table_flat Hflat)).
  - rewrite (proj2 (parse_circulars_table_flat Hflat)). reflexivity.
Defined.

(** C3, as stated, fails on nested tables: the page has one well-formed
    row and the parser returns two summaries, both for that row. *)
Lemma parse_circulars_table_nested :
  List.length (filter well_formed_row (table_rows Samples.nested_soup)) = 1
  /\ List.length (parse_circulars_table Samples.nested_soup) = 2
  /\ ~ (forall soup, List.length (parse_circulars_table soup)
                     = List.length (filter well_formed_row (table_rows soup))).
Proof.
  split; [reflexivity|]. split; [reflexivity|].
  intros H. specialize (H Samples.nested_soup). vm_compute in H. discriminate.
Qed.

(** C7 (amended). Every summary the parser returns has a detail address
    that contains the detail-page pattern, hence [Id=]; its circular
    number is the stripped text of its link, which has no surrounding
    whitespace and may be empty. *)
Theorem parse_circulars_table_invariant (soup : node) (c : circular) :
  In c (parse_circulars_table soup) ->
  contains DETAIL_PATTERN (href c) = true
  /\ contains "Id=" (href c) = true
  /\ Dom.get "href" (link c) = Some (href c)
  /\ circular_number c = Dom.get_text_strip (link c)
  /\ no_surrounding_space (circular_number c) = true.
Proof.
  unfold parse_circulars_table. intros H.
  apply in_flat_map in H as [table [_ H]].
  apply in_flat_map in H as [row [_ H]].
  unfold parse_row in H.
  destruct (Nat.leb 4 _); [|contradiction].
  destruct (Dom.find_all ["td"; "th"] row) as [|first_cell rest]; [contradiction|].
  destruct (Dom.find_a_href first_cell) as [a|]; [|contradiction].
  destruct (Dom.get "href" a) as [h|] eqn:Hh; [|contradiction].
  destruct (contains DETAIL_PATTERN h) eqn:Hc; [|contradiction].
  destruct H as [<- | []]. cbn [href link circular_number].
  repeat split; try assumption; try reflexivity.
  - eapply contains_trans; [|exact Hc]. reflexivity.
  - apply get_text_strip_clean.
Qed.

Lemma parse_circulars_table_invariant_witness :
  exists c, In c (parse_circulars_table Samples.index_soup)
            /\ contains "Id=" (href c) = true
            /\ circular_number c = "DOR.2025.01".
Proof.
  exists (summary_of_row Samples.index_row).
  assert (Hin : In (summary_of_row Samples.index_row)
                   (parse_circulars_table Samples.index_soup))
    by (left; reflexivity).
  split; [exact Hin|]. split.
  - exact (proj1 (proj2 (parse_circulars_table_invariant _ _ Hin))).
  - reflexivity.
Defined.

(** C7, as stated, fails: a row whose link has no text gives a summary
    with an empty circular number. *)
Lemma parse_circulars_table_empty_number :
  map circular_number (parse_circulars_table Samples.untitled_soup) = [""]
  /\ ~ (forall soup c, In c (parse_circulars_table soup) ->
                       truthy (circular_number c) = true
                       /\ contains "Id=" (href c) = true).
Proof.
  split; [reflexivity|].
  intros H.
  destruct (H Samples.untitled_soup (summary_of_row Samples.untitled_row)) as [Ht _].
  - left. reflexivity.
  - discriminate Ht.
Qed.

(* ================================================================== *)
(** * Artifact resolver *)

Section ResolverFacts.

Variable w : World.

Lemma head_targets_app (a b : list event) :
  head_targets (a ++ b) = (head_targets a ++ head_targets b)%list.
Proof. apply flat_map_app. Qed.

Lemma head_targets_log (lvl : level) (msg : string) (l : list event) :
  head_targets (Log lvl msg :: l) = head_targets l.
Proof. reflexivity. Qed.

Lemma head_targets_page_load (u : string) (l : list event) :
  head_targets (PageLoad u :: l) = head_targets l.
Proof. reflexivity. Qed.

Lemma head_targets_nil : head_targets [] = [].
Proof. reflexivity. Qed.

Ltac heads :=
  repeat first [ rewrite head_targets_app
               | rewrite head_targets_log
               | rewrite head_targets_page_load
               | rewrite head_targets_nil
               | rewrite app_nil_r ].

Lemma check_head_targets (u : string) :
  head_targets (snd (check_pdf_url_exists w u)) = [u].
Proof.
  unfold check_pdf_url_exists.
  destruct (http_head w u) as [r|]; [destruct (is_valid_pdf_response r)|]; reflexivity.
Qed.

Lemma collect_valid_fst (l : list string) :
  fst (collect_valid w l) = filter (validates w) l.
Proof.
  induction l as [|u l IH]; [reflexivity|].
  cbn [collect_valid filter]. unfold validates at 1.
  destruct (check_pdf_url_exists w u) as [ok e1].
  destruct (collect_valid w l) as [found e2].
  cbn [fst] in *. now rewrite IH.
Qed.

Lemma collect_valid_heads (l : list string) :
  head_targets (snd (collect_valid w l)) = l.
Proof.
  induction l as [|u l IH]; [reflexivity|].
  cbn [collect_valid]. pose proof (check_head_targets u) as Hu.
  destruct (check_pdf_url_exists w u) as [ok e1].
  destruct (collect_valid w l) as [found e2].
  cbn [snd] in *. now rewrite head_targets_app, Hu, IH.
Qed.

Lemma first_valid_fst (l : list string) :
  fst (first_valid w l)
  = match find (validates w) l with Some u => [u] | None => [] end.
Proof.
  induction l as [|u l IH]; [reflexivity|].
  cbn [first_valid find]. unfold validates at 1.
  destruct (check_pdf_url_exists w u) as [ok e1]. cbn [fst].
  destruct ok; [reflexivity|].
  destruct (first_valid w l) as [found e2]. exact IH.
Qed.

Lemma first_valid_heads (l : list string) :
  head_targets (snd (first_valid w l)) = through_first (validates w) l.
Proof.
  induction l as [|u l IH]; [reflexivity|].
  cbn [first_valid through_first]. unfold validates at 1.
  pose proof (check_head_targets u) as Hu.
  destruct (check_pdf_url_exists w u) as [ok e1]. cbn [fst snd] in *.
  destruct ok; [exact Hu|].
  destruct (first_valid w l) as [found e2]. cbn [snd] in *.
  now rewrite head_targets_app, Hu, IH.
Qed.

Lemma set_order_In (l : list string) (x : string) :
  In x (set_order w l) <-> In x l.
Proof.
  rewrite <- (nodup_In string_dec l). split; apply Permutation_in.
  - apply set_order_perm.
  - apply Permutation_sym, set_order_perm.
Qed.

Lemma set_order_singleton (x : string) : set_order w [x] = [x].
Proof.
  apply Permutation_length_1_inv, Permutation_sym.
  exact (set_order_perm w [x]).
Qed.

Lemma find_In_valid (l : list string) (x : string) :
  find (validates w) l = Some x -> In x l /\ validates w x = true.
Proof. apply find_some. Qed.

Lemma scan_collect (circular_url : string) (refs : list string) :
  scan w circular_url refs
  = (if join_raises w circular_url refs then Raise
     else Ok (fst (collect_valid w (joined w circular_url refs))),
     snd (collect_valid w (joined w circular_url refs))).
Proof.
  induction refs as [|r refs IH]; [reflexivity|].
  cbn [scan joined join_raises].
  destruct (urljoin w circular_url r) as [full_url|]; [|reflexivity].
  cbn [collect_valid]. rewrite IH.
  destruct (check_pdf_url_exists w full_url) as [ok e1].
  destruct (collect_valid w (joined w circular_url refs)) as [found e2].
  cbn [fst snd]. destruct (join_raises w circular_url refs); reflexivity.
Qed.

Lemma joined_In (circular_url : string) (refs : list string) (u : string) :
  In u (joined w circular_url refs) ->
  exists r, In r refs /\ urljoin w circular_url r = Ok u.
Proof.
  induction refs as [|r refs IH]; [intros []|].
  cbn [joined]. destruct (urljoin w circular_url r) as [full_url|] eqn:E; [|intros []].
  intros [<- | H].
  - exists r. split; [now left | exact E].
  - destruct (IH H) as [r' [Hr' E']]. exists r'. split; [now right | exact E'].
Qed.


Lemma anchor_candidates_unmarked (circular_url : string) (soup : node) (u : string) :
  In u (anchor_candidates w circular_url soup) ->
  exists reference, In reference (anchor_references soup)
                    /\ urljoin w circular_url reference = Ok u
                    /\ marked reference = false.
Proof.
  unfold anchor_candidates, anchor_references. intros H.
  apply joined_In in H as [h [H E]]. unfold anchor_kept in H.
  apply in_flat_map in H as [a [Ha H]].
  destruct (Dom.get "href" a) as [h'|] eqn:Hh; [|contradiction].
  unfold anchor_passes in H.
  destruct (endswith ".pdf" (lower h')); [|contradiction].
  destruct (contains MARKER (lower h')) eqn:Hm; [contradiction|].
  destruct H as [<- | []]. exists h'. repeat split; [|exact E|exact Hm].
  apply in_flat_map. exists a. split; [exact Ha|]. rewrite Hh. now left.
Qed.

Lemma embed_candidates_unmarked (circular_url : string) (soup : node) (u : string) :
  In u (embed_candidates w circular_url soup) ->
  exists reference, In reference (embed_references soup)
                    /\ urljoin w circular_url reference = Ok u
                    /\ marked reference = false.
Proof.
  unfold embed_candidates, embed_references. intros H.
  apply joined_In in H as [s [H E]]. unfold embed_kept in H.
  apply in_flat_map in H as [tag [Ha H]].
  destruct (embed_reference tag) as [s'|] eqn:Hs; [|contradiction].
  unfold embed_passes in H.
  destruct (truthy s'); [|contradiction].
  destruct (contains ".pdf" (lower s')); [|contradiction].
  destruct (contains MARKER (lower s')) eqn:Hm; [contradiction|].
  destruct H as [<- | []]. exists s'. repeat split; [|exact E|exact Hm].
  apply in_flat_map. exists tag. split; [exact Ha|]. rewrite Hs. now left.
Qed.

(** What the resolver returns once the page is loaded, in terms of the
    candidates of the three stages. *)
Lemma get_pdf_from_circular_page_loaded (circular_url : string) (pg : page) :
  driver_available w = true ->
  render w circular_url = Ok pg ->
  let scanned := (filter (validates w) (anchor_candidates w circular_url (page_source pg))
                  ++ filter (validates w) (embed_candidates w circular_url (page_source pg)))%list in
  let pdf_links :=
    if is_nil scanned
    then match find (validates w) (fallback_candidates circular_url) with
         | Some u => [u]
         | None => []
         end
    else scanned in
  fst (get_pdf_from_circular_page w circular_url)
  = (if anchor_scan_raises w circular_url (page_source pg)
        || embed_scan_raises w circular_url (page_source pg)
     then (None, None)
     else if is_nil pdf_links
     then match body_inner_html pg with
          | Ok page_content => (Some HTML_ONLY, Some page_content)
          | Raise => (None, None)
          end
     else match set_order w pdf_links with
          | first :: _ => (Some first, None)
          | [] => (None, None)
          end)
  /\ head_targets (snd (get_pdf_from_circular_page w circular_url))
     = (anchor_candidates w circular_url (page_source pg)
        ++ if anchor_scan_raises w circular_url (page_source pg) then []
           else embed_candidates w circular_url (page_source pg)
                ++ if embed_scan_raises w circular_url (page_source pg) then []
                   else if is_nil scanned
                        then through_first (validates w) (fallback_candidates circular_url)
                        else [])%list.
Proof.
  intros Hd Hr. unfold get_pdf_from_circular_page. rewrite Hd, Hr. cbn [negb].
  rewrite !scan_collect.
  fold (anchor_candidates w circular_url (page_source pg)).
  fold (embed_candidates w circular_url (page_source pg)).
  fold (anchor_scan_raises w circular_url (page_source pg)).
  fold (embed_scan_raises w circular_url (page_source pg)).
  pose proof (collect_valid_fst (anchor_candidates w circular_url (page_source pg))) as F1.
  pose proof (collect_valid_heads (anchor_candidates w circular_url (page_source pg))) as H1.
  pose proof (collect_valid_fst (embed_candidates w circular_url (page_source pg))) as F2.
  pose proof (collect_valid_heads (embed_candidates w circular_url (page_source pg))) as H2.
  destruct (collect_valid w (anchor_candidates _ _ _)) as [links1 e1].
  destruct (collect_valid w (embed_candidates _ _ _)) as [links2 e2].
  cbn [fst snd] in F1, H1, F2, H2 |- *. subst links1 links2.
  destruct (anchor_scan_raises w circular_url (page_source pg)).
  { cbn [orb fst snd]. split; [reflexivity|].
    destruct (parse_circular_id circular_url); heads; now rewrite H1. }
  destruct (embed_scan_raises w circular_url (page_source pg)).
  { cbn [orb fst snd]. split; [reflexivity|].
    destruct (parse_circular_id circular_url); heads; now rewrite H1, H2. }
  cbn [orb].
  unfold fallback_candidates.
  set (scanned := (filter _ _ ++ filter _ _)%list).
  destruct (parse_circular_id circular_url) as [cid|].
  - destruct (truthy cid).
    + destruct (is_nil scanned) eqn:Hn.
      * destruct scanned; [|discriminate Hn]. cbn [andb app].
        pose proof (first_valid_fst (generate_pdf_from_circular_id cid)) as F3.
        pose proof (first_valid_heads (generate_pdf_from_circular_id cid)) as H3.
        destruct (first_valid w _) as [found e3]. cbn [fst snd] in F3, H3. subst found.
        destruct (find (validates w) _) as [u|]; cbn [is_nil].
        -- rewrite set_order_singleton. cbn [fst snd]. split; [reflexivity|].
           heads. now rewrite H1, H2, H3.
        -- destruct (body_inner_html pg); cbn [fst snd]; (split; [reflexivity|]);
             heads; now rewrite H1, H2, H3.
      * cbn [andb]. rewrite !Hn.
        destruct (set_order w scanned); cbn [fst snd]; (split; [reflexivity|]);
          heads; now rewrite H1, H2.
    + cbn [andb through_first find].
      destruct (is_nil scanned) eqn:Hn; cbn [is_nil].
      * destruct (body_inner_html pg); cbn [fst snd]; (split; [reflexivity|]);
          heads; now rewrite H1, H2.
      * rewrite ?Hn.
        destruct (set_order w scanned); cbn [fst snd]; (split; [reflexivity|]);
          heads; now rewrite H1, H2.
  - cbn [through_first find].
    destruct (is_nil scanned) eqn:Hn; cbn [is_nil].
    + destruct (body_inner_html pg); cbn [fst snd]; (split; [reflexivity|]);
        heads; now rewrite H1, H2.
    + rewrite ?Hn.
      destruct (set_order w scanned); cbn [fst snd]; (split; [reflexivity|]);
        heads; now rewrite H1, H2.
Qed.

End ResolverFacts.



(** C5 (amended). A hyperlink or embedded reference that carries the
    marker, in whatever letter case, never becomes a candidate, whatever
    its validation would answer: every candidate of the two scans comes
    from a reference without the marker.  The addresses derived from the
    identifier are not filtered: a returned address has validated and
    either comes from an unmarked reference or is one of the derived
    addresses. *)
Theorem resolver_marker_exclusion (w : World) (circular_url : string) :
  (forall soup u,
      In u (anchor_candidates w circular_url soup ++ embed_candidates w circular_url soup)%list ->
      exists reference,
        In reference (anchor_references soup ++ embed_references soup)%list
        /\ urljoin w circular_url reference = Ok u
        /\ marked reference = false)
  /\ (forall u,
        fst (get_pdf_from_circular_page w circular_url) = (Some u, None) ->
        validates w u = true
        /\ ((exists reference, urljoin w circular_url reference = Ok u
                               /\ marked reference = false)
            \/ In u (fallback_candidates circular_url))).
Proof.
  split.
  - intros soup u H. apply in_app_or in H as [H | H].
    + destruct (anchor_candidates_unmarked _ _ _ _ H) as [r [Hin [E Hm]]].
      exists r. repeat split; try assumption. apply in_or_app. now left.
    + destruct (embed_candidates_unmarked _ _ _ _ H) as [r [Hin [E Hm]]].
      exists r. repeat split; try assumption. apply in_or_app. now right.
  - intros u H.
    destruct (driver_available w) eqn:Hd;
      [|unfold get_pdf_from_circular_page in H; rewrite Hd in H; discriminate H].
    destruct (render w circular_url) as [pg|] eqn:Hr;
      [|unfold get_pdf_from_circular_page in H; rewrite Hd, Hr in H; discriminate H].
    destruct (get_pdf_from_circular_page_loaded w circular_url Hd Hr) as [Hres _].
    rewrite Hres in H. clear Hres.
    destruct (_ || _); [discriminate H|].
    set (scanned := (filter _ _ ++ filter _ _)%list) in H.
    set (pdf_links := if is_nil scanned then _ else scanned) in H.
    destruct (is_nil pdf_links); [destruct (body_inner_html pg); discriminate H|].
    destruct (set_order w pdf_links) as [|first rest] eqn:Ho; [discriminate H|].
    injection H as ->.
    assert (Hin : In u pdf_links) by (apply (set_order_In w); rewrite Ho; now left).
    subst pdf_links. destruct (is_nil scanned).
    + destruct (find (validates w) _) as [x|] eqn:Hf; [|contradiction].
      destruct Hin as [<- | []]. apply find_In_valid in Hf as [Hx Hv].
      split; [exact Hv | now right].
    + subst scanned. apply in_app_or in Hin as [Hin | Hin];
        apply filter_In in Hin as [Hin Hv]; (split; [exact Hv | left]).
      * destruct (anchor_candidates_unmarked _ _ _ _ Hin) as [r [_ [E Hm]]]. now exists r.
      * destruct (embed_candidates_unmarked _ _ _ _ Hin) as [r [_ [E Hm]]]. now exists r.
Qed.

Lemma resolver_marker_exclusion_witness :
  fst (get_pdf_from_circular_page Samples.linked_world Samples.detail_url)
  = (Some "https://rbidocs.rbi.org.in/rdocs/notification/PDFs/45.pdf", None)
  /\ validates Samples.linked_world
       "https://rbidocs.rbi.org.in/rdocs/notification/PDFs/45.pdf" = true.
Proof.
  split; [reflexivity|].
  exact (proj1 (proj2 (resolver_marker_exclusion Samples.linked_world Samples.detail_url)
                  "https://rbidocs.rbi.org.in/rdocs/notification/PDFs/45.pdf" eq_refl)).
Defined.

(** C5, as stated, fails for the addresses derived from the identifier:
    an address that contains the marker is returned once it validates. *)
Lemma resolver_marker_in_fallback :
  fst (get_pdf_from_circular_page Samples.marked_world Samples.marked_url)
  = (Some "https://rbidocs.rbi.org.in/rdocs/content/pdfs/utkarsh.pdf", None)
  /\ contains MARKER "https://rbidocs.rbi.org.in/rdocs/content/pdfs/utkarsh.pdf" = true.
Proof. split; reflexivity. Qed.

(* ================================================================== *)
(** * Fetcher *)

Lemma bytes_eqb_eq (a b : list byte) : bytes_eqb a b = true <-> a = b.
Proof.
  unfold bytes_eqb. destruct (list_eq_dec Byte.byte_eq_dec a b); split; congruence.
Qed.

(** A file starts with the signature exactly when its first four bytes
    are the signature. *)
Lemma read_header_magic (content : list byte) :
  read_header content = PDF_MAGIC <-> exists rest, content = (PDF_MAGIC ++ rest)%list.
Proof.
  unfold read_header, PDF_MAGIC. split.
  - intros H.
    destruct content as [|b0 [|b1 [|b2 [|b3 rest]]]]; try discriminate H.
    injection H as -> -> -> ->. now exists rest.
  - intros [rest ->]. reflexivity.
Qed.

(** C9. When the download completes (the request is answered without
    an error status, the announced length is a number, the file is
    written with every chunk and can be read again), the fetcher
    returns the local path whatever the file begins with.  When the
    bytes received begin with [%PDF] nothing above the level INFO is
    logged; otherwise, whatever they are, the only such record is the
    signature warning. *)
Theorem download_pdf_signature (w : World) (pdf_url : string) (r : response) :
  http_get w pdf_url = Ok r ->
  (status_code r < 400 \/ 600 <= status_code r)%Z ->
  local_file w (download_path w pdf_url) = FileWritten ->
  content_length_ok r = true ->
  stream_breaks r = false ->
  read_back w (download_path w pdf_url) = true ->
  fst (download_pdf w pdf_url) = Some (download_path w pdf_url)
  /\ ((exists rest, List.concat (chunks r) = x25 :: x50 :: x44 :: x46 :: rest) ->
      existsb is_alarm (snd (download_pdf w pdf_url)) = false)
  /\ ((forall rest, List.concat (chunks r) <> x25 :: x50 :: x44 :: x46 :: rest) ->
      filter is_alarm (snd (download_pdf w pdf_url))
      = [Log WARNING "Downloaded file doesn't appear to be a valid PDF"]).
Proof.
  intros Hg Hs Hf Hc Hb Hrb. unfold download_pdf. rewrite Hg.
  replace (raises_for_status r) with false
    by (unfold raises_for_status; symmetry; apply andb_false_iff;
        destruct Hs; [left; apply Z.leb_gt | right; apply Z.ltb_ge]; lia).
  rewrite Hf, Hc, Hb, Hrb. cbn [negb cannot_create write_fails orb andb].
  pose proof (read_header_magic (file_bytes r)) as Hmagic.
  unfold file_bytes, PDF_MAGIC in Hmagic. cbn [app] in Hmagic.
  destruct (bytes_eqb (read_header (file_bytes r)) PDF_MAGIC) eqn:Hm; cbn [fst snd].
  - split; [reflexivity|]. split; [reflexivity|].
    intros Hne. apply bytes_eqb_eq in Hm. apply Hmagic in Hm as [rest Hm].
    destruct (Hne rest Hm).
  - split; [reflexivity|]. split; [|reflexivity].
    intros Hpdf. apply Hmagic in Hpdf. apply bytes_eqb_eq in Hpdf.
    unfold file_bytes, PDF_MAGIC in Hm. congruence.
Qed.

Lemma download_pdf_signature_witness :
  (fst (download_pdf Samples.pdf_everywhere
          "https://rbidocs.rbi.org.in/rdocs/content/pdfs/9999.pdf")
   = Some "/srv/rbi/downloads/9999_20250101_093000.pdf"
   /\ existsb is_alarm
        (snd (download_pdf Samples.pdf_everywhere
                "https://rbidocs.rbi.org.in/rdocs/content/pdfs/9999.pdf")) = false)
  /\ (fst (download_pdf Samples.html_download
             "https://rbidocs.rbi.org.in/rdocs/content/pdfs/9999.pdf")
      = Some "/srv/rbi/downloads/9999_20250101_093000.pdf"
      /\ filter is_alarm
           (snd (download_pdf Samples.html_download
                   "https://rbidocs.rbi.org.in/rdocs/content/pdfs/9999.pdf"))
         = [Log WARNING "Downloaded file doesn't appear to be a valid PDF"]).
Proof.
  split.
  - destruct (@download_pdf_signature Samples.pdf_everywhere
                "https://rbidocs.rbi.org.in/rdocs/content/pdfs/9999.pdf"
                Samples.pdf_response eq_refl (or_introl eq_refl)
                eq_refl eq_refl eq_refl eq_refl) as (Hpath & Hsilent & _).
    split; [exact Hpath|].
    apply Hsilent. exists [x2d; x31; x2e; x34]. reflexivity.
  - destruct (@download_pdf_signature Samples.html_download
                "https://rbidocs.rbi.org.in/rdocs/content/pdfs/9999.pdf"
                Samples.html_response eq_refl (or_introl eq_refl)
                eq_refl eq_refl eq_refl eq_refl) as (Hpath & _ & Hwarn).
    split; [exact Hpath|].
    apply Hwarn. intros rest H. discriminate H.
Defined.

(* ================================================================== *)
(** * Local artifact names *)

Section NameFacts.

Lemma length_append' (a b : string) :
  String.length (a ++ b) = String.length a + String.length b.
Proof. induction a as [|c a IH]; simpl; [reflexivity | now rewrite IH]. Qed.

Lemma append_inv_head (a b c : string) : a ++ b = a ++ c -> b = c.
Proof.
  induction a as [|x a IH]; simpl; [trivial|].
  intros H. injection H as H. now apply IH.
Qed.

Lemma append_inv_length (a b c d : string) :
  String.length a = String.length c -> a ++ b = c ++ d -> a = c /\ b = d.
Proof.
  revert c. induction a as [|x a IH]; intros [|y c] Hl H; try discriminate Hl.
  - now split.
  - simpl in H. injection H as -> H. injection Hl as Hl.
    destruct (IH c Hl H) as [-> ->]. now split.
Qed.

(** Two names with the same prefix and extension and timestamps of the
    same width agree only if the sanitized numbers and the timestamps
    agree. *)
Lemma artifact_filename_inj (prefix ext s1 t1 s2 t2 : string) :
  String.length t1 = String.length t2 ->
  artifact_filename prefix s1 t1 ext = artifact_filename prefix s2 t2 ext ->
  s1 = s2 /\ t1 = t2.
Proof.
  unfold artifact_filename. intros Hl H.
  apply append_inv_head in H. apply append_inv_head in H.
  assert (Hs : String.length s1 = String.length s2).
  { apply (f_equal String.length) in H.
    rewrite !length_append' in H. simpl in H. lia. }
  apply (append_inv_length _ _ _ _ Hs) in H as [-> H].
  apply append_inv_head in H.
  apply (append_inv_length _ _ _ _ Hl) in H as [-> _]. now split.
Qed.

Lemma ascii_kept_is_safe (c : ascii) :
  is_ascii c = true -> in_kept_class c = is_ascii_safe c.
Proof.
  destruct c as [[] [] [] [] [] [] [] []]; vm_compute; intros H; (discriminate H || reflexivity).
Qed.

Lemma sub_unsafe_char_kept (c : ascii) : in_kept_class (sub_unsafe_char c) = true.
Proof. unfold sub_unsafe_char. destruct (in_kept_class c) eqn:E; [exact E | reflexivity]. Qed.

Lemma sub_unsafe_char_ascii (c : ascii) :
  is_ascii c = true -> is_ascii_safe (sub_unsafe_char c) = true.
Proof.
  intros H. unfold sub_unsafe_char.
  destruct (in_kept_class c) eqn:E; [|reflexivity].
  now rewrite <- (ascii_kept_is_safe _ H).
Qed.

Lemma sub_unsafe_length (s : string) : String.length (sub_unsafe s) = String.length s.
Proof.
  induction s as [|c s IH]; [reflexivity|].
  cbn [sub_unsafe String.length]. now rewrite IH.
Qed.

Lemma sub_unsafe_get (s : string) (i : nat) :
  String.get i (sub_unsafe s) = option_map sub_unsafe_char (String.get i s).
Proof.
  revert i. induction s as [|c s IH]; intros i; [reflexivity|].
  destruct i as [|i]; cbn [sub_unsafe String.get option_map]; [reflexivity | apply IH].
Qed.

Lemma sub_unsafe_kept (s : string) : forallb_str in_kept_class (sub_unsafe s) = true.
Proof.
  induction s as [|c s IH]; [reflexivity|].
  cbn [sub_unsafe forallb_str]. now rewrite sub_unsafe_char_kept, IH.
Qed.

Lemma sub_unsafe_ascii (s : string) :
  forallb_str is_ascii s = true -> forallb_str is_ascii_safe (sub_unsafe s) = true.
Proof.
  induction s as [|c s IH]; [reflexivity|].
  cbn [sub_unsafe forallb_str]. intros H. apply andb_true_iff in H as [Hc Hs].
  now rewrite (@sub_unsafe_char_ascii c Hc), (IH Hs).
Qed.

End NameFacts.

(** C8 (amended). The sanitized name keeps every character of the
    circular number that is a word character of the regular-expression
    class [\w] (letters and digits of any script, and the underscore), a
    hyphen or a full stop, and puts an underscore in the place of every
    other character; for a circular number written in ASCII it therefore
    contains only characters of [[A-Za-z0-9_.-]].  The three artifact
    names are [<prefix>_<sanitized number>_<timestamp><ext>], and such a
    name determines the sanitized number and the timestamp. *)
Theorem safe_name_characters (w : World) (c : circular) :
  String.length (safe_name c) = String.length (circular_number c)
  /\ (forall i, String.get i (safe_name c)
                = option_map (fun ch => if in_kept_class ch then ch else "_"%char)
                             (String.get i (circular_number c)))
  /\ forallb_str in_kept_class (safe_name c) = true
  /\ (forallb_str is_ascii (circular_number c) = true ->
      forallb_str is_ascii_safe (safe_name c) = true)
  /\ synthesized_pdf_path w c
     = "downloads/RBI_Circular_" ++ safe_name c ++ "_" ++ now w ++ ".pdf"
  /\ synthesized_html_path w c
     = "downloads/RBI_Circular_" ++ safe_name c ++ "_" ++ now w ++ ".html"
  /\ checklist_path w c
     = path_join (path_join (script_dir w) "downloads")
                 ("RBI_Checklist_" ++ safe_name c ++ "_" ++ now w ++ ".txt")
  /\ (forall prefix ext (c' : circular) (t t' : string),
        String.length t = String.length t' ->
        artifact_filename prefix (safe_name c) t ext
        = artifact_filename prefix (safe_name c') t' ext ->
        safe_name c = safe_name c' /\ t = t').
Proof.
  unfold safe_name.
  split; [apply sub_unsafe_length|].
  split; [intros i; apply sub_unsafe_get|].
  split; [apply sub_unsafe_kept|].
  split; [apply sub_unsafe_ascii|].
  split; [reflexivity|]. split; [reflexivity|]. split; [reflexivity|].
  intros prefix ext c' t t'. apply artifact_filename_inj.
Qed.

Lemma safe_name_characters_witness :
  safe_name (Samples.circular_numbered "DOR.CO.45/2024-25") = "DOR.CO.45_2024-25"
  /\ forallb_str is_ascii_safe
       (safe_name (Samples.circular_numbered "DOR.CO.45/2024-25")) = true.
Proof.
  split; [reflexivity|].
  apply (proj1 (proj2 (proj2 (proj2
    (safe_name_characters Samples.base_world
       (Samples.circular_numbered "DOR.CO.45/2024-25")))))).
  reflexivity.
Defined.

(** C8, as stated, fails: a letter outside ASCII is a word character and
    is kept; and two circular numbers can share a sanitized name. *)
Lemma safe_name_keeps_accented :
  safe_name (Samples.circular_numbered Samples.accented_number) = Samples.accented_number
  /\ forallb_str is_ascii_safe
       (safe_name (Samples.circular_numbered Samples.accented_number)) = false
  /\ safe_name (Samples.circular_numbered "DOR/45")
     = safe_name (Samples.circular_numbered "DOR_45").
Proof. repeat split. Qed.

(* ================================================================== *)
(** * State store *)

(** C10 (amended). Without a state file the store returns nothing.
    After a successful write of [id] the store returns [id] with every
    carriage return read as a line feed and the surrounding whitespace
    stripped: for an [id] without carriage return that is [id] stripped,
    and [id] itself when it has no surrounding whitespace either; an
    [id] with surrounding whitespace never comes back unchanged. *)
Theorem state_store_round_trip (w : World) (id : string) (fs fs' : state_file) :
  get_last_circular_id None = None
  /\ (fst (set_last_circular_id w id fs) = (Ok tt, fs') ->
      get_last_circular_id fs' = Some (strip (universal_newlines id))
      /\ (has_cr id = false -> get_last_circular_id fs' = Some (strip id))
      /\ (has_cr id = false -> no_surrounding_space id = true ->
          get_last_circular_id fs' = Some id)
      /\ (no_surrounding_space id = false -> get_last_circular_id fs' <> Some id)).
Proof.
  split; [reflexivity|].
  unfold set_last_circular_id. destruct (state_write w); try discriminate.
  cbn [fst]. intros E. injection E as <-. cbn [get_last_circular_id].
  split; [reflexivity|]. split; [|split].
  - intros Hcr. now rewrite universal_newlines_fixed.
  - intros Hcr Hclean. now rewrite universal_newlines_fixed, strip_fixed.
  - intros Hdirty E. injection E as E.
    pose proof (strip_clean (universal_newlines id)) as Hc.
    rewrite E in Hc. congruence.
Qed.

Lemma state_store_round_trip_witness :
  get_last_circular_id (Some "DOR.2025.01") = Some "DOR.2025.01"
  /\ get_last_circular_id (Some " DOR.2025.01 ") <> Some " DOR.2025.01 ".
Proof.
  split.
  - apply (proj1 (proj2 (proj2
      (proj2 (state_store_round_trip Samples.base_world "DOR.2025.01" None
                (Some "DOR.2025.01")) eq_refl))));
      reflexivity.
  - apply (proj2 (proj2 (proj2
      (proj2 (state_store_round_trip Samples.base_world " DOR.2025.01 " None
                (Some " DOR.2025.01 ")) eq_refl)))).
    reflexivity.
Defined.

(** C10, as stated, fails: an identifier with a carriage return inside
    has no surrounding whitespace, and what is read back after writing
    it is neither the identifier nor the identifier stripped. *)
Lemma state_store_carriage_return :
  no_surrounding_space Samples.cr_id = true
  /\ fst (set_last_circular_id Samples.base_world Samples.cr_id None)
     = (Ok tt, Some Samples.cr_id)
  /\ get_last_circular_id (Some Samples.cr_id) = Some (String "a" (String LF (String "b" "")))
  /\ get_last_circular_id (Some Samples.cr_id) <> Some Samples.cr_id
  /\ get_last_circular_id (Some Samples.cr_id) <> Some (strip Samples.cr_id).
Proof.
  split; [reflexivity|]. split; [reflexivity|]. split; [reflexivity|].
  split; vm_compute; discriminate.
Qed.

(* ================================================================== *)
(** * Run orchestrator *)

Section RunFacts.

Variable w : World.

Lemma latest_quiet (e : event) :
  In e (snd (get_latest_circular_info w)) -> is_processing e = false.
Proof.
  unfold get_latest_circular_info.
  destruct (driver_available w); [|contradiction]. cbn [negb].
  destruct (render w BASE_PAGE) as [pg|];
    [destruct (parse_circulars_table (page_source pg)) as [|latest rest];
     [|destruct (urljoin w RBI_BASE (href latest))]|];
    cbn [snd app In]; intros H;
    repeat (destruct H as [<- | H]; [reflexivity|]); contradiction.
Qed.

End RunFacts.

Lemma parsed_number_clean (soup : node) (c : circular) :
  In c (parse_circulars_table soup) -> no_surrounding_space (circular_number c) = true.
Proof.
  rewrite parse_circulars_table_visited. intros H.
  apply in_map_iff in H as [row [<- _]]. apply get_text_strip_clean.
Qed.

Lemma latest_number_clean (w : World) (c : circular) :
  fst (get_latest_circular_info w) = Some c ->
  no_surrounding_space (circular_number c) = true.
Proof.
  unfold get_latest_circular_info.
  destruct (driver_available w); [|discriminate]. cbn [negb].
  destruct (render w BASE_PAGE) as [pg|]; [|discriminate].
  destruct (parse_circulars_table (page_source pg)) as [|latest rest] eqn:Hp; [discriminate|].
  destruct (urljoin w RBI_BASE (href latest)); [|discriminate].
  cbn [fst]. intros E. injection E as <-. cbn [circular_number].
  apply (parsed_number_clean (page_source pg) latest).
  rewrite Hp. now left.
Qed.

Lemma same_id_refl (id : string) : same_id id (Some id) = true.
Proof. apply String.eqb_refl. Qed.

Lemma main_unchanged_quiet (w : World) (fs : state_file) (c : circular) :
  fst (get_latest_circular_info w) = Some c ->
  get_last_circular_id fs = Some (circular_number c) ->
  fst (main w fs) = fs
  /\ forall e, In e (snd (main w fs)) -> is_processing e = false.
Proof.
  intros Hl Hs. unfold main. pose proof (latest_quiet w) as Hq.
  destruct (get_latest_circular_info w) as [latest e1]. cbn [fst snd] in Hl, Hq.
  subst latest. rewrite Hs, same_id_refl. cbn [fst snd].
  split; [reflexivity|].
  intros e He. cbn [app In] in He.
  destruct He as [<- | [<- | He]]; try reflexivity.
  apply in_app_or in He as [He | [<- | []]]; [now apply Hq | reflexivity].
Qed.

(* ================================================================== *)
(** * What each step does and does not do *)

(** A reading [f] of a trace that ignores log records: what it finds in
    the trace of each step before publication. *)
Section TraceProjection.

Variable w : World.
Variable A : Type.
Variable f : event -> list A.
Hypothesis f_log : forall lvl msg, f (Log lvl msg) = [].

Lemma project_app (a b : list event) :
  flat_map f (a ++ b) = (flat_map f a ++ flat_map f b)%list.
Proof. apply flat_map_app. Qed.

Lemma project_cons (e : event) (l : list event) :
  flat_map f (e :: l) = (f e ++ flat_map f l)%list.
Proof. reflexivity. Qed.

Lemma project_nil : flat_map f [] = [].
Proof. reflexivity. Qed.

Ltac project :=
  cbn [fst snd];
  repeat first [ rewrite project_app
               | rewrite project_cons
               | rewrite project_nil
               | rewrite f_log
               | rewrite app_nil_r
               | rewrite app_nil_l ].

Lemma project_check (u : string) :
  flat_map f (snd (check_pdf_url_exists w u)) = f (HeadRequest u).
Proof.
  unfold check_pdf_url_exists.
  destruct (http_head w u) as [r|]; [destruct (is_valid_pdf_response r)|];
    project; reflexivity.
Qed.

Lemma project_collect_valid (l : list string) :
  flat_map f (snd (collect_valid w l)) = flat_map (fun u => f (HeadRequest u)) l.
Proof.
  induction l as [|u l IH]; [reflexivity|].
  cbn [collect_valid flat_map]. pose proof (project_check u) as Hu.
  destruct (check_pdf_url_exists w u) as [ok e1].
  destruct (collect_valid w l) as [found e2].
  cbn [snd] in *. now rewrite project_app, Hu, IH.
Qed.

Lemma project_first_valid (l : list string) :
  flat_map f (snd (first_valid w l))
  = flat_map (fun u => f (HeadRequest u)) (through_first (validates w) l).
Proof.
  induction l as [|u l IH]; [reflexivity|].
  cbn [first_valid through_first]. unfold validates at 1.
  pose proof (project_check u) as Hu.
  destruct (check_pdf_url_exists w u) as [ok e1]. cbn [fst snd] in *.
  destruct ok; [cbn [flat_map]; now rewrite app_nil_r|].
  destruct (first_valid w l) as [found e2]. cbn [snd flat_map] in *.
  now rewrite project_app, Hu, IH.
Qed.

Lemma project_latest :
  flat_map f (snd (get_latest_circular_info w))
  = if driver_available w then f (PageLoad BASE_PAGE) else [].
Proof.
  unfold get_latest_circular_info.
  destruct (driver_available w); [|reflexivity]. cbn [negb].
  destruct (render w BASE_PAGE) as [pg|];
    [destruct (parse_circulars_table (page_source pg)) as [|latest rest];
     [|destruct (urljoin w RBI_BASE (href latest))]|]; project; reflexivity.
Qed.

Lemma project_resolver (circular_url : string) :
  flat_map f (snd (get_pdf_from_circular_page w circular_url))
  = if driver_available w
    then (f (PageLoad circular_url)
          ++ flat_map (fun u => f (HeadRequest u))
                      (head_targets (snd (get_pdf_from_circular_page w circular_url))))%list
    else [].
Proof.
  destruct (driver_available w) eqn:Hd;
    [|unfold get_pdf_from_circular_page; now rewrite Hd].
  destruct (render w circular_url) as [pg|] eqn:Hr.
  - rewrite (proj2 (get_pdf_from_circular_page_loaded w circular_url Hd Hr)).
    unfold get_pdf_from_circular_page. rewrite Hd, Hr. cbn [negb].
    rewrite !scan_collect.
    fold (anchor_candidates w circular_url (page_source pg)).
    fold (embed_candidates w circular_url (page_source pg)).
    fold (anchor_scan_raises w circular_url (page_source pg)).
    fold (embed_scan_raises w circular_url (page_source pg)).
    pose proof (collect_valid_fst w (anchor_candidates w circular_url (page_source pg))) as F1.
    pose proof (project_collect_valid (anchor_candidates w circular_url (page_source pg))) as H1.
    pose proof (collect_valid_fst w (embed_candidates w circular_url (page_source pg))) as F2.
    pose proof (project_collect_valid (embed_candidates w circular_url (page_source pg))) as H2.
    destruct (collect_valid w (anchor_candidates _ _ _)) as [links1 e1].
    destruct (collect_valid w (embed_candidates _ _ _)) as [links2 e2].
    cbn [fst snd] in F1, H1, F2, H2 |- *. subst links1 links2.
    destruct (anchor_scan_raises w circular_url (page_source pg)).
    { destruct (parse_circular_id circular_url); project; now rewrite H1. }
    destruct (embed_scan_raises w circular_url (page_source pg)).
    { rewrite !flat_map_app.
      destruct (parse_circular_id circular_url); project; now rewrite H1, H2. }
    unfold fallback_candidates.
    set (scanned := (filter _ _ ++ filter _ _)%list).
    assert (H3 : forall cid, flat_map f (snd (first_valid w (generate_pdf_from_circular_id cid)))
                 = flat_map (fun u => f (HeadRequest u))
                            (through_first (validates w) (generate_pdf_from_circular_id cid)))
      by (intros; apply project_first_valid).
    rewrite !flat_map_app.
    destruct (parse_circular_id circular_url) as [cid|].
    + destruct (truthy cid).
      * destruct (is_nil scanned) eqn:Hn; cbn [andb].
        -- specialize (H3 cid). destruct (first_valid w _) as [found e3]. cbn [snd] in H3.
           destruct (is_nil (scanned ++ found));
             [destruct (body_inner_html pg)|destruct (set_order w (scanned ++ found))];
             project; now rewrite H1, H2, H3.
        -- rewrite ?Hn. destruct (set_order w _); project; now rewrite H1, H2.
      * cbn [andb]. destruct (is_nil scanned) eqn:Hn; rewrite ?Hn;
          [destruct (body_inner_html pg)|destruct (set_order w _)];
          project; now rewrite H1, H2.
    + destruct (is_nil scanned) eqn:Hn; rewrite ?Hn;
        [destruct (body_inner_html pg)|destruct (set_order w _)];
        project; now rewrite H1, H2.
  - unfold get_pdf_from_circular_page. rewrite Hd, Hr. cbn [negb]. project. reflexivity.
Qed.

Lemma project_download (u : string) :
  flat_map f (snd (download_pdf w u))
  = (f (GetRequest u)
     ++ if download_streams w u then f (FileWrite (download_path w u)) else [])%list.
Proof.
  unfold download_pdf, download_streams.
  destruct (http_get w u) as [r|]; [|project; reflexivity].
  destruct (raises_for_status r); [project; reflexivity|].
  destruct (cannot_create _); cbn [negb andb orb]; [project; reflexivity|].
  destruct (content_length_ok r); cbn [negb andb]; [|project; reflexivity].
  destruct (_ && _); [project; reflexivity|].
  destruct (stream_breaks r); [project; reflexivity|].
  destruct (read_back w _); cbn [negb]; [|project; reflexivity].
  destruct (bytes_eqb _ _); unfold SIGNATURE_WARNING; project; reflexivity.
Qed.

Lemma project_extract (p : string) : flat_map f (snd (extract_pdf_text w p)) = [].
Proof. unfold extract_pdf_text. destruct (pdf_pages w p); project; reflexivity. Qed.

Lemma project_synthesize (c : circular) (html : option string) :
  flat_map f (snd (create_pdf_from_html_content w c html))
  = flat_map f (map FileWrite (files_written (snd (create_pdf_from_html_content w c html)))).
Proof.
  unfold create_pdf_from_html_content.
  destruct (weasyprint w); [| |project; reflexivity].
  - project. cbn [files_written flat_map map app]. project. reflexivity.
  - destruct (local_file w _); destruct html; project;
      cbn [files_written flat_map map app]; project; reflexivity.
Qed.

End TraceProjection.

Lemma project_none_forallb (q : event -> bool) (l : list event) :
  flat_map (fun e => if q e then [] else [e]) l = [] -> forallb q l = true.
Proof.
  induction l as [|e l IH]; [reflexivity|].
  cbn [flat_map forallb]. destruct (q e); [exact IH | discriminate].
Qed.

Lemma filter_nil_iff {A : Type} (p : A -> bool) (l : list A) :
  filter p l = [] <-> forall x, In x l -> p x = false.
Proof.
  induction l as [|a l IH]; cbn [filter].
  - split; [intros _ x [] | reflexivity].
  - destruct (p a) eqn:Ha.
    + split; [discriminate|]. intros H. rewrite (H a (or_introl eq_refl)) in Ha. discriminate.
    + rewrite IH. split.
      * intros H x [<- | Hx]; [exact Ha | now apply H].
      * intros H x Hx. apply H. now right.
Qed.

Lemma app_nil_both {A : Type} (a b : list A) : is_nil (a ++ b) = true -> a = [] /\ b = [].
Proof. destruct a; [destruct b|]; [now split | discriminate | discriminate]. Qed.

(** X1. The result of the resolver is one of three.  It is nothing when
    the browser or the page load fails, when [urljoin] raises on a
    reference that a scan keeps, and when no candidate validates and
    the body markup cannot be read.  It is the HTML-only marker with
    the body markup when the scans run to their end and no candidate
    of any stage validates.  Otherwise it is one address, which has
    validated. *)
Theorem resolver_result_shape (w : World) (circular_url : string) :
  ((fst (get_pdf_from_circular_page w circular_url) = (None, None)
    /\ (driver_available w = false
        \/ render w circular_url = Raise
        \/ exists pg,
             render w circular_url = Ok pg
             /\ (anchor_scan_raises w circular_url (page_source pg) = true
                 \/ embed_scan_raises w circular_url (page_source pg) = true
                 \/ (body_inner_html pg = Raise
                     /\ forall u,
                          In u (anchor_candidates w circular_url (page_source pg)
                                ++ embed_candidates w circular_url (page_source pg)
                                ++ fallback_candidates circular_url)%list ->
                          validates w u = false))))
   \/ (exists pg page_content,
         driver_available w = true
         /\ render w circular_url = Ok pg
         /\ anchor_scan_raises w circular_url (page_source pg) = false
         /\ embed_scan_raises w circular_url (page_source pg) = false
         /\ body_inner_html pg = Ok page_content
         /\ fst (get_pdf_from_circular_page w circular_url)
            = (Some HTML_ONLY, Some page_content)
         /\ forall u,
              In u (anchor_candidates w circular_url (page_source pg)
                    ++ embed_candidates w circular_url (page_source pg)
                    ++ fallback_candidates circular_url)%list ->
              validates w u = false)
   \/ (exists pg u,
         driver_available w = true
         /\ render w circular_url = Ok pg
         /\ anchor_scan_raises w circular_url (page_source pg) = false
         /\ embed_scan_raises w circular_url (page_source pg) = false
         /\ fst (get_pdf_from_circular_page w circular_url) = (Some u, None)
         /\ In u (anchor_candidates w circular_url (page_source pg)
                  ++ embed_candidates w circular_url (page_source pg)
                  ++ fallback_candidates circular_url)%list
         /\ validates w u = true))
  /\ (driver_available w = false \/ render w circular_url = Raise ->
      get_pdf_from_circular_page w circular_url
      = ((None, None),
         if driver_available w
         then [Log INFO "Loading circular page: {circular_url}"; PageLoad circular_url;
               Log ERROR "Error loading circular page: {e}"]
         else []))
  /\ (forall pg,
        driver_available w = true ->
        render w circular_url = Ok pg ->
        anchor_scan_raises w circular_url (page_source pg) = true
        \/ embed_scan_raises w circular_url (page_source pg) = true ->
        fst (get_pdf_from_circular_page w circular_url) = (None, None)
        /\ In (Log ERROR "Error loading circular page: {e}")
              (snd (get_pdf_from_circular_page w circular_url))).
Proof.
  split; [|split].
  - destruct (driver_available w) eqn:Hd;
      [|left; unfold get_pdf_from_circular_page; rewrite Hd; split; [reflexivity | now left]].
    destruct (render w circular_url) as [pg|] eqn:Hr;
      [|left; unfold get_pdf_from_circular_page; rewrite Hd, Hr;
        split; [reflexivity | right; now left]].
    destruct (get_pdf_from_circular_page_loaded w circular_url Hd Hr) as [Hres _].
    rewrite Hres. clear Hres.
    destruct (anchor_scan_raises w circular_url (page_source pg)) eqn:Hja.
    { left. split; [reflexivity|]. right. right. exists pg. split; [reflexivity | now left]. }
    destruct (embed_scan_raises w circular_url (page_source pg)) eqn:Hje.
    { left. split; [reflexivity|]. right. right. exists pg.
      split; [reflexivity | right; now left]. }
    cbn [orb].
    set (scanned := (filter _ _ ++ filter _ _)%list).
    destruct (is_nil scanned) eqn:Hn.
    + destruct (find (validates w) (fallback_candidates circular_url)) as [x|] eqn:Hf;
        cbn [is_nil].
      * right. right. exists pg, x. rewrite set_order_singleton.
        apply find_some in Hf as [Hin Hv].
        repeat split; try reflexivity; try assumption.
        apply in_or_app. right. apply in_or_app. now right.
      * assert (Hnone : forall u,
                   In u (anchor_candidates w circular_url (page_source pg)
                         ++ embed_candidates w circular_url (page_source pg)
                         ++ fallback_candidates circular_url)%list ->
                   validates w u = false).
        { intros u Hu. apply app_nil_both in Hn as [Ha He].
          apply in_app_or in Hu as [Hu | Hu]; [|apply in_app_or in Hu as [Hu | Hu]].
          - now apply (proj1 (filter_nil_iff _ _) Ha).
          - now apply (proj1 (filter_nil_iff _ _) He).
          - now apply (find_none _ _ Hf). }
        destruct (body_inner_html pg) as [page_content|] eqn:Hb.
        -- right. left. exists pg, page_content.
           repeat split; try reflexivity; assumption.
        -- left. split; [reflexivity|]. right. right. exists pg.
           split; [reflexivity|]. right. right. now split.
    + rewrite Hn. right. right.
      destruct (set_order w scanned) as [|first rest] eqn:Ho.
      * exfalso. destruct scanned as [|x l]; [discriminate Hn|].
        assert (Hin : In x (set_order w (x :: l))) by (apply set_order_In; now left).
        rewrite Ho in Hin. destruct Hin.
      * exists pg, first.
        assert (Hin : In first scanned) by (apply (set_order_In w); rewrite Ho; now left).
        subst scanned.
        repeat split; try reflexivity; try assumption.
        -- apply in_app_or in Hin as [Hin | Hin]; apply filter_In in Hin as [Hin _];
             apply in_or_app; [now left | right; apply in_or_app; now left].
        -- apply in_app_or in Hin as [Hin | Hin]; now apply filter_In in Hin.
  - unfold get_pdf_from_circular_page.
    destruct (driver_available w); [|reflexivity]. cbn [negb].
    intros [H | H]; [discriminate H|]. now rewrite H.
  - intros pg Hd Hr Hraise.
    assert (E : anchor_scan_raises w circular_url (page_source pg)
                || embed_scan_raises w circular_url (page_source pg) = true)
      by (apply orb_true_iff; exact Hraise).
    split.
    + rewrite (proj1 (get_pdf_from_circular_page_loaded w circular_url Hd Hr)).
      now rewrite E.
    + unfold get_pdf_from_circular_page. rewrite Hd, Hr. cbn [negb].
      rewrite !scan_collect.
      fold (anchor_scan_raises w circular_url (page_source pg)).
      fold (embed_scan_raises w circular_url (page_source pg)).
      destruct (collect_valid w _) as [links1 e1].
      destruct (collect_valid w _) as [links2 e2].
      cbn [fst snd].
      destruct (anchor_scan_raises w circular_url (page_source pg)).
      * cbn [snd]. rewrite !in_app_iff. cbn [In]. tauto.
      * cbn [orb] in E. rewrite E. cbn [snd].
        rewrite !in_app_iff. cbn [In]. tauto.
Qed.

Lemma resolver_result_shape_witness :
  fst (get_pdf_from_circular_page Samples.broken_world Samples.detail_url) = (None, None)
  /\ head_targets (snd (get_pdf_from_circular_page Samples.broken_world Samples.detail_url))
     = ["https://rbidocs.rbi.org.in/rdocs/notification/PDFs/45.pdf"].
Proof.
  split; [|reflexivity].
  exact (proj1 (proj2 (proj2 (resolver_result_shape Samples.broken_world Samples.detail_url))
                  Samples.broken_detail eq_refl eq_refl (or_introl eq_refl))).
Defined.



(** X3. The resolver only reads the site: its trace holds log records, the
    load of the detail page and header-only requests.  It loads the
    detail address once when a browser is available and no other page,
    downloads nothing and writes no file. *)
Theorem resolver_effects (w : World) (circular_url : string) :
  forallb is_site_read (snd (get_pdf_from_circular_page w circular_url)) = true
  /\ page_loads (snd (get_pdf_from_circular_page w circular_url))
     = (if driver_available w then [circular_url] else [])
  /\ get_targets (snd (get_pdf_from_circular_page w circular_url)) = []
  /\ files_written (snd (get_pdf_from_circular_page w circular_url)) = [].
Proof.
  split; [|split; [|split]].
  - apply project_none_forallb.
    rewrite (project_resolver w (fun e => if is_site_read e then [] else [e]))
      by reflexivity.
    destruct (driver_available w); [|reflexivity]. cbn [is_site_read app].
    now induction (head_targets _).
  - unfold page_loads. rewrite project_resolver by reflexivity.
    destruct (driver_available w); [|reflexivity]. cbn [app].
    f_equal. now induction (head_targets _).
  - unfold get_targets. rewrite project_resolver by reflexivity.
    destruct (driver_available w); [|reflexivity]. cbn [app].
    now induction (head_targets _).
  - unfold files_written. rewrite project_resolver by reflexivity.
    destruct (driver_available w); [|reflexivity]. cbn [app].
    now induction (head_targets _).
Qed.

Section IntFacts.

Lemma int_lstrip_digits (s : string) :
  forallb_str is_digit s = true -> int_lstrip s = s.
Proof.
  destruct s as [|c s]; [reflexivity|]. cbn [forallb_str int_lstrip].
  intros H. apply andb_true_iff in H as [Hc _].
  replace (is_int_space c) with false; [reflexivity|].
  revert Hc. unfold is_digit, is_int_space, between, code.
  destruct c as [[] [] [] [] [] [] [] []]; vm_compute; intros H;
    (discriminate H || reflexivity).
Qed.

Lemma int_rstrip_digits (s : string) :
  forallb_str is_digit s = true -> int_rstrip s = s.
Proof.
  induction s as [|c s IH]; [reflexivity|]. cbn [forallb_str int_rstrip].
  intros H. apply andb_true_iff in H as [Hc Hs]. rewrite (IH Hs).
  destruct s; [|reflexivity].
  replace (is_int_space c) with false; [reflexivity|].
  revert Hc. unfold is_digit, is_int_space, between, code.
  destruct c as [[] [] [] [] [] [] [] []]; vm_compute; intros H;
    (discriminate H || reflexivity).
Qed.

Lemma digits_ok_digits (s : string) (b : bool) :
  forallb_str is_digit s = true -> truthy s = true -> digits_ok b s = true.
Proof.
  revert b. induction s as [|c s IH]; [discriminate|].
  cbn [forallb_str digits_ok]. intros b H _. apply andb_true_iff in H as [Hc Hs].
  rewrite Hc. destruct s; [reflexivity|]. now apply IH.
Qed.

Lemma count_digits_le (s : string) : count_digits s <= String.length s.
Proof.
  induction s as [|c s IH]; [apply Nat.le_refl|].
  cbn [count_digits String.length]. destruct (is_digit c); lia.
Qed.

Lemma int_accepts_digits (s : string) :
  forallb_str is_digit s = true -> truthy s = true ->
  String.length s <= 4300 ->
  int_accepts s = true.
Proof.
  intros Hd Ht Hl. unfold int_accepts.
  rewrite (int_lstrip_digits _ Hd), (int_rstrip_digits _ Hd).
  destruct s as [|c s]; [discriminate Ht|].
  assert (Hc : is_digit c = true).
  { cbn [forallb_str] in Hd. now apply andb_true_iff in Hd as [Hc _]. }
  replace (Nat.eqb (code c) 43 || Nat.eqb (code c) 45) with false.
  - rewrite (@digits_ok_digits (String c s) false Hd eq_refl). cbn [andb].
    apply Nat.leb_le. unfold INT_MAX_STR_DIGITS.
    pose proof (count_digits_le (String c s)). lia.
  - revert Hc. unfold is_digit, between, code.
    destruct c as [[] [] [] [] [] [] [] []]; vm_compute; intros H;
      (discriminate H || reflexivity).
Qed.


Lemma int_space_is_int_char (c : ascii) : is_int_space c = true -> int_char c = true.
Proof. unfold int_char. intros ->. now rewrite !orb_true_r. Qed.

Lemma int_lstrip_keeps (s : string) :
  existsb_str (fun c => negb (int_char c)) (int_lstrip s)
  = existsb_str (fun c => negb (int_char c)) s.
Proof.
  induction s as [|c s IH]; [reflexivity|]. cbn [int_lstrip].
  destruct (is_int_space c) eqn:Hc; [|reflexivity].
  cbn [existsb_str]. now rewrite (int_space_is_int_char _ Hc).
Qed.

Lemma int_rstrip_keeps (s : string) :
  existsb_str (fun c => negb (int_char c)) (int_rstrip s)
  = existsb_str (fun c => negb (int_char c)) s.
Proof.
  induction s as [|c s IH]; [reflexivity|]. cbn [int_rstrip existsb_str].
  rewrite <- IH. destruct (int_rstrip s) as [|d r]; [|reflexivity].
  destruct (is_int_space c) eqn:Hc; [|reflexivity].
  cbn [existsb_str]. now rewrite (int_space_is_int_char _ Hc).
Qed.

Lemma digits_ok_chars (s : string) (b : bool) :
  digits_ok b s = true -> existsb_str (fun c => negb (int_char c)) s = false.
Proof.
  revert b. induction s as [|c s IH]; [reflexivity|].
  cbn [digits_ok existsb_str]. intros b. unfold int_char at 1.
  destruct (is_digit c); cbn [orb negb]; [apply IH|].
  destruct (Nat.eqb (code c) 95); cbn [orb negb]; [|discriminate].
  intros H. apply andb_true_iff in H as [_ H]. now apply IH in H.
Qed.

Lemma int_accepts_chars (s : string) :
  existsb_str (fun c => negb (int_char c)) s = true -> int_accepts s = false.
Proof.
  intros H. unfold int_accepts.
  rewrite <- int_lstrip_keeps, <- int_rstrip_keeps in H.
  destruct (int_rstrip (int_lstrip s)) as [|c rest]; [reflexivity|].
  apply andb_false_iff. left. apply not_true_is_false. intros Hok.
  apply digits_ok_chars in Hok.
  destruct (Nat.eqb (code c) 43 || Nat.eqb (code c) 45) eqn:Hsign.
  - assert (Hc : int_char c = true).
    { unfold int_char. apply orb_true_iff in Hsign as [E | E]; rewrite E;
        now rewrite ?orb_true_r. }
    cbn [existsb_str] in H. rewrite Hc in H. cbn [negb orb] in H. congruence.
  - congruence.
Qed.

End IntFacts.

Lemma content_length_of (r : response) (name v : string) :
  headers r = [(name, v)] -> lower name = "content-length" ->
  content_length_ok r = int_accepts v.
Proof.
  intros Hh Hn. unfold content_length_ok. rewrite Hh.
  cbn [has_header existsb header_get fst]. rewrite Hn. reflexivity.
Qed.

Lemma status_accepted (r : response) :
  raises_for_status r = false <-> (status_code r < 400 \/ 600 <= status_code r)%Z.
Proof.
  unfold raises_for_status. rewrite andb_false_iff, Z.leb_gt, Z.ltb_ge. lia.
Qed.

Lemma writes_a_chunk_spec (r : response) :
  writes_a_chunk r = false <-> forall chunk, In chunk (chunks r) -> chunk = [].
Proof.
  unfold writes_a_chunk. induction (chunks r) as [|ch l IH]; cbn [existsb].
  - split; [intros _ x [] | reflexivity].
  - rewrite orb_false_iff, IH. split.
    + intros [Hc Hl] x [<- | Hx]; [now destruct ch | now apply Hl].
    + intros H. split; [now rewrite (H ch (or_introl eq_refl)) | intros x Hx; apply H; now right].
Qed.

(** X4. The fetcher returns the derived path or nothing.  It returns the
    path exactly when the request is answered with a status outside
    400 to 599, the directory and the file can be created, the
    announced length is one that [int] accepts, no write fails, the
    transfer does not break and the file can be read again.  It makes
    one GET request.  The local file is created once the status, the
    directory and the announced length are accepted, so a transfer
    that breaks leaves a partial file behind although nothing is
    returned.  An announced length is accepted when the header is
    absent or holds up to 4300 digits; it is refused when it is empty
    or holds a character that is no digit, underscore, sign or
    whitespace of [int], such as a letter or U+001C. *)
Theorem download_pdf_outcomes (w : World) (pdf_url : string) :
  (fst (download_pdf w pdf_url) = Some (download_path w pdf_url) <->
     exists r,
       http_get w pdf_url = Ok r
       /\ (status_code r < 400 \/ 600 <= status_code r)%Z
       /\ local_file w (download_path w pdf_url) <> CannotCreate
       /\ content_length_ok r = true
       /\ (local_file w (download_path w pdf_url) = WriteFails ->
           forall chunk, In chunk (chunks r) -> chunk = [])
       /\ stream_breaks r = false
       /\ read_back w (download_path w pdf_url) = true)
  /\ (fst (download_pdf w pdf_url) <> Some (download_path w pdf_url) ->
      fst (download_pdf w pdf_url) = None)
  /\ get_targets (snd (download_pdf w pdf_url)) = [pdf_url]
  /\ (files_written (snd (download_pdf w pdf_url)) = [download_path w pdf_url] <->
        exists r,
          http_get w pdf_url = Ok r
          /\ (status_code r < 400 \/ 600 <= status_code r)%Z
          /\ local_file w (download_path w pdf_url) <> CannotCreate
          /\ content_length_ok r = true)
  /\ (files_written (snd (download_pdf w pdf_url)) <> [download_path w pdf_url] ->
      files_written (snd (download_pdf w pdf_url)) = [])
  /\ (forall r, has_header "content-length" (headers r) = false ->
                content_length_ok r = true)
  /\ (forall r name v,
        headers r = [(name, v)] -> lower name = "content-length" ->
        (forallb_str is_digit v = true -> truthy v = true -> String.length v <= 4300 ->
         content_length_ok r = true)
        /\ (existsb_str (fun c => negb (int_char c)) v = true ->
            content_length_ok r = false)
        /\ (v = String (ascii_of_nat 28) "12" -> content_length_ok r = false)
        /\ (v = "" -> content_length_ok r = false)).
Proof.
  split; [|split; [|split; [|split; [|split; [|split]]]]].
  - unfold download_pdf.
    destruct (http_get w pdf_url) as [r|];
      [|split; [discriminate | intros (r & E & _); discriminate E]].
    destruct (raises_for_status r) eqn:Hs.
    { split; [discriminate|]. intros (r' & E & Hs' & _). injection E as <-.
      apply status_accepted in Hs'. congruence. }
    apply status_accepted in Hs.
    destruct (local_file w (download_path w pdf_url)) eqn:Hf; cbn [cannot_create write_fails orb andb].
    + destruct (content_length_ok r) eqn:Hc; cbn [negb].
      * destruct (stream_breaks r) eqn:Hb.
        { split; [discriminate|]. intros (r' & E & _ & _ & _ & _ & Hb' & _).
          injection E as <-. congruence. }
        destruct (read_back w (download_path w pdf_url)) eqn:Hrb; cbn [negb].
        -- destruct (bytes_eqb _ _); cbn [fst]; (split; [intros _|reflexivity]);
             exists r; repeat split; try assumption; discriminate.
        -- split; [discriminate|]. intros (r' & E & _ & _ & _ & _ & _ & Hrb').
           congruence.
      * split; [discriminate|]. intros (r' & E & _ & _ & Hc' & _). injection E as <-. congruence.
    + split; [discriminate|]. intros (r' & E & _ & Hf' & _). now destruct Hf'.
    + destruct (content_length_ok r) eqn:Hc; cbn [negb].
      * destruct (writes_a_chunk r) eqn:Hw.
        { split; [discriminate|]. intros (r' & E & _ & _ & _ & Hw' & _). injection E as <-.
          apply writes_a_chunk_spec in Hw'; [congruence | reflexivity]. }
        destruct (stream_breaks r) eqn:Hb.
        { split; [discriminate|]. intros (r' & E & _ & _ & _ & _ & Hb' & _).
          injection E as <-. congruence. }
        destruct (read_back w (download_path w pdf_url)) eqn:Hrb; cbn [negb].
        -- destruct (bytes_eqb _ _); cbn [fst]; (split; [intros _|reflexivity]);
             exists r; repeat split; try assumption; try discriminate;
             intros _; now apply writes_a_chunk_spec.
        -- split; [discriminate|]. intros (r' & E & _ & _ & _ & _ & _ & Hrb').
           congruence.
      * split; [discriminate|]. intros (r' & E & _ & _ & Hc' & _). injection E as <-. congruence.
  - unfold download_pdf.
    destruct (http_get w pdf_url) as [r|]; [|reflexivity].
    destruct (raises_for_status r); [reflexivity|].
    destruct (_ || _); [reflexivity|].
    destruct (_ && _); [reflexivity|].
    destruct (stream_breaks r); [reflexivity|].
    destruct (negb _); [reflexivity|].
    destruct (bytes_eqb _ _); cbn [fst]; intros H; now destruct H.
  - unfold get_targets. rewrite project_download by reflexivity.
    cbn [app]. now destruct (download_streams w pdf_url).
  - unfold files_written. rewrite project_download by reflexivity. cbn [app].
    unfold download_streams.
    destruct (http_get w pdf_url) as [r|];
      [|split; [discriminate | intros (r & E & _); discriminate E]].
    destruct (raises_for_status r) eqn:Hs; cbn [negb andb].
    { split; [discriminate|]. intros (r' & E & Hs' & _). injection E as <-.
      apply status_accepted in Hs'. congruence. }
    apply status_accepted in Hs.
    destruct (local_file w (download_path w pdf_url)) eqn:Hf; cbn [cannot_create negb andb].
    + destruct (content_length_ok r) eqn:Hc.
      * split; [intros _|reflexivity]. exists r. repeat split; try assumption; discriminate.
      * split; [discriminate|]. intros (r' & E & _ & _ & Hc'). injection E as <-. congruence.
    + split; [discriminate|]. intros (r' & E & _ & Hf' & _). now destruct Hf'.
    + destruct (content_length_ok r) eqn:Hc.
      * split; [intros _|reflexivity]. exists r. repeat split; try assumption; discriminate.
      * split; [discriminate|]. intros (r' & E & _ & _ & Hc'). injection E as <-. congruence.
  - unfold files_written. rewrite project_download by reflexivity. cbn [app].
    destruct (download_streams w pdf_url); intros H; [now destruct H | reflexivity].
  - intros r H. unfold content_length_ok. now rewrite H.
  - intros r name v Hh Hn. rewrite (content_length_of r Hh Hn).
    split; [|split; [|split]].
    + apply int_accepts_digits.
    + apply int_accepts_chars.
    + now intros ->.
    + now intros ->.
Qed.

(* ================================================================== *)
(** * The name of a downloaded file *)

Section SplitFacts.

Variable p : ascii -> bool.

Lemma forallb_str_append (a b : string) :
  forallb_str p (a ++ b) = forallb_str p a && forallb_str p b.
Proof.
  induction a as [|c a IH]; [reflexivity|].
  cbn [append forallb_str]. now rewrite IH, andb_assoc.
Qed.

(** Every piece of a split is made of characters of the text. *)
Lemma split_go_chars (sep : string) (s : string) :
  forall skip cur,
    forallb_str p cur = true -> forallb_str p s = true ->
    Forall (fun piece => forallb_str p piece = true) (split_go sep skip cur s).
Proof.
  induction s as [|c s IH]; intros skip cur Hcur Hs.
  - cbn [split_go]. now constructor.
  - cbn [forallb_str] in Hs. apply andb_true_iff in Hs as [Hc Hs].
    cbn [split_go]. destruct skip as [|k]; [|now apply IH].
    destruct (prefix sep (String c s)).
    + constructor; [exact Hcur | now apply IH].
    + apply IH; [|exact Hs]. rewrite forallb_str_append, Hcur. cbn [forallb_str].
      now rewrite Hc.
Qed.

Lemma before_last_chars (sep s r : string) :
  before_last sep s = Some r -> forallb_str p s = true -> forallb_str p r = true.
Proof.
  revert r. induction s as [|c s IH]; intros r H Hs.
  - cbn [before_last] in H. destruct (prefix sep ""); [|discriminate].
    now injection H as <-.
  - cbn [forallb_str] in Hs. apply andb_true_iff in Hs as [Hc Hs].
    cbn [before_last] in H. destruct (before_last sep s) as [r'|].
    + injection H as <-. cbn [forallb_str]. now rewrite Hc, (IH r').
    + destruct (prefix sep (String c s)); [|discriminate]. now injection H as <-.
Qed.

Lemma rsplit1_head_chars (sep s : string) :
  forallb_str p s = true -> forallb_str p (rsplit1_head sep s) = true.
Proof.
  intros Hs. unfold rsplit1_head.
  destruct (before_last sep s) as [r|] eqn:E; [|exact Hs].
  eapply before_last_chars; eassumption.
Qed.

End SplitFacts.

Section NameShape.

Lemma Forall_last {A : Type} (P : A -> Prop) (l : list A) (d : A) :
  Forall P l -> P d -> P (List.last l d).
Proof.
  induction 1 as [|x l Hx Hl IH]; intros Hd; [exact Hd|].
  destruct l; [exact Hx | now apply IH].
Qed.

Lemma Forall_nth0 {A : Type} (P : A -> Prop) (l : list A) (d : A) :
  Forall P l -> P d -> P (nth 0 l d).
Proof. destruct 1; intros Hd; assumption. Qed.

(** A piece of a split at the one-character separator [q] holds no
    [q]. *)
Lemma split_go_no_sep (q : ascii) (s : string) :
  forall skip cur,
    no_char q cur = true ->
    Forall (fun piece => no_char q piece = true)
           (split_go (String q EmptyString) skip cur s).
Proof.
  induction s as [|c s IH]; intros skip cur Hcur.
  - cbn [split_go]. now constructor.
  - cbn [split_go]. destruct skip as [|k]; [|now apply IH].
    cbn [prefix]. destruct (ascii_dec q c) as [->|Hne].
    + replace (prefix "" s) with true by now destruct s.
      constructor; [exact Hcur | now apply IH].
    + apply IH. unfold no_char in *. rewrite forallb_str_append, Hcur.
      cbn [forallb_str]. apply Ascii.eqb_neq in Hne. now rewrite Hne.
Qed.

Lemma url_segment_no_slash (w : World) (u : string) :
  no_char "/" (url_segment w u) = true.
Proof.
  unfold url_segment.
  apply (@Forall_nth0 string (fun piece => no_char "/" piece = true)); [|reflexivity].
  apply split_go_chars; [reflexivity|].
  apply (@Forall_last string (fun piece => no_char "/" piece = true)); [|reflexivity].
  now apply split_go_no_sep.
Qed.

Lemma endswith_append (suf a : string) : endswith suf (a ++ suf) = true.
Proof.
  induction a as [|c a IH].
  - destruct suf; cbn [append endswith]; [reflexivity | now rewrite String.eqb_refl].
  - cbn [append endswith]. now rewrite IH, orb_true_r.
Qed.

Lemma endswith_spec (suf s : string) :
  endswith suf s = true <-> exists a, s = a ++ suf.
Proof.
  split; [|intros [a ->]; apply endswith_append].
  induction s as [|c s IH]; cbn [endswith].
  - rewrite orb_false_r. intros H. apply String.eqb_eq in H. now exists "".
  - intros H. apply orb_true_iff in H as [H | H].
    + apply String.eqb_eq in H. now exists "".
    + destruct (IH H) as [a ->]. now exists (String c a).
Qed.

Lemma lower_append (a b : string) : lower (a ++ b) = lower a ++ lower b.
Proof.
  induction a as [|c a IH]; [reflexivity|].
  cbn [append lower]. now rewrite IH.
Qed.

Lemma last_char_append (a b : string) :
  truthy b = true -> last_char (a ++ b) = last_char b.
Proof.
  intros Hb. induction a as [|c a IH]; [reflexivity|].
  cbn [append last_char]. rewrite IH.
  destruct b as [|d b]; [discriminate|].
  cbn [last_char]. now destruct (last_char b).
Qed.

Lemma before_last_short (sep s : string) :
  String.length s < String.length sep -> before_last sep s = None.
Proof.
  induction s as [|c s IH]; intros Hl.
  - destruct sep; [cbn in Hl; lia | reflexivity].
  - cbn [before_last]. rewrite IH by (cbn [String.length] in Hl; lia).
    replace (prefix sep (String c s)) with false; [reflexivity|].
    symmetry. apply not_true_is_false. intros H.
    apply prefix_spec in H as [rest H]. apply (f_equal String.length) in H.
    rewrite length_append' in H. lia.
Qed.

(** Cutting at the last occurrence of [sep] a text that ends with
    [sep] removes just that ending. *)
Lemma rsplit1_head_append (sep x : string) :
  sep <> "" -> rsplit1_head sep (x ++ sep) = x.
Proof.
  intros Hsep. unfold rsplit1_head.
  assert (H : before_last sep (x ++ sep) = Some x); [|now rewrite H].
  induction x as [|c x IH].
  - destruct sep as [|c s]; [congruence|].
    cbn [append before_last]. rewrite before_last_short by (cbn; lia).
    replace (prefix (String c s) (String c s)) with true; [reflexivity|].
    symmetry. apply prefix_spec. exists "". now rewrite append_empty_r.
  - cbn [append before_last]. now rewrite IH.
Qed.

Lemma before_last_absent (sep s : string) :
  contains sep s = false -> before_last sep s = None.
Proof.
  induction s as [|c s IH]; cbn [contains before_last]; intros H.
  - rewrite orb_false_r in H. now rewrite H.
  - apply orb_false_iff in H as [Hp Hc]. now rewrite (IH Hc), Hp.
Qed.

Lemma downloads_dir_shape (w : World) :
  exists a, downloads_dir w = a ++ "downloads".
Proof.
  unfold downloads_dir, path_join. cbn [startswith prefix].
  destruct (ascii_dec "/" "d"); [discriminate|].
  destruct (_ || _); [now exists (script_dir w)|].
  exists (script_dir w ++ "/"). now rewrite append_assoc'.
Qed.

Lemma no_char_head (q : ascii) (s : string) :
  no_char q s = true -> prefix (String q EmptyString) s = false.
Proof.
  destruct s as [|c s]; [reflexivity|].
  unfold no_char. cbn [forallb_str prefix]. intros H.
  apply andb_true_iff in H as [H _].
  destruct (ascii_dec q c) as [->|]; [|reflexivity].
  now rewrite Ascii.eqb_refl in H.
Qed.

End NameShape.

(** X5. Whatever the address, the downloaded file gets a name that ends in
    [.pdf], carries the timestamp before that extension and holds no
    slash (the timestamp holding none): the file lies directly in the
    downloads directory of the script. *)
Theorem download_stays_in_downloads (w : World) (pdf_url : string) :
  no_char "/" (now w) = true ->
  endswith ".pdf" (download_filename w pdf_url) = true
  /\ (exists stem, download_filename w pdf_url = stem ++ "_" ++ now w ++ ".pdf"
                   /\ no_char "/" stem = true)
  /\ no_char "/" (download_filename w pdf_url) = true
  /\ download_path w pdf_url = downloads_dir w ++ "/" ++ download_filename w pdf_url.
Proof.
  intros Hnow.
  assert (Hstem : exists stem, download_filename w pdf_url = stem ++ "_" ++ now w ++ ".pdf"
                               /\ no_char "/" stem = true).
  { unfold download_filename. fold (url_segment w pdf_url).
    eexists. split; [reflexivity|].
    apply rsplit1_head_chars.
    pose proof (url_segment_no_slash w pdf_url) as Hseg. unfold no_char in *.
    destruct (truthy (url_segment w pdf_url));
      destruct (endswith ".pdf" _);
      rewrite ?forallb_str_append, ?Hseg, ?Hnow; reflexivity. }
  destruct Hstem as [stem [E Hs]].
  assert (Hno : no_char "/" (download_filename w pdf_url) = true).
  { rewrite E. unfold no_char in *. rewrite !forallb_str_append, Hs, Hnow. reflexivity. }
  split; [|split; [|split]].
  - rewrite E. change (stem ++ "_" ++ now w ++ ".pdf") with (stem ++ ("_" ++ now w ++ ".pdf")).
    rewrite <- append_assoc'.
    replace ((stem ++ "_") ++ now w ++ ".pdf") with (((stem ++ "_") ++ now w) ++ ".pdf")
      by now rewrite append_assoc'.
    apply endswith_append.
  - exists stem. now split.
  - exact Hno.
  - unfold download_path. fold (downloads_dir w). unfold path_join at 1.
    unfold startswith. rewrite (no_char_head _ _ Hno).
    destruct (downloads_dir_shape w) as [a Ha].
    assert (Ht : truthy (downloads_dir w) = true).
    { rewrite Ha. destruct a; reflexivity. }
    assert (He : endswith "/" (downloads_dir w) = false).
    { apply not_true_is_false. intros H. apply endswith_spec in H as [b Hb].
      rewrite Ha in Hb. apply (f_equal last_char) in Hb.
      rewrite !last_char_append in Hb by reflexivity. discriminate Hb. }
    now rewrite Ht, He.
Qed.

Lemma download_stays_in_downloads_witness :
  download_path Samples.pdf_everywhere "https://rbidocs.rbi.org.in/rdocs/content/pdfs/9999.pdf"
  = "/srv/rbi/downloads/9999_20250101_093000.pdf".
Proof.
  rewrite (proj2 (proj2 (proj2
    (@download_stays_in_downloads Samples.pdf_everywhere
       "https://rbidocs.rbi.org.in/rdocs/content/pdfs/9999.pdf" eq_refl)))).
  reflexivity.
Defined.

(** X6. How the name of the download comes from the last segment of the
    address: an ending [.pdf] moves behind the timestamp; a segment with
    another ending, or none, gets the timestamp and [.pdf] appended; an
    extension in another letter case stays inside the name; and an
    address without last segment gives the default name, which carries
    the timestamp twice. *)
Theorem download_filename_cases (w : World) (pdf_url : string) :
  (forall name, url_segment w pdf_url = name ++ ".pdf" ->
                download_filename w pdf_url = name ++ "_" ++ now w ++ ".pdf")
  /\ (truthy (url_segment w pdf_url) = true ->
      endswith ".pdf" (lower (url_segment w pdf_url)) = false ->
      download_filename w pdf_url = url_segment w pdf_url ++ "_" ++ now w ++ ".pdf")
  /\ (endswith ".pdf" (lower (url_segment w pdf_url)) = true ->
      contains ".pdf" (url_segment w pdf_url) = false ->
      download_filename w pdf_url = url_segment w pdf_url ++ "_" ++ now w ++ ".pdf")
  /\ (url_segment w pdf_url = "" ->
      download_filename w pdf_url
      = "rbi_circular_" ++ now w ++ "_" ++ now w ++ ".pdf").
Proof.
  unfold download_filename. fold (url_segment w pdf_url).
  split; [|split; [|split]].
  - intros name E. rewrite E.
    replace (truthy (name ++ ".pdf")) with true by (now destruct name).
    rewrite lower_append. change (lower ".pdf") with ".pdf".
    rewrite endswith_append, rsplit1_head_append by discriminate. reflexivity.
  - intros Ht He. rewrite Ht, He, rsplit1_head_append by discriminate. reflexivity.
  - intros He Hc.
    assert (Ht : truthy (url_segment w pdf_url) = true).
    { destruct (url_segment w pdf_url); [discriminate He | reflexivity]. }
    rewrite Ht, He. unfold rsplit1_head. now rewrite (before_last_absent _ _ Hc).
  - intros E. rewrite E. cbn [truthy].
    replace ("rbi_circular_" ++ now w ++ ".pdf") with (("rbi_circular_" ++ now w) ++ ".pdf")
      by now rewrite append_assoc'.
    rewrite lower_append. change (lower ".pdf") with ".pdf".
    rewrite endswith_append, rsplit1_head_append by discriminate.
    now rewrite append_assoc'.
Qed.

(* ================================================================== *)
(** * Text for the checklist *)

Lemma concat_truthy (sep first : string) (rest : list string) :
  truthy first = true -> truthy (String.concat sep (first :: rest)) = true.
Proof.
  intros H. destruct rest; cbn [String.concat]; [exact H | now apply truthy_append].
Qed.

(** X7. The text taken from a PDF is empty exactly when no page has text,
    and absent when the PDF cannot be read; in both cases, and only
    then, the checklist step does nothing at all: no request to the
    model, no file, no upload. *)
Theorem no_text_no_checklist (w : World) (c : circular) (p : string) :
  (truthy_opt (fst (extract_pdf_text w p)) = false <->
     pdf_pages w p = Raise
     \/ exists texts, pdf_pages w p = Ok texts
                      /\ forall t, In t texts -> truthy_opt t = false)
  /\ (truthy_opt (fst (extract_pdf_text w p)) = false ->
      checklist_step w c (fst (extract_pdf_text w p)) = (Ok None, []))
  /\ (truthy_opt (fst (extract_pdf_text w p)) = true ->
      gemini_requests (snd (checklist_step w c (fst (extract_pdf_text w p)))) = 1).
Proof.
  split; [|split].
  - unfold extract_pdf_text.
    destruct (pdf_pages w p) as [texts|]; cbn [fst];
      [|split; [intros _; now left | reflexivity]].
    split.
    + intros H. right. exists texts. split; [reflexivity|].
      induction texts as [|t texts IH]; [intros t []|].
      cbn [flat_map] in H.
      destruct t as [s|]; [destruct (truthy s) eqn:Hs|].
      * cbn [app truthy_opt] in H. now rewrite concat_truthy in H.
      * intros t [<- | Ht]; [exact Hs | now apply IH].
      * intros t [<- | Ht]; [reflexivity | now apply IH].
    + intros [H | [texts' [E H]]]; [discriminate H|]. injection E as <-.
      replace (flat_map _ texts) with (@nil string); [reflexivity|].
      induction texts as [|t texts IH]; [reflexivity|].
      cbn [flat_map]. rewrite <- IH by (intros t' Ht'; apply H; now right).
      specialize (H t (or_introl eq_refl)).
      destruct t as [s|]; [|reflexivity]. cbn [truthy_opt] in H. now rewrite H.
  - intros H. unfold checklist_step.
    destruct (fst (extract_pdf_text w p)) as [text|]; [|reflexivity].
    cbn [truthy_opt] in H. now rewrite H.
  - intros H. unfold checklist_step, create_checklist_file.
    destruct (fst (extract_pdf_text w p)) as [text|]; [|discriminate H].
    cbn [truthy_opt] in H. rewrite H.
    destruct (gemini w text) as [[checklist_text|]|]; try reflexivity.
    destruct (truthy checklist_text); [|reflexivity].
    destruct (local_file w (checklist_path w c)); try reflexivity.
    destruct (truthy (checklist_path w c)); reflexivity.
Qed.

(* ================================================================== *)
(** * What the state store gives back *)

Lemma has_cr_universal_newlines (s : string) : has_cr (universal_newlines s) = false.
Proof.
  unfold has_cr. induction s as [|c s IH]; [reflexivity|].
  cbn [universal_newlines]. destruct (Ascii.eqb c CR) eqn:Hc.
  - destruct s as [|c' s']; [reflexivity|].
    destruct (Ascii.eqb c' LF); [exact IH|].
    cbn [existsb_str]. now rewrite IH.
  - cbn [existsb_str]. rewrite Ascii.eqb_sym, Hc. exact IH.
Qed.

Lemma has_cr_lstrip (s : string) : has_cr s = false -> has_cr (lstrip s) = false.
Proof.
  unfold has_cr. induction s as [|c s IH]; [reflexivity|].
  cbn [lstrip existsb_str]. intros H. apply orb_false_iff in H as [Hc Hs].
  destruct (is_space c); [now apply IH|].
  cbn [existsb_str]. now rewrite Hc, Hs.
Qed.

Lemma has_cr_rstrip (s : string) : has_cr s = false -> has_cr (rstrip s) = false.
Proof.
  unfold has_cr. induction s as [|c s IH]; [reflexivity|].
  cbn [rstrip existsb_str]. intros H. apply orb_false_iff in H as [Hc Hs].
  specialize (IH Hs). destruct (rstrip s) as [|d r].
  - destruct (is_space c); [reflexivity|]. cbn [existsb_str]. now rewrite Hc.
  - cbn [existsb_str] in *. now rewrite Hc, IH.
Qed.

(** X8. What is read from the state file has no surrounding whitespace and
    no carriage return.  So a circular number that has either is never
    found equal to the stored one, and the circular counts as new in
    every run. *)
Theorem stored_id_is_clean (fs : state_file) :
  (forall id, get_last_circular_id fs = Some id ->
              no_surrounding_space id = true /\ has_cr id = false)
  /\ (forall number,
        has_cr number = true \/ no_surrounding_space number = false ->
        same_id number (get_last_circular_id fs) = false).
Proof.
  assert (H : forall id, get_last_circular_id fs = Some id ->
                         no_surrounding_space id = true /\ has_cr id = false).
  { intros id E. destruct fs as [content|]; [|discriminate E].
    cbn [get_last_circular_id] in E. injection E as <-.
    split; [apply strip_clean|].
    unfold strip. apply has_cr_rstrip, has_cr_lstrip, has_cr_universal_newlines. }
  split; [exact H|].
  intros number Hn. unfold same_id.
  destruct (get_last_circular_id fs) as [l|] eqn:E; [|reflexivity].
  destruct (H l eq_refl) as [Hclean Hcr].
  apply String.eqb_neq. intros ->. destruct Hn; congruence.
Qed.

(* ================================================================== *)
(** * The latest circular *)

(** X9. The latest circular is the first well-formed row that the parser
    visits on the index page, with the absolute address that [urljoin]
    makes from its link; there is none exactly when the browser or the
    page load fails, the page has no well-formed row, or [urljoin]
    raises on the link of the first one.  The index page is the only
    page loaded. *)
Theorem latest_is_first_row (w : World) :
  match fst (get_latest_circular_info w) with
  | Some c =>
      exists pg row rest circular_url,
        driver_available w = true
        /\ render w BASE_PAGE = Ok pg
        /\ filter well_formed_row (visited_rows (page_source pg)) = row :: rest
        /\ circular_number c = circular_number (summary_of_row row)
        /\ href c = href (summary_of_row row)
        /\ date c = date (summary_of_row row)
        /\ department c = department (summary_of_row row)
        /\ subject c = subject (summary_of_row row)
        /\ urljoin w RBI_BASE (href c) = Ok circular_url
        /\ url c = Some circular_url
  | None =>
      driver_available w = false
      \/ render w BASE_PAGE = Raise
      \/ exists pg,
           render w BASE_PAGE = Ok pg
           /\ ((forall row, In row (visited_rows (page_source pg)) ->
                            well_formed_row row = false)
               \/ exists row rest,
                    filter well_formed_row (visited_rows (page_source pg)) = row :: rest
                    /\ urljoin w RBI_BASE (href (summary_of_row row)) = Raise)
  end
  /\ page_loads (snd (get_latest_circular_info w))
     = (if driver_available w then [BASE_PAGE] else []).
Proof.
  split.
  - unfold get_latest_circular_info.
    destruct (driver_available w); [|now left]. cbn [negb].
    destruct (render w BASE_PAGE) as [pg|]; [|right; now left].
    rewrite parse_circulars_table_visited.
    destruct (filter well_formed_row (visited_rows (page_source pg))) as [|row rest] eqn:Hf;
      cbn [map fst].
    + right. right. exists pg. split; [reflexivity|]. left. now apply filter_nil_iff.
    + destruct (urljoin w RBI_BASE (href (summary_of_row row))) as [circular_url|] eqn:Hj;
        cbn [fst].
      * exists pg, row, rest, circular_url. cbn [href url].
        repeat split; try reflexivity; assumption.
      * right. right. exists pg. split; [reflexivity|]. right. now exists row, rest.
  - unfold page_loads. rewrite project_latest by reflexivity.
    now destruct (driver_available w).
Qed.

Lemma latest_is_first_row_witness :
  fst (get_latest_circular_info Samples.unjoinable_world) = None
  /\ page_loads (snd (get_latest_circular_info Samples.unjoinable_world)) = [BASE_PAGE].
Proof.
  split; [reflexivity|].
  exact (proj2 (latest_is_first_row Samples.unjoinable_world)).
Defined.

(* ================================================================== *)
(** * The identifier of a detail address *)

Section SplitAt.

Variable q : ascii.
Variable sep' : string.
Let sep : string := String q sep'.

Lemma split_go_skip (t s cur : string) :
  split_go sep (String.length t) cur (t ++ s) = split_go sep 0 cur s.
Proof. induction t as [|c t IH]; [reflexivity | exact IH]. Qed.

Lemma split_go_pass (base s : string) :
  forall cur, no_char q base = true ->
              split_go sep 0 cur (base ++ s) = split_go sep 0 (cur ++ base) s.
Proof.
  induction base as [|c base IH]; intros cur Hb.
  - now rewrite append_empty_r.
  - unfold no_char in Hb. cbn [forallb_str] in Hb. apply andb_true_iff in Hb as [Hc Hb].
    cbn [append split_go]. unfold sep at 1. cbn [prefix].
    destruct (ascii_dec q c) as [->|_]; [now rewrite Ascii.eqb_refl in Hc|].
    rewrite (IH _ Hb). now rewrite append_assoc'.
Qed.

Lemma split_go_hit (s cur : string) :
  split_go sep 0 cur (sep ++ s) = cur :: split_go sep 0 EmptyString s.
Proof.
  unfold sep at 2. cbn [append split_go].
  replace (prefix sep (String q (sep' ++ s))) with true
    by (symmetry; apply prefix_spec; now exists s).
  f_equal.
  replace (String.length sep - 1) with (String.length sep')
    by (unfold sep; cbn [String.length]; lia).
  apply split_go_skip.
Qed.

Lemma split_go_end (s cur : string) :
  no_char q s = true -> split_go sep 0 cur s = [cur ++ s].
Proof.
  intros Hs. rewrite <- (append_empty_r s) at 1. now rewrite split_go_pass.
Qed.

Lemma contains_needs_head (s : string) : no_char q s = true -> contains sep s = false.
Proof.
  intros Hs. apply not_true_is_false. intros H.
  apply contains_spec in H as [pre [post ->]].
  unfold no_char in Hs. rewrite forallb_str_append in Hs.
  apply andb_true_iff in Hs as [_ Hs]. unfold sep in Hs. cbn [append forallb_str] in Hs.
  now rewrite Ascii.eqb_refl in Hs.
Qed.

End SplitAt.

(** X10. The identifier is what follows [?Id=] up to the next ampersand.  For
    an address made of a base without question mark, [?Id=] and an
    identifier (with or without further parameters) the resolver reads
    the identifier back; an address without question mark has none; and
    an identifier never holds an ampersand. *)
Theorem parse_circular_id_round_trip (base id rest : string) :
  no_char "?" base = true ->
  no_char "?" id = true ->
  no_char "&" id = true ->
  no_char "?" rest = true ->
  parse_circular_id (base ++ "?Id=" ++ id) = Some id
  /\ parse_circular_id (base ++ "?Id=" ++ id ++ "&" ++ rest) = Some id
  /\ parse_circular_id base = None
  /\ (forall u cid, parse_circular_id u = Some cid -> no_char "&" cid = true).
Proof.
  intros Hb Hi Ha Hr.
  assert (Hgeneral : forall tail,
             no_char "?" tail = true ->
             nth 0 (split "&" tail) "" = id ->
             parse_circular_id (base ++ "?Id=" ++ tail) = Some id).
  { intros tail Ht Hn. unfold parse_circular_id.
    replace (contains "?Id=" (base ++ "?Id=" ++ tail)) with true
      by (symmetry; apply contains_spec; now exists base, tail).
    unfold split at 2.
    rewrite (split_go_pass "?" "Id=" base ("?Id=" ++ tail) "" Hb).
    rewrite (split_go_hit "?" "Id=" tail).
    rewrite (split_go_end "?" "Id=" tail "" Ht).
    cbn [nth append]. now rewrite Hn. }
  split; [|split; [|split]].
  - apply Hgeneral; [exact Hi|].
    unfold split. now rewrite (split_go_end "&" "" id "" Ha).
  - apply Hgeneral.
    + unfold no_char in *. rewrite !forallb_str_append, Hi, Hr. reflexivity.
    + unfold split. rewrite (split_go_pass "&" "" id ("&" ++ rest) "" Ha).
      now rewrite (split_go_hit "&" "" rest).
  - unfold parse_circular_id. now rewrite (contains_needs_head "?" "Id=" base Hb).
  - intros u cid. unfold parse_circular_id.
    destruct (contains "?Id=" u); [|discriminate]. intros E. injection E as <-.
    apply (@Forall_nth0 string (fun piece => no_char "&" piece = true)); [|reflexivity].
    now apply split_go_no_sep.
Qed.

Lemma parse_circular_id_round_trip_witness :
  parse_circular_id "https://rbi.org.in/Scripts/BS_CircularIndexDisplay.aspx?Id=9999"
  = Some "9999".
Proof.
  exact (proj1 (@parse_circular_id_round_trip
                  "https://rbi.org.in/Scripts/BS_CircularIndexDisplay.aspx" "9999" ""
                  eq_refl eq_refl eq_refl eq_refl)).
Defined.

(* ================================================================== *)
(** * Publication *)

Lemma publication_checklist (w : World) (c : circular) (content : option string) :
  forallb is_publication (snd (checklist_step w c content)) = true.
Proof.
  unfold checklist_step, create_checklist_file.
  destruct content as [text|]; [|reflexivity].
  destruct (truthy text); [|reflexivity].
  destruct (gemini w text) as [[checklist_text|]|]; try reflexivity.
  destruct (truthy checklist_text); [|reflexivity].
  destruct (local_file w (checklist_path w c)); try reflexivity.
  destruct (truthy (checklist_path w c)); reflexivity.
Qed.


Section PreparationFacts.

Variable w : World.

Let aside (e : event) : list event := if is_preparation e then [] else [e].

Lemma aside_log (lvl : level) (msg : string) : aside (Log lvl msg) = [].
Proof. reflexivity. Qed.

Lemma preparation_latest :
  forallb is_preparation (snd (get_latest_circular_info w)) = true.
Proof.
  apply project_none_forallb. fold aside. rewrite project_latest by apply aside_log.
  now destruct (driver_available w).
Qed.

Lemma preparation_resolver (u : string) :
  forallb is_preparation (snd (get_pdf_from_circular_page w u)) = true.
Proof.
  apply project_none_forallb. fold aside. rewrite project_resolver by apply aside_log.
  destruct (driver_available w); [|reflexivity]. cbn [aside is_preparation app].
  now induction (head_targets _).
Qed.

Lemma preparation_download (u : string) :
  forallb is_preparation (snd (download_pdf w u)) = true.
Proof.
  apply project_none_forallb. fold aside. rewrite project_download by apply aside_log.
  now destruct (download_streams w u).
Qed.

Lemma preparation_extract (p : string) :
  forallb is_preparation (snd (extract_pdf_text w p)) = true.
Proof.
  apply project_none_forallb. fold aside. now rewrite project_extract by apply aside_log.
Qed.

Lemma preparation_synthesize (c : circular) (html : option string) :
  forallb is_preparation (snd (create_pdf_from_html_content w c html)) = true.
Proof.
  apply project_none_forallb. fold aside. rewrite project_synthesize by apply aside_log.
  now induction (files_written _).
Qed.

Ltac prepared :=
  cbn [fst snd];
  repeat first [ rewrite forallb_app
               | rewrite preparation_latest
               | rewrite preparation_resolver
               | rewrite preparation_download
               | rewrite preparation_extract
               | rewrite preparation_synthesize ];
  cbn [forallb is_preparation andb].

(** The local document of a run is determined by the run. *)
Lemma local_document_functional (c : circular) (p p' : string)
      (content content' : option string) :
  local_document w c p content -> local_document w c p' content' ->
  p = p' /\ content = content'.
Proof.
  intros (u & html & Hres & Hcase & _) (u' & html' & Hres' & Hcase' & _).
  rewrite Hres in Hres'. injection Hres' as <- <-.
  destruct Hcase as [(Hk & Hd & Hc) | (Hk & Hs & Hc)];
    destruct Hcase' as [(Hk' & Hd' & Hc') | (Hk' & Hs' & Hc')].
  - rewrite Hd in Hd'. injection Hd' as <-. split; [reflexivity | congruence].
  - subst u. rewrite String.eqb_refl, andb_false_r in Hk. discriminate Hk.
  - subst u. rewrite String.eqb_refl, andb_false_r in Hk'. discriminate Hk'.
  - rewrite Hs in Hs'. injection Hs' as <-. split; [reflexivity | congruence].
Qed.

(** A run either stops during preparation, leaving the state file as
    it was, or hands a local document to the publication steps. *)
Lemma main_split (fs : state_file) :
  (fst (main w fs) = fs
   /\ forallb is_preparation (snd (main w fs)) = true
   /\ forall c p content,
        fst (get_latest_circular_info w) = Some c ->
        same_id (circular_number c) (get_last_circular_id fs) = false ->
        ~ local_document w c p content)
  \/ (exists c p content pre,
        fst (get_latest_circular_info w) = Some c
        /\ same_id (circular_number c) (get_last_circular_id fs) = false
        /\ local_document w c p content
        /\ fst (main w fs) = fst (publish w fs c p content)
        /\ snd (main w fs) = (pre ++ snd (publish w fs c p content))%list
        /\ forallb is_preparation pre = true).
Proof.
  unfold main.
  pose proof preparation_latest as Hl.
  destruct (get_latest_circular_info w) as [[c|] e1]; cbn [fst snd] in *;
    [|left; split; [reflexivity|split; [prepared; now rewrite Hl | discriminate]]].
  destruct (same_id (circular_number c) (get_last_circular_id fs)) eqn:Hsame;
    [left; split; [reflexivity|split; [prepared; now rewrite Hl|]];
     intros c0 p0 content0 E; injection E as <-; congruence|].
  fold (detail_address c).
  pose proof (preparation_resolver (detail_address c)) as Hr.
  destruct (get_pdf_from_circular_page w (detail_address c)) as [[pdf_url html] e2] eqn:Hres.
  cbn [snd] in Hr.
  assert (Hno : forall P : Prop,
             (forall u p content,
                 pdf_url = Some u -> truthy p = true ->
                 (truthy u && negb (u =? HTML_ONLY) = true
                  /\ fst (download_pdf w u) = Some p
                  /\ content = fst (extract_pdf_text w p))
                 \/ (u = HTML_ONLY
                     /\ fst (create_pdf_from_html_content w c html) = Ok (Some p)
                     /\ content = html) -> P) ->
             forall c0 p0 content0,
               Some c = Some c0 ->
               same_id (circular_number c0) (get_last_circular_id fs) = false ->
               local_document w c0 p0 content0 -> P).
  { intros P HP c0 p0 content0 E _ (u0 & html0 & Hres0 & Hcase0 & Hp0).
    injection E as <-. rewrite Hres in Hres0. cbn [fst] in Hres0.
    injection Hres0 as -> ->. exact (HP u0 p0 content0 eq_refl Hp0 Hcase0). }
  destruct pdf_url as [u|];
    [|left; split; [reflexivity|split; [prepared; now rewrite Hl, Hr|]];
      unfold not; apply (Hno False); intros u p content E; discriminate E].
  destruct (truthy u && negb (u =? HTML_ONLY)) eqn:Hpdf.
  - pose proof (preparation_download u) as Hd.
    destruct (download_pdf w u) as [[p|] e3] eqn:Hdl; cbn [snd] in Hd;
      [|left; split; [reflexivity|split; [prepared; now rewrite Hl, Hr, Hd|]];
        unfold not; apply (Hno False); intros u0 p0 content0 E Hp0 Hcase;
        injection E as <-; destruct Hcase as [(_ & Hd0 & _) | (Hk & _)];
        [rewrite Hdl in Hd0; discriminate Hd0
        |rewrite Hk, String.eqb_refl, andb_false_r in Hpdf; discriminate Hpdf]].
    destruct (truthy p) eqn:Hp;
      [|left; split; [reflexivity|split; [prepared; now rewrite Hl, Hr, Hd|]];
        unfold not; apply (Hno False); intros u0 p0 content0 E Hp0 Hcase;
        injection E as <-; destruct Hcase as [(_ & Hd0 & _) | (Hk & _)];
        [rewrite Hdl in Hd0; cbn [fst] in Hd0; injection Hd0 as <-; congruence
        |rewrite Hk, String.eqb_refl, andb_false_r in Hpdf; discriminate Hpdf]].
    pose proof (preparation_extract p) as Hx.
    destruct (extract_pdf_text w p) as [content e3'] eqn:Hext. cbn [snd] in Hx.
    right. exists c, p, content.
    exists ([Log INFO "Starting RBI Circular Downloader...";
             Log INFO "Last processed circular ID: {last_circular_id}"]
            ++ e1
            ++ [Log INFO "New circular detected: {current_circular_id} - {latest_circular['subject']}"]
            ++ e2 ++ e3 ++ e3')%list.
    destruct (publish w fs c p content) as [fs' e4]. cbn [fst snd].
    repeat split; try assumption.
    + exists u, html. rewrite Hres, Hdl. cbn [fst]. repeat split; try assumption.
      left. rewrite Hext. now repeat split.
    + repeat (rewrite <- app_assoc; cbn [app]). reflexivity.
    + prepared. now rewrite Hl, Hr, Hd, Hx.
  - destruct (u =? HTML_ONLY) eqn:Hhtml;
      [|left; split; [reflexivity|split; [prepared; now rewrite Hl, Hr|]];
        unfold not; apply (Hno False); intros u0 p0 content0 E Hp0 Hcase;
        injection E as <-; destruct Hcase as [(Hk & _) | (Hk & _)];
        [congruence | rewrite Hk, String.eqb_refl in Hhtml; discriminate Hhtml]].
    apply String.eqb_eq in Hhtml.
    pose proof (preparation_synthesize c html) as Hs.
    destruct (create_pdf_from_html_content w c html) as [[[p|]|] e3'] eqn:Hsyn;
      cbn [snd] in Hs.
    + destruct (truthy p) eqn:Hp;
        [|left; split; [reflexivity|split; [prepared; now rewrite Hl, Hr, Hs|]];
          unfold not; apply (Hno False); intros u0 p0 content0 E Hp0 Hcase;
          injection E as <-; destruct Hcase as [(Hk & _) | (_ & Hs0 & _)];
          [rewrite Hhtml in Hk; discriminate Hk
          |cbn [fst] in Hs0; injection Hs0 as <-; congruence]].
      right. exists c, p, html.
      exists ([Log INFO "Starting RBI Circular Downloader...";
               Log INFO "Last processed circular ID: {last_circular_id}"]
              ++ e1
              ++ [Log INFO "New circular detected: {current_circular_id} - {latest_circular['subject']}"]
              ++ e2
              ++ [Log INFO "This circular is HTML-only. Creating a PDF from the page content."]
              ++ e3')%list.
      destruct (publish w fs c p html) as [fs' e4]. cbn [fst snd].
      repeat split; try assumption.
      * exists u, html. rewrite Hres, Hsyn. cbn [fst]. repeat split; try assumption.
        right. now repeat split.
      * repeat (rewrite <- app_assoc; cbn [app]). reflexivity.
      * prepared. now rewrite Hl, Hr, Hs.
    + left. split; [reflexivity|split; [prepared; now rewrite Hl, Hr, Hs|]].
      unfold not; apply (Hno False); intros u0 p0 content0 E Hp0 Hcase;
        injection E as <-; destruct Hcase as [(Hk & _) | (_ & Hs0 & _)];
        [rewrite Hhtml in Hk; discriminate Hk | discriminate Hs0].
    + left. split; [reflexivity|split; [prepared; now rewrite Hl, Hr, Hs|]].
      unfold not; apply (Hno False); intros u0 p0 content0 E Hp0 Hcase;
        injection E as <-; destruct Hcase as [(Hk & _) | (_ & Hs0 & _)];
        [rewrite Hhtml in Hk; discriminate Hk | discriminate Hs0].
Qed.

End PreparationFacts.

Section PublishFacts.

Variable w : World.

Lemma preparation_silent (l : list event) :
  forallb is_preparation l = true ->
  mails l = [] /\ state_writes l = [] /\ uploads l = [].
Proof.
  induction l as [|e l IH]; [now repeat split|].
  cbn [forallb]. intros H. apply andb_true_iff in H as [He Hl].
  destruct (IH Hl) as (Hm & Hs & Hu).
  unfold mails, state_writes, uploads in *. cbn [flat_map].
  rewrite Hm, Hs, Hu. destruct e; try discriminate He; now repeat split.
Qed.

Lemma checklist_silent (c : circular) (content : option string) :
  mails (snd (checklist_step w c content)) = []
  /\ state_writes (snd (checklist_step w c content)) = [].
Proof.
  unfold checklist_step, create_checklist_file.
  destruct content as [text|]; [|now split].
  destruct (truthy text); [|now split].
  destruct (gemini w text) as [[checklist_text|]|]; try now split.
  destruct (truthy checklist_text); [|now split].
  destruct (local_file w (checklist_path w c)); try now split.
  destruct (truthy (checklist_path w c)); now split.
Qed.

Lemma checklist_raises (c : circular) (content : option string) :
  fst (checklist_step w c content) = Raise <->
  exists text, content = Some text /\ truthy text = true /\ gemini w text = Raise.
Proof.
  unfold checklist_step, create_checklist_file.
  destruct content as [text|]; [|split; [discriminate | intros [t [E _]]; discriminate E]].
  destruct (truthy text) eqn:Ht;
    [|split; [discriminate | intros [t [E [Ht' _]]]; injection E as <-; congruence]].
  destruct (gemini w text) as [[checklist_text|]|] eqn:Hg.
  - split; [|intros [t [E [_ Hg']]]; injection E as <-; congruence].
    destruct (truthy checklist_text);
      [destruct (local_file w (checklist_path w c));
       [destruct (truthy (checklist_path w c))| |]|];
      discriminate.
  - split; [discriminate | intros [t [E [_ Hg']]]; injection E as <-; congruence].
  - split; [intros _; now exists text | reflexivity].
Qed.

Lemma state_written_writes (l : list event) :
  state_written l = false <-> state_writes l = [].
Proof.
  unfold state_written, state_writes.
  induction l as [|e l IH]; [now split|].
  cbn [existsb flat_map]. destruct e; cbn [is_state_write orb app]; try exact IH.
  split; discriminate.
Qed.

(** What publication does with the mail and the state file: it stops
    before the mail, or sends it and calls the state store. *)
Lemma publish_outcomes (fs : state_file) (c : circular) (p : string) (content : option string) :
  (mails (snd (publish w fs c p content)) = []
   /\ state_writes (snd (publish w fs c p content)) = []
   /\ fst (publish w fs c p content) = fs
   /\ (credentials_present w = false
       \/ authenticate_google_apis w <> Ok true
       \/ build_services w = Raise
       \/ truthy_opt (upload_drive w p) = false
       \/ fst (checklist_step w c content) = Raise))
  \/ (credentials_present w = true
      /\ authenticate_google_apis w = Ok true
      /\ build_services w = Ok tt
      /\ truthy_opt (upload_drive w p) = true
      /\ fst (checklist_step w c content) <> Raise
      /\ exists before,
           mails before = []
           /\ state_writes before = []
           /\ In p (uploads before)
           /\ forallb is_publication before = true
           /\ ((state_write w = FileWritten
                /\ fst (publish w fs c p content) = Some (circular_number c)
                /\ snd (publish w fs c p content) = (before ++ completion w c)%list)
               \/ (state_write w = CannotCreate
                   /\ fst (publish w fs c p content) = fs
                   /\ snd (publish w fs c p content) = (before ++ mail_without_state w)%list)
               \/ (state_write w = WriteFails
                   /\ fst (publish w fs c p content) = Some ""
                   /\ snd (publish w fs c p content)
                      = (before ++ mail_without_state w)%list))).
Proof.
  unfold publish.
  destruct (credentials_present w); cbn [negb];
    [|left; repeat split; now left].
  destruct (authenticate_google_apis w) as [[|]|];
    try (left; repeat split; right; left; discriminate).
  destruct (build_services w) as [[]|];
    [|left; repeat split; right; right; now left].
  destruct (truthy_opt (upload_drive w p)); cbn [negb];
    [|left; repeat split; right; right; right; now left].
  destruct (checklist_silent c content) as [Hm Hs].
  pose proof (publication_checklist w c content) as Hpub.
  destruct (checklist_step w c content) as [[link|] e6]; cbn [fst snd] in *.
  - right. repeat split; try discriminate.
    exists ([Log INFO "Authenticating with Google APIs..."; Authenticate; DriveUpload p]
            ++ e6)%list.
    unfold mails, state_writes, uploads in *.
    rewrite !flat_map_app, Hm, Hs, forallb_app, Hpub.
    split; [reflexivity|]. split; [reflexivity|]. split; [now left|].
    split; [reflexivity|].
    unfold set_last_circular_id, completion, mail_without_state.
    destruct (state_write w); cbn [fst snd];
      [left | right; left | right; right]; repeat split;
      repeat (rewrite <- app_assoc; cbn [app]); reflexivity.
  - left. unfold mails, state_writes in *.
    rewrite !flat_map_app, ?Hm, ?Hs. cbn [flat_map app].
    rewrite ?flat_map_app, ?Hm, ?Hs. cbn [flat_map app].
    repeat split. right. right. right. now right.
Qed.

(** Every run stops before the mail, leaving the state file as it
    was, or reaches the mail and then the state store. *)
Lemma main_run (fs : state_file) :
  (fst (main w fs) = fs
   /\ mails (snd (main w fs)) = []
   /\ state_writes (snd (main w fs)) = []
   /\ forall c p content, ~ reaches_mail w fs c p content)
  \/ (exists c p content before,
        reaches_mail w fs c p content
        /\ mails before = []
        /\ state_writes before = []
        /\ In p (uploads before)
        /\ ((state_write w = FileWritten
             /\ fst (main w fs) = Some (circular_number c)
             /\ snd (main w fs) = (before ++ completion w c)%list)
            \/ (state_write w = CannotCreate
                /\ fst (main w fs) = fs
                /\ snd (main w fs) = (before ++ mail_without_state w)%list)
            \/ (state_write w = WriteFails
                /\ fst (main w fs) = Some ""
                /\ snd (main w fs) = (before ++ mail_without_state w)%list))).
Proof.
  destruct (main_split w fs)
    as [(Hf & Hp & Hno) | (c & p & content & pre & Hl & Hnew & Hdoc & Hf & Hev & Hp)].
  - left. destruct (preparation_silent _ Hp) as (Hm & Hs & _).
    repeat split; try assumption.
    intros c p content (Hl & Hnew & Hdoc & _). exact (Hno c p content Hl Hnew Hdoc).
  - destruct (preparation_silent _ Hp) as (Hm & Hs & Hu).
    destruct (publish_outcomes fs c p content)
      as [(Hm' & Hs' & Hf' & Hwhy)
         | (Hc & Ha & Hb & Hup & Hok & before & Hbm & Hbs & Hbu & _ & Hstate)].
    + left. rewrite Hf, Hev. unfold mails, state_writes in *.
      rewrite !flat_map_app, Hm, Hs, Hm', Hs'. repeat split; try assumption.
      intros c' p' content' (Hl' & _ & Hdoc' & Hc' & Ha' & Hb' & Hup' & Hok').
      rewrite Hl in Hl'. injection Hl' as <-.
      destruct (@local_document_functional w _ _ _ _ _ Hdoc Hdoc') as [E1 E2].
      subst p' content'.
      destruct Hwhy as [H | [H | [H | [H | H]]]]; congruence.
    + right. exists c, p, content, (pre ++ before)%list.
      split; [now repeat split|].
      unfold mails, state_writes, uploads in *.
      rewrite !flat_map_app, Hm, Hs, Hbm, Hbs.
      split; [reflexivity|]. split; [reflexivity|].
      split; [apply in_or_app; now right|].
      rewrite Hf, Hev, <- !app_assoc.
      destruct Hstate as [(Hw & -> & ->) | [(Hw & -> & ->) | (Hw & -> & ->)]];
        [left | right; left | right; right]; now repeat split.
Qed.

End PublishFacts.

(* ================================================================== *)
(** * The state file at the end of a run *)

(** A run in which some step before the mail fails stops early. *)
Lemma main_stops_unless (w : World) (fs : state_file) :
  (forall c p content, ~ reaches_mail w fs c p content) -> stops_early w fs.
Proof.
  intros Hno.
  destruct (main_run w fs)
    as [(Hf & Hm & Hs & _) | (c & p & content & before & Hreach & _)].
  - repeat split; try assumption. now apply state_written_writes.
  - destruct (Hno c p content Hreach).
Qed.

(** C1 (amended). The state file is written only by
    [set_last_circular_id], which [main] calls as its last step, right
    after the mail has been sent and whatever the result of the mail.
    A run reaches the mail exactly when every earlier step succeeds: a
    circular is found and is new, a local document is produced, the
    credentials are there, authentication, the services and the upload
    of the circular succeed and no exception leaves the checklist
    step.  Every other run stops early: no mail, no call of
    [set_last_circular_id], the state file as it was; so after a
    failure of index discovery, of resolution, of the download or the
    synthesis, of authentication or of the upload, and without
    credentials.  A run that reaches the mail leaves the state file as
    the call leaves it: with the new number when the write succeeds,
    as it was when the file cannot be opened, empty when the write
    itself fails. *)
Theorem main_state_write_only_at_end (w : World) (fs : state_file) :
  ((stops_early w fs /\ forall c p content, ~ reaches_mail w fs c p content)
   \/ (exists c p content before,
         reaches_mail w fs c p content
         /\ mails before = []
         /\ state_written before = false
         /\ ((state_write w = FileWritten
              /\ fst (main w fs) = Some (circular_number c)
              /\ snd (main w fs) = (before ++ completion w c)%list)
             \/ (state_write w = CannotCreate
                 /\ fst (main w fs) = fs
                 /\ snd (main w fs) = (before ++ mail_without_state w)%list)
             \/ (state_write w = WriteFails
                 /\ fst (main w fs) = Some ""
                 /\ snd (main w fs) = (before ++ mail_without_state w)%list))))
  /\ (forall c p content,
        reaches_mail w fs c p content ->
        fst (main w fs) = snd (fst (set_last_circular_id w (circular_number c) fs))
        /\ exists before closing,
             mails before = []
             /\ state_written before = false
             /\ snd (main w fs)
                = (before ++ [MailSend (gmail_send w)]
                   ++ snd (set_last_circular_id w (circular_number c) fs)
                   ++ [closing])%list)
  /\ (fst (get_latest_circular_info w) = None -> stops_early w fs)
  /\ (forall c,
        fst (get_latest_circular_info w) = Some c ->
        fst (fst (get_pdf_from_circular_page w (detail_address c))) = None ->
        stops_early w fs)
  /\ (forall c u html,
        fst (get_latest_circular_info w) = Some c ->
        fst (get_pdf_from_circular_page w (detail_address c)) = (Some u, html) ->
        truthy u && negb (u =? HTML_ONLY) = true ->
        fst (download_pdf w u) = None ->
        stops_early w fs)
  /\ (forall c html,
        fst (get_latest_circular_info w) = Some c ->
        fst (get_pdf_from_circular_page w (detail_address c)) = (Some HTML_ONLY, html) ->
        (forall p, fst (create_pdf_from_html_content w c html) <> Ok (Some p)) ->
        stops_early w fs)
  /\ (credentials_present w = false -> stops_early w fs)
  /\ (authenticate_google_apis w <> Ok true -> stops_early w fs)
  /\ ((forall c p content,
          fst (get_latest_circular_info w) = Some c ->
          local_document w c p content ->
          truthy_opt (upload_drive w p) = false) ->
      stops_early w fs).
Proof.
  split; [|split; [|split; [|split; [|split; [|split; [|split; [|split]]]]]]].
  - destruct (main_run w fs)
      as [(Hf & Hm & Hs & Hno)
         | (c & p & content & before & Hreach & Hbm & Hbs & _ & Hstate)].
    + left. split; [|exact Hno]. repeat split; try assumption.
      now apply state_written_writes.
    + right. exists c, p, content, before.
      split; [exact Hreach|]. split; [exact Hbm|].
      split; [now apply state_written_writes | exact Hstate].
  - intros c p content Hreach.
    destruct (main_run w fs)
      as [(_ & _ & _ & Hno)
         | (c' & p' & content' & before & Hreach' & Hbm & Hbs & _ & Hstate)];
      [destruct (Hno c p content Hreach)|].
    assert (E : c' = c).
    { destruct Hreach as (Hl & _). destruct Hreach' as (Hl' & _). congruence. }
    subst c'. apply state_written_writes in Hbs.
    unfold set_last_circular_id, completion, mail_without_state in *.
    destruct Hstate as [(Hw & Hf & Hev) | [(Hw & Hf & Hev) | (Hw & Hf & Hev)]];
      rewrite Hw, Hf, Hev; cbn [fst snd]; (split; [reflexivity|]);
      exists before; eexists; repeat split; try assumption; reflexivity.
  - intros H. apply main_stops_unless. intros c p content (Hl & _). congruence.
  - intros c Hl H. apply main_stops_unless.
    intros c' p content (Hl' & _ & (u & html & Hres & _) & _).
    rewrite Hl in Hl'. injection Hl' as <-. rewrite Hres in H. discriminate H.
  - intros c u html Hl Hres Hk Hd. apply main_stops_unless.
    intros c' p content (Hl' & _ & (u' & html' & Hres' & Hcase & _) & _).
    rewrite Hl in Hl'. injection Hl' as <-. rewrite Hres in Hres'.
    injection Hres' as <- <-.
    destruct Hcase as [(_ & Hd' & _) | (Hk' & _)]; [congruence|].
    rewrite Hk', String.eqb_refl, andb_false_r in Hk. discriminate Hk.
  - intros c html Hl Hres Hs. apply main_stops_unless.
    intros c' p content (Hl' & _ & (u' & html' & Hres' & Hcase & _) & _).
    rewrite Hl in Hl'. injection Hl' as <-. rewrite Hres in Hres'.
    injection Hres' as <- <-.
    destruct Hcase as [(Hk & _) | (_ & Hs' & _)]; [discriminate Hk|].
    destruct (Hs p Hs').
  - intros H. apply main_stops_unless.
    intros c p content (_ & _ & _ & Hc & _). congruence.
  - intros H. apply main_stops_unless.
    intros c p content (_ & _ & _ & _ & Ha & _). congruence.
  - intros H. apply main_stops_unless.
    intros c p content (Hl & _ & Hdoc & _ & _ & _ & Hup & _).
    rewrite (H c p content Hl Hdoc) in Hup. discriminate Hup.
Qed.

Lemma main_state_write_only_at_end_witness :
  stops_early Samples.base_world (Some "DOR.2024.99")
  /\ fst (main Samples.pdf_everywhere None) = Some "DOR.2025.01".
Proof.
  split.
  - exact (proj1 (proj2 (proj2
             (main_state_write_only_at_end Samples.base_world (Some "DOR.2024.99"))))
             eq_refl).
  - pose (c := match fst (get_latest_circular_info Samples.pdf_everywhere) with
               | Some c => c
               | None => Samples.circular_numbered ""
               end).
    assert (Hreach : reaches_mail Samples.pdf_everywhere None c
                       "/srv/rbi/downloads/9999_20250101_093000.pdf"
                       (Some "Guidelines on X")).
    { split; [reflexivity|]. split; [reflexivity|]. split.
      - exists "https://rbidocs.rbi.org.in/rdocs/content/pdfs/9999.pdf", None.
        split; [reflexivity|]. split; [|reflexivity].
        left. split; [reflexivity|]. split; reflexivity.
      - split; [reflexivity|]. split; [reflexivity|]. split; [reflexivity|].
        split; [reflexivity|]. vm_compute. discriminate. }
    rewrite (proj1 (proj1 (proj2
               (main_state_write_only_at_end Samples.pdf_everywhere None))
               c _ _ Hreach)).
    reflexivity.
Defined.

(** C1, as stated, fails: in a run whose mail is not delivered the state
    file is written all the same. *)
Lemma main_advances_on_failed_mail :
  In (MailSend false) (snd (main (Samples.with_mail Samples.pdf_everywhere false) None))
  /\ fst (main (Samples.with_mail Samples.pdf_everywhere false) None) = Some "DOR.2025.01"
  /\ fst (main (Samples.with_mail Samples.pdf_everywhere false) None) <> None.
Proof.
  split; [|split].
  - vm_compute. tauto.
  - reflexivity.
  - vm_compute. discriminate.
Qed.

(** C6. When the number of the latest circular is the one the state
    file holds, the run leaves the state file as it was and does nothing
    but read the index page and log: no second page is loaded, no
    request, file, upload, mail or state write occurs.  So a run that
    follows a completed run on an unchanged index takes this short cut
    (for a circular number without carriage return). *)
Theorem main_short_circuit (w : World) (fs : state_file) :
  (forall c,
      fst (get_latest_circular_info w) = Some c ->
      get_last_circular_id fs = Some (circular_number c) ->
      fst (main w fs) = fs
      /\ forall e, In e (snd (main w fs)) -> is_processing e = false)
  /\ (state_written (snd (main w fs)) = true ->
      (forall c, fst (get_latest_circular_info w) = Some c ->
                 has_cr (circular_number c) = false) ->
      fst (main w (fst (main w fs))) = fst (main w fs)
      /\ forall e, In e (snd (main w (fst (main w fs)))) -> is_processing e = false).
Proof.
  split; [intros c; apply main_unchanged_quiet|].
  intros Hw Hcr.
  destruct (main_run w fs)
    as [(_ & _ & Hs & _)
       | (c & p & content & before & Hreach & _ & Hbs & _ & Hstate)].
  - apply state_written_writes in Hs. congruence.
  - destruct Hreach as (Hl & _).
    assert (Hquiet : state_written (before ++ mail_without_state w) = false).
    { apply state_written_writes. unfold state_writes in *.
      now rewrite flat_map_app, Hbs. }
    destruct Hstate as [(_ & Hf & _) | [(_ & _ & Hev) | (_ & _ & Hev)]];
      [|rewrite Hev in Hw; congruence|rewrite Hev in Hw; congruence].
    rewrite Hf. apply (main_unchanged_quiet w (Some (circular_number c)) Hl).
    cbn [get_last_circular_id].
    rewrite (universal_newlines_fixed _ (Hcr c Hl)).
    now rewrite (strip_fixed _ (latest_number_clean w Hl)).
Qed.

Lemma main_short_circuit_witness :
  fst (main Samples.pdf_everywhere (Some "DOR.2025.01")) = Some "DOR.2025.01"
  /\ fst (main Samples.pdf_everywhere (fst (main Samples.pdf_everywhere None)))
     = fst (main Samples.pdf_everywhere None).
Proof.
  split.
  - eapply (proj1 (main_short_circuit Samples.pdf_everywhere (Some "DOR.2025.01")));
      reflexivity.
  - apply (proj2 (main_short_circuit Samples.pdf_everywhere None)).
    + reflexivity.
    + intros c Hc. vm_compute in Hc. injection Hc as <-. reflexivity.
Defined.

(** X11. Once the circular is uploaded, a checklist that cannot be had does
    not stop publication: whether the model returns nothing or an empty
    text, the mail is sent and (the state file being writable) the state
    advances.  Only an exception that leaves the checklist generation
    ends the run, before the mail and without a state write. *)
Theorem checklist_failure_is_not_fatal
        (w : World) (fs : state_file) (c : circular) (p : string) (content : option string) :
  credentials_present w = true ->
  authenticate_google_apis w = Ok true ->
  build_services w = Ok tt ->
  truthy_opt (upload_drive w p) = true ->
  ((forall text, content = Some text -> gemini w text <> Raise) ->
   mails (snd (publish w fs c p content)) = [gmail_send w]
   /\ (state_writable w = true ->
       fst (publish w fs c p content) = Some (circular_number c)))
  /\ (forall text, content = Some text -> truthy text = true -> gemini w text = Raise ->
      mails (snd (publish w fs c p content)) = []
      /\ state_writes (snd (publish w fs c p content)) = []
      /\ fst (publish w fs c p content) = fs).
Proof.
  intros Hc Ha Hb Hu.
  destruct (publish_outcomes w fs c p content)
    as [(Hm & Hs & Hf & Hwhy)
       | (_ & _ & _ & _ & Hok & before & Hbm & Hbs & _ & _ & Hstate)].
  - assert (Hraise : fst (checklist_step w c content) = Raise).
    { destruct Hwhy as [H | [H | [H | [H | H]]]]; congruence. }
    split.
    + intros Hnever. apply checklist_raises in Hraise as [text [E [_ Hg]]].
      destruct (Hnever text E Hg).
    + intros. now repeat split.
  - split.
    + intros _. split.
      * unfold mails in *.
        destruct Hstate as [(_ & _ & ->) | [(_ & _ & ->) | (_ & _ & ->)]];
          rewrite flat_map_app, Hbm; reflexivity.
      * unfold state_writable. intros Hw.
        destruct Hstate as [(_ & Hf & _) | [(Hw' & _) | (Hw' & _)]];
          [exact Hf | rewrite Hw' in Hw; discriminate Hw | rewrite Hw' in Hw; discriminate Hw].
    + intros text E Ht Hg. destruct Hok. apply checklist_raises. now exists text.
Qed.

Lemma checklist_failure_is_not_fatal_witness :
  mails (snd (publish Samples.no_pdf None (Samples.circular_numbered "DOR.2025.01")
                      "downloads/RBI_Circular_DOR.2025.01_20250101_093000.pdf" None))
  = [true].
Proof.
  apply (proj1 (@checklist_failure_is_not_fatal Samples.no_pdf None
                  (Samples.circular_numbered "DOR.2025.01")
                  "downloads/RBI_Circular_DOR.2025.01_20250101_093000.pdf" None
                  eq_refl eq_refl eq_refl eq_refl)).
  intros text E. discriminate E.
Defined.



(* ================================================================== *)
(** * More on names, headers and links *)

Lemma kept_ascii_is_safe (c : ascii) :
  negb (is_ascii (sub_unsafe_char c)) || is_ascii_safe (sub_unsafe_char c) = true.
Proof.
  unfold sub_unsafe_char. destruct (in_kept_class c) eqn:Hk; [|reflexivity].
  destruct (is_ascii c) eqn:Ha; [|reflexivity].
  now rewrite <- (@ascii_kept_is_safe c Ha), Hk.
Qed.

Lemma safe_char_no_slash (c : ascii) :
  negb (is_ascii c) || is_ascii_safe c = true -> negb (Ascii.eqb "/" c) = true.
Proof.
  destruct (Ascii.eqb "/" c) eqn:E; [|reflexivity].
  apply Ascii.eqb_eq in E. subst c. discriminate.
Qed.

Lemma forallb_str_impl (p q : ascii -> bool) (s : string) :
  (forall c, p c = true -> q c = true) ->
  forallb_str p s = true -> forallb_str q s = true.
Proof.
  intros Hpq. induction s as [|c s IH]; [reflexivity|].
  cbn [forallb_str]. intros H. apply andb_true_iff in H as [Hc Hs].
  now rewrite (Hpq c Hc), (IH Hs).
Qed.

(** X13. Whatever the circular number, every ASCII character of the
    sanitized name is a letter, a digit, an underscore, a full stop or a
    hyphen; in particular it holds no slash, so the synthesized document
    and the checklist lie directly in their downloads directories (the
    timestamp holding no slash). *)
Theorem safe_name_is_a_file_name (w : World) (c : circular) :
  forallb_str (fun ch => negb (is_ascii ch) || is_ascii_safe ch) (safe_name c) = true
  /\ no_char "/" (safe_name c) = true
  /\ (no_char "/" (now w) = true ->
      exists pdf_name html_name txt_name,
        synthesized_pdf_path w c = "downloads/" ++ pdf_name
        /\ synthesized_html_path w c = "downloads/" ++ html_name
        /\ checklist_path w c = downloads_dir w ++ "/" ++ txt_name
        /\ no_char "/" pdf_name = true
        /\ no_char "/" html_name = true
        /\ no_char "/" txt_name = true).
Proof.
  assert (Hsafe : forallb_str (fun ch => negb (is_ascii ch) || is_ascii_safe ch)
                              (safe_name c) = true).
  { unfold safe_name. induction (circular_number c) as [|ch s IH]; [reflexivity|].
    cbn [sub_unsafe forallb_str]. now rewrite kept_ascii_is_safe, IH. }
  assert (Hslash : no_char "/" (safe_name c) = true).
  { unfold no_char. eapply forallb_str_impl; [|exact Hsafe]. apply safe_char_no_slash. }
  split; [exact Hsafe|]. split; [exact Hslash|].
  intros Hnow.
  exists (artifact_filename "RBI_Circular" (safe_name c) (now w) ".pdf"),
         (artifact_filename "RBI_Circular" (safe_name c) (now w) ".html"),
         (artifact_filename "RBI_Checklist" (safe_name c) (now w) ".txt").
  assert (Hname : forall prefix ext,
             no_char "/" prefix = true -> no_char "/" ext = true ->
             no_char "/" (artifact_filename prefix (safe_name c) (now w) ext) = true).
  { intros prefix ext Hp He. unfold artifact_filename, no_char in *.
    rewrite !forallb_str_append, Hp, He, Hslash, Hnow. reflexivity. }
  split; [reflexivity|]. split; [reflexivity|].
  split; [|repeat split; apply Hname; reflexivity].
  unfold checklist_path. fold (downloads_dir w). unfold path_join at 1, startswith.
  rewrite (no_char_head _ _ (Hname "RBI_Checklist" ".txt" eq_refl eq_refl)).
  destruct (downloads_dir_shape w) as [a Ha].
  assert (Ht : truthy (downloads_dir w) = true) by (rewrite Ha; destruct a; reflexivity).
  assert (He : endswith "/" (downloads_dir w) = false).
  { apply not_true_is_false. intros H. apply endswith_spec in H as [b Hb].
    rewrite Ha in Hb. apply (f_equal last_char) in Hb.
    rewrite !last_char_append in Hb by reflexivity. discriminate Hb. }
  now rewrite Ht, He.
Qed.

Lemma header_get_absent (name : string) (hs : list (string * string)) (default : string) :
  has_header name hs = false -> header_get name hs default = default.
Proof.
  induction hs as [|[k v] hs IH]; [reflexivity|].
  cbn [has_header existsb header_get fst]. intros H.
  apply orb_false_iff in H as [Hk Hs]. rewrite Hk. now apply IH.
Qed.

(** X14. A response that declares no content type is never taken for a PDF,
    whatever its status; and the name of the header is found in any
    letter case. *)
Theorem validation_needs_content_type (w : World) (u : string) (r : response) :
  http_head w u = Ok r ->
  (has_header "content-type" (headers r) = false -> validates w u = false)
  /\ (forall name value rest,
        headers r = (name, value) :: rest ->
        lower name = "content-type" ->
        validates w u = (status_code r =? 200)%Z && contains "pdf" (lower value)).
Proof.
  intros Hh. unfold validates, check_pdf_url_exists. rewrite Hh.
  split.
  - intros Habs.
    assert (E : is_valid_pdf_response r = false).
    { unfold is_valid_pdf_response. rewrite (header_get_absent _ _ _ Habs).
      cbn [lower contains]. apply andb_false_r. }
    now rewrite E.
  - intros name value rest Hhs Hname.
    assert (E : is_valid_pdf_response r
                = (status_code r =? 200)%Z && contains "pdf" (lower value)).
    { unfold is_valid_pdf_response. rewrite Hhs. cbn [header_get].
      rewrite Hname. now rewrite String.eqb_refl. }
    rewrite <- E. now destruct (is_valid_pdf_response r).
Qed.

Lemma validation_needs_content_type_witness :
  validates Samples.pdf_everywhere "https://rbidocs.rbi.org.in/rdocs/content/pdfs/9999.pdf"
  = true.
Proof.
  rewrite (proj2 (@validation_needs_content_type Samples.pdf_everywhere
                    "https://rbidocs.rbi.org.in/rdocs/content/pdfs/9999.pdf"
                    Samples.pdf_response eq_refl)
                 "Content-Type" "application/pdf" [] eq_refl eq_refl).
  reflexivity.
Defined.

Section DescendantFacts.

Lemma descendants_trans (n : node) :
  forall t x, In t (Dom.descendants n) -> In x (Dom.descendants t) ->
              In x (Dom.descendants n).
Proof.
  induction n as [nm attrs cs IH | s | s] using node_ind; try (intros t x []).
  intros t x Ht Hx. rewrite descendants_elem in *.
  apply in_flat_map in Ht as [c [Hc Ht]]. apply in_flat_map. exists c.
  split; [exact Hc|]. right. destruct Ht as [<- | Ht]; [exact Hx|].
  rewrite Forall_forall in IH. exact (IH c Hc t x Ht Hx).
Qed.

Lemma find_all_descendant (names : list string) (n t : node) :
  In t (Dom.find_all names n) -> In t (Dom.descendants n) /\ Dom.has_name names t = true.
Proof. unfold Dom.find_all. apply filter_In. Qed.

End DescendantFacts.

(** X15. The link of every summary is an [a] element of the page that lies
    in a row of a table of the page, carries the [href] of the summary
    and, stripped, reads as the circular number. *)
Theorem summary_link_is_on_the_page (soup : node) (c : circular) :
  In c (parse_circulars_table soup) ->
  exists table row,
    In table (Dom.descendants soup) /\ Dom.has_name ["table"] table = true
    /\ In row (Dom.descendants table) /\ Dom.has_name ["tr"] row = true
    /\ In (link c) (Dom.descendants row)
    /\ In (link c) (Dom.descendants soup)
    /\ Dom.has_name ["a"] (link c) = true
    /\ Dom.get "href" (link c) = Some (href c).
Proof.
  unfold parse_circulars_table. intros H.
  apply in_flat_map in H as [table [Htable H]].
  apply in_flat_map in H as [row [Hrow H]].
  apply find_all_descendant in Htable as [Htable Htn].
  apply find_all_descendant in Hrow as [Hrow Hrn].
  exists table, row.
  unfold parse_row in H.
  destruct (Nat.leb 4 _); [|contradiction].
  destruct (Dom.find_all ["td"; "th"] row) as [|first_cell rest] eqn:Hcells; [contradiction|].
  destruct (Dom.find_a_href first_cell) as [a|] eqn:Ha; [|contradiction].
  destruct (Dom.get "href" a) as [h|] eqn:Hh; [|contradiction].
  destruct (contains DETAIL_PATTERN h); [|contradiction].
  destruct H as [<- | []]. cbn [link href].
  assert (Hcell : In first_cell (Dom.descendants row)).
  { apply (find_all_descendant ["td"; "th"]). rewrite Hcells. now left. }
  assert (Hlink : In a (Dom.descendants first_cell) /\ Dom.has_name ["a"] a = true).
  { unfold Dom.find_a_href, Dom.find_all_a_href in Ha.
    destruct (filter _ _) as [|a' l] eqn:Hf; [discriminate Ha|].
    injection Ha as ->.
    assert (Hin : In a (filter (Dom.has_attr "href") (Dom.find_all ["a"] first_cell)))
      by (rewrite Hf; now left).
    apply filter_In in Hin as [Hin _]. now apply find_all_descendant in Hin. }
  destruct Hlink as [Hlink Hname].
  assert (Hinrow : In a (Dom.descendants row))
    by (eapply descendants_trans; eassumption).
  repeat split; try assumption.
  eapply descendants_trans; [exact Htable|].
  eapply descendants_trans; eassumption.
Qed.

Lemma summary_link_is_on_the_page_witness :
  exists table row,
    In table (Dom.descendants Samples.index_soup)
    /\ In row (Dom.descendants table)
    /\ In (link (summary_of_row Samples.index_row)) (Dom.descendants row).
Proof.
  destruct (@summary_link_is_on_the_page Samples.index_soup
              (summary_of_row Samples.index_row) (or_introl eq_refl))
    as (table & row & Ht & _ & Hr & _ & Hl & _).
  now exists table, row.
Defined.

(* ================================================================== *)
(** * Where a run reaches the site *)

(** A reading [f] of a trace that sees only page loads and header-only
    requests finds, in the trace of a run, what discovery and
    resolution left there. *)
Section SiteReading.

Variable w : World.
Variable A : Type.
Variable f : event -> list A.
Hypothesis f_publication : forall e, is_publication e = true -> f e = [].
Hypothesis f_get : forall u, f (GetRequest u) = [].

Lemma site_log (lvl : level) (msg : string) : f (Log lvl msg) = [].
Proof. now apply f_publication. Qed.


Ltac site :=
  cbn [fst snd];
  repeat first [ rewrite flat_map_app
               | rewrite site_log
               | rewrite app_nil_r
               | rewrite app_nil_l
               | progress cbn [flat_map] ].


End SiteReading.


(* ================================================================== *)
(** * Google Drive *)

Section DriveFacts.

Variable b : Drive.behaviour.

Lemma folder_named_new (name parent id : string) :
  Drive.is_folder_named name parent
    {| Drive.entry_id := id; Drive.entry_name := name;
       Drive.mime_type := Drive.FOLDER_MIME; Drive.parents := [parent] |} = true.
Proof.
  unfold Drive.is_folder_named. cbn [Drive.entry_name Drive.mime_type Drive.parents existsb].
  now rewrite !String.eqb_refl.
Qed.

Lemma find_folder_stable (d d' : Drive.service) (name parent : string) (e : Drive.entry)
      (more : list Drive.entry) :
  Drive.find_folder d name parent = Some e ->
  Drive.stored d' = (Drive.stored d ++ more)%list ->
  Drive.find_folder d' name parent = Some e.
Proof.
  unfold Drive.find_folder. intros H E. rewrite E, filter_app.
  destruct (filter _ (Drive.stored d)); [discriminate H | exact H].
Qed.

(** The ways [get_or_create_folder] can end. *)
Lemma get_or_create_folder_cases (d : Drive.service) (name parent : string) :
  (Drive.fails b (Drive.calls d) = true
   /\ Drive.get_or_create_folder b d name parent = (None, Drive.tick d))
  \/ (Drive.fails b (Drive.calls d) = false
      /\ exists e, Drive.find_folder d name parent = Some e
                   /\ Drive.get_or_create_folder b d name parent
                      = (Some (Drive.entry_id e), Drive.tick d))
  \/ (Drive.fails b (Drive.calls d) = false
      /\ Drive.find_folder d name parent = None
      /\ Drive.fails b (S (Drive.calls d)) = true
      /\ Drive.get_or_create_folder b d name parent = (None, Drive.tick (Drive.tick d)))
  \/ (Drive.fails b (Drive.calls d) = false
      /\ Drive.find_folder d name parent = None
      /\ Drive.fails b (S (Drive.calls d)) = false
      /\ Drive.get_or_create_folder b d name parent
         = (Some (Drive.new_id b (S (Drive.calls d))),
            Drive.tick
              {| Drive.stored :=
                   (Drive.stored d
                    ++ [{| Drive.entry_id := Drive.new_id b (S (Drive.calls d));
                           Drive.entry_name := name;
                           Drive.mime_type := Drive.FOLDER_MIME;
                           Drive.parents := [parent] |}])%list;
                 Drive.calls := S (Drive.calls d) |})).
Proof.
  unfold Drive.get_or_create_folder, Drive.files_list, Drive.find_folder.
  destruct (Drive.fails b (Drive.calls d)) eqn:Hf; [left; now split|].
  right.
  destruct (filter (Drive.is_folder_named name parent) (Drive.stored d)) as [|e l] eqn:Hm.
  - right. unfold Drive.files_create. cbn [Drive.tick Drive.calls Drive.stored].
    destruct (Drive.fails b (S (Drive.calls d))) eqn:Hf2.
    + left. repeat split.
    + right. repeat split.
  - left. split; [reflexivity|]. exists e. now split.
Qed.

Lemma get_or_create_folder_some (d d1 : Drive.service) (name parent id : string) :
  Drive.get_or_create_folder b d name parent = (Some id, d1) ->
  exists e added,
    Drive.stored d1 = (Drive.stored d ++ added)%list
    /\ List.length added <= 1
    /\ Drive.find_folder d1 name parent = Some e
    /\ Drive.entry_id e = id
    /\ (added = [] \/ (added = [e] /\ Drive.find_folder d name parent = None)).
Proof.
  intros H.
  destruct (get_or_create_folder_cases d name parent)
    as [[_ E] | [[_ [e [Hfind E]]] | [(_ & _ & _ & E) | (_ & Hnone & _ & E)]]];
    rewrite E in H; try discriminate H; injection H as <- <-.
  - exists e, []. rewrite app_nil_r. repeat split; try assumption; [cbn; lia | now left].
  - exists {| Drive.entry_id := Drive.new_id b (S (Drive.calls d));
              Drive.entry_name := name;
              Drive.mime_type := Drive.FOLDER_MIME;
              Drive.parents := [parent] |}.
    eexists. cbn [Drive.tick Drive.stored]. split; [reflexivity|].
    split; [cbn; lia|]. split; [|split; [reflexivity | right; now split]].
    unfold Drive.find_folder in *. cbn [Drive.stored Drive.tick]. rewrite filter_app.
    destruct (filter _ (Drive.stored d)); [|discriminate Hnone].
    cbn [app filter]. now rewrite folder_named_new.
Qed.

Lemma get_or_create_folder_found (d : Drive.service) (name parent : string) (e : Drive.entry) :
  Drive.fails b (Drive.calls d) = false ->
  Drive.find_folder d name parent = Some e ->
  Drive.get_or_create_folder b d name parent = (Some (Drive.entry_id e), Drive.tick d).
Proof.
  intros Hf Hfind.
  destruct (get_or_create_folder_cases d name parent)
    as [[Hf' _] | [[_ [e' [Hfind' E]]] | [(_ & Hnone & _) | (_ & Hnone & _)]]];
    try congruence.
Qed.

End DriveFacts.

(** X17. [get_or_create_folder] returns the identifier of the first folder
    of that name under that parent, creating the folder only when there
    is none; it never removes an entry, and it returns nothing exactly
    when one of its calls to the service fails. *)
Theorem get_or_create_folder_finds_or_creates
        (b : Drive.behaviour) (d : Drive.service) (name parent : string) :
  match fst (Drive.get_or_create_folder b d name parent) with
  | Some id =>
      exists e,
        Drive.find_folder (snd (Drive.get_or_create_folder b d name parent)) name parent
        = Some e
        /\ Drive.entry_id e = id
        /\ ((Drive.find_folder d name parent = Some e
             /\ Drive.stored (snd (Drive.get_or_create_folder b d name parent))
                = Drive.stored d)
            \/ (Drive.find_folder d name parent = None
                /\ Drive.stored (snd (Drive.get_or_create_folder b d name parent))
                   = (Drive.stored d ++ [e])%list))
  | None =>
      Drive.stored (snd (Drive.get_or_create_folder b d name parent)) = Drive.stored d
      /\ (Drive.fails b (Drive.calls d) = true
          \/ (Drive.find_folder d name parent = None
              /\ Drive.fails b (S (Drive.calls d)) = true))
  end.
Proof.
  destruct (get_or_create_folder_cases b d name parent)
    as [[Hf E] | [[_ [e [Hfind E]]] | [(_ & Hnone & Hf & E) | (_ & Hnone & _ & E)]]];
    rewrite E; cbn [fst snd Drive.tick Drive.stored].
  - split; [reflexivity | now left].
  - exists e. split; [exact Hfind|]. split; [reflexivity|]. left. now split.
  - split; [reflexivity | right; now split].
  - exists {| Drive.entry_id := Drive.new_id b (S (Drive.calls d));
              Drive.entry_name := name;
              Drive.mime_type := Drive.FOLDER_MIME;
              Drive.parents := [parent] |}.
    split; [|split; [reflexivity | right; split; [exact Hnone | reflexivity]]].
    unfold Drive.find_folder in *. cbn [Drive.stored Drive.tick]. rewrite filter_app.
    destruct (filter _ (Drive.stored d)); [|discriminate Hnone].
    cbn [app filter]. now rewrite folder_named_new.
Qed.

(** X18. Asking again for a folder that was just found or created finds it:
    the same identifier comes back and nothing is created. *)
Theorem get_or_create_folder_idempotent
        (b : Drive.behaviour) (d d1 : Drive.service) (name parent id : string) :
  Drive.get_or_create_folder b d name parent = (Some id, d1) ->
  Drive.fails b (Drive.calls d1) = false ->
  Drive.get_or_create_folder b d1 name parent = (Some id, Drive.tick d1).
Proof.
  intros H Hf.
  destruct (get_or_create_folder_some b d name parent H) as (e & added & _ & _ & Hfind & <- & _).
  now apply get_or_create_folder_found.
Qed.

Lemma get_or_create_folder_idempotent_witness :
  Drive.get_or_create_folder Drive.reliable
    (snd (Drive.get_or_create_folder Drive.reliable Drive.empty "2025" "ROOT")) "2025" "ROOT"
  = (Some "ii",
     Drive.tick (snd (Drive.get_or_create_folder Drive.reliable Drive.empty "2025" "ROOT"))).
Proof.
  apply (@get_or_create_folder_idempotent Drive.reliable Drive.empty); reflexivity.
Defined.

(** X19. An upload that returns a link has put the file, under the base name
    of its path and with the type chosen from its extension, into the
    folder of the month, which lies in the folder of the year, which
    lies in the root folder; it has found the local file; it has added
    the file and at most the two folders, and removed nothing. *)
Theorem upload_drive_places_file
        (b : Drive.behaviour) (d d' : Drive.service)
        (year month filepath root link : string) (file_exists : bool) :
  Drive.upload_drive b d year month file_exists filepath root = (Some link, d') ->
  exists year_folder month_folder file folders,
    Drive.find_folder d' year root = Some year_folder
    /\ Drive.find_folder d' month (Drive.entry_id year_folder) = Some month_folder
    /\ Drive.stored d' = (Drive.stored d ++ folders ++ [file])%list
    /\ List.length folders <= 2
    /\ Drive.entry_name file = Drive.basename filepath
    /\ Drive.mime_type file = Drive.upload_mimetype filepath
    /\ Drive.parents file = [Drive.entry_id month_folder]
    /\ Drive.web_view_link b (Drive.entry_id file) = Some link
    /\ file_exists = true.
Proof.
  unfold Drive.upload_drive. intros H.
  destruct (Drive.get_or_create_folder b d year root) as [[yid|] dy] eqn:Hy;
    [|discriminate H].
  destruct (truthy yid); [|discriminate H]. cbn [negb] in H.
  destruct (Drive.get_or_create_folder b dy month yid) as [[mid|] dm] eqn:Hm;
    [|discriminate H].
  destruct (truthy mid); [|discriminate H]. cbn [negb] in H.
  destruct file_exists; [|discriminate H]. cbn [negb] in H.
  unfold Drive.files_create in H.
  destruct (Drive.fails b (Drive.calls dm)); [discriminate H|].
  injection H as Hlink <-. cbn [Drive.entry_id] in Hlink.
  destruct (get_or_create_folder_some b d year root Hy)
    as (ey & a1 & Es1 & Hl1 & Hfy & <- & _).
  destruct (get_or_create_folder_some b dy month (Drive.entry_id ey) Hm)
    as (em & a2 & Es2 & Hl2 & Hfm & <- & _).
  exists ey, em.
  eexists {| Drive.entry_id := Drive.new_id b (Drive.calls dm) |}.
  exists (a1 ++ a2)%list.
  cbn [Drive.tick Drive.stored Drive.entry_name Drive.mime_type Drive.parents Drive.entry_id].
  split; [|split; [|split; [|split; [|repeat split; try reflexivity; exact Hlink]]]].
  - eapply find_folder_stable; [exact Hfy|].
    cbn [Drive.tick Drive.stored]. rewrite Es2, <- app_assoc. reflexivity.
  - eapply find_folder_stable; [exact Hfm|]. reflexivity.
  - rewrite Es2, Es1, <- !app_assoc. reflexivity.
  - rewrite length_app. lia.
Qed.

Lemma upload_drive_places_file_witness :
  exists year_folder month_folder,
    Drive.find_folder
      (snd (Drive.upload_drive Drive.reliable Drive.empty "2025" "January" true
              "/srv/rbi/downloads/45_20250101_093000.pdf" "ROOT"))
      "2025" "ROOT" = Some year_folder
    /\ Drive.find_folder
         (snd (Drive.upload_drive Drive.reliable Drive.empty "2025" "January" true
                 "/srv/rbi/downloads/45_20250101_093000.pdf" "ROOT"))
         "January" (Drive.entry_id year_folder) = Some month_folder.
Proof.
  destruct (@upload_drive_places_file Drive.reliable Drive.empty _
              "2025" "January" "/srv/rbi/downloads/45_20250101_093000.pdf" "ROOT" _ true
              eq_refl)
    as (yf & mf & _ & _ & Hy & Hm & _).
  now exists yf, mf.
Defined.

(** X20. After an upload, a further upload in the same month (the service
    not failing) creates no folder: it finds the folders of the year and
    of the month and adds just the file, into the same folder of the
    month. *)
Theorem upload_drive_reuses_folders
        (b : Drive.behaviour) (d d1 : Drive.service)
        (year month path1 path2 root link : string) :
  (forall n, Drive.fails b n = false) ->
  Drive.upload_drive b d year month true path1 root = (Some link, d1) ->
  exists month_folder file,
    Drive.find_folder d1 month
      (match Drive.find_folder d1 year root with
       | Some year_folder => Drive.entry_id year_folder
       | None => ""
       end) = Some month_folder
    /\ Drive.stored (snd (Drive.upload_drive b d1 year month true path2 root))
       = (Drive.stored d1 ++ [file])%list
    /\ Drive.folders_of (snd (Drive.upload_drive b d1 year month true path2 root))
       = Drive.folders_of d1
    /\ Drive.entry_name file = Drive.basename path2
    /\ Drive.parents file = [Drive.entry_id month_folder]
    /\ fst (Drive.upload_drive b d1 year month true path2 root)
       = Drive.web_view_link b (Drive.entry_id file).
Proof.
  intros Hnever H1.
  assert (Hfirst := H1). unfold Drive.upload_drive in Hfirst.
  destruct (Drive.get_or_create_folder b d year root) as [[yid|] dy] eqn:Hy;
    [|discriminate Hfirst].
  destruct (truthy yid) eqn:Hty; [|discriminate Hfirst]. cbn [negb] in Hfirst.
  destruct (Drive.get_or_create_folder b dy month yid) as [[mid|] dm] eqn:Hm;
    [|discriminate Hfirst].
  destruct (truthy mid) eqn:Htm; [|discriminate Hfirst]. cbn [negb] in Hfirst.
  unfold Drive.files_create in Hfirst. rewrite Hnever in Hfirst.
  injection Hfirst as _ Ed1.
  destruct (get_or_create_folder_some b d year root Hy)
    as (ey & a1 & Es1 & _ & Hfy & Eyid & _).
  destruct (get_or_create_folder_some b dy month yid Hm)
    as (em & a2 & Es2 & _ & Hfm & Emid & _).
  assert (Hfy1 : Drive.find_folder d1 year root = Some ey).
  { eapply find_folder_stable; [exact Hfy|].
    rewrite <- Ed1. cbn [Drive.tick Drive.stored]. rewrite Es2, <- app_assoc. reflexivity. }
  assert (Hfm1 : Drive.find_folder d1 month yid = Some em).
  { eapply find_folder_stable; [exact Hfm|]. rewrite <- Ed1. reflexivity. }
  exists em.
  exists {| Drive.entry_id := Drive.new_id b (S (S (Drive.calls d1)));
            Drive.entry_name := Drive.basename path2;
            Drive.mime_type := Drive.upload_mimetype path2;
            Drive.parents := [mid] |}.
  rewrite Hfy1, Eyid.
  unfold Drive.upload_drive.
  rewrite (get_or_create_folder_found b d1 year root (Hnever _) Hfy1).
  rewrite Eyid, Hty. cbn [negb].
  assert (Hfm2 : Drive.find_folder (Drive.tick d1) month yid = Some em) by exact Hfm1.
  rewrite (get_or_create_folder_found b (Drive.tick d1) month yid (Hnever _) Hfm2).
  rewrite Emid, Htm. cbn [negb].
  unfold Drive.files_create. rewrite Hnever.
  cbn [fst snd Drive.tick Drive.stored Drive.calls Drive.entry_name Drive.parents Drive.entry_id].
  repeat split; try assumption; try (now rewrite Emid).
  unfold Drive.folders_of. cbn [Drive.stored Drive.tick]. rewrite filter_app.
  cbn [filter Drive.mime_type]. unfold Drive.upload_mimetype.
  destruct (endswith ".pdf" (lower path2)); cbn; now rewrite app_nil_r.
Qed.

Lemma upload_drive_reuses_folders_witness :
  Drive.folders_of
    (snd (Drive.upload_drive Drive.reliable
            (snd (Drive.upload_drive Drive.reliable Drive.empty "2025" "January" true
                    "/srv/rbi/downloads/45_20250101_093000.pdf" "ROOT"))
            "2025" "January" true "/srv/rbi/downloads/RBI_Checklist_45_20250101_093000.txt" "ROOT"))
  = Drive.folders_of
      (snd (Drive.upload_drive Drive.reliable Drive.empty "2025" "January" true
              "/srv/rbi/downloads/45_20250101_093000.pdf" "ROOT")).
Proof.
  destruct (@upload_drive_reuses_folders Drive.reliable Drive.empty _
              "2025" "January" "/srv/rbi/downloads/45_20250101_093000.pdf"
              "/srv/rbi/downloads/RBI_Checklist_45_20250101_093000.txt" "ROOT" _
              (fun _ => eq_refl) eq_refl)
    as (mf & file & _ & _ & Hfolders & _).
  exact Hfolders.
Defined.

Lemma path_join_ends (a b' ext : string) :
  exists x, path_join a (b' ++ ext) = x ++ ext.
Proof.
  unfold path_join. destruct (startswith "/" (b' ++ ext)); [now exists b'|].
  destruct (_ || _).
  - exists (a ++ b'). now rewrite append_assoc'.
  - exists (a ++ "/" ++ b'). now rewrite !append_assoc'.
Qed.

Lemma mimetype_pdf (x : string) : Drive.upload_mimetype (x ++ ".pdf") = "application/pdf".
Proof.
  unfold Drive.upload_mimetype. rewrite lower_append.
  change (lower ".pdf") with ".pdf". now rewrite endswith_append.
Qed.

Lemma mimetype_other (x ext : string) :
  last_char (lower ext) <> Some "f"%char -> truthy ext = true ->
  Drive.upload_mimetype (x ++ ext) = "text/plain".
Proof.
  intros Hlast Ht. unfold Drive.upload_mimetype. rewrite lower_append.
  replace (endswith ".pdf" (lower x ++ lower ext)) with false; [reflexivity|].
  symmetry. apply not_true_is_false. intros H. apply endswith_spec in H as [a Ha].
  apply (f_equal last_char) in Ha.
  assert (Hl : truthy (lower ext) = true) by (now destruct ext).
  rewrite (last_char_append _ _ Hl) in Ha.
  rewrite (last_char_append a ".pdf" eq_refl) in Ha.
  apply Hlast. rewrite Ha. reflexivity.
Qed.

(** X21. The type under which each local artifact is uploaded: the
    downloaded and the synthesized PDF as [application/pdf]; the
    markup saved when no PDF can be synthesized, and the checklist, as
    [text/plain]. *)
Theorem artifact_mimetypes (w : World) (c : circular) (pdf_url : string) :
  Drive.upload_mimetype (download_path w pdf_url) = "application/pdf"
  /\ Drive.upload_mimetype (synthesized_pdf_path w c) = "application/pdf"
  /\ Drive.upload_mimetype (synthesized_html_path w c) = "text/plain"
  /\ Drive.upload_mimetype (checklist_path w c) = "text/plain".
Proof.
  assert (Hname : forall prefix ext,
             artifact_filename prefix (safe_name c) (now w) ext
             = (prefix ++ "_" ++ safe_name c ++ "_" ++ now w) ++ ext).
  { intros. unfold artifact_filename. now rewrite !append_assoc'. }
  split; [|split; [|split]].
  - unfold download_path, download_filename.
    set (stem := rsplit1_head ".pdf" _).
    replace (stem ++ "_" ++ now w ++ ".pdf") with ((stem ++ "_" ++ now w) ++ ".pdf")
      by now rewrite !append_assoc'.
    destruct (path_join_ends (path_join (script_dir w) "downloads")
                             (stem ++ "_" ++ now w) ".pdf") as [x ->].
    apply mimetype_pdf.
  - unfold synthesized_pdf_path. rewrite Hname.
    destruct (path_join_ends "downloads" ("RBI_Circular" ++ "_" ++ safe_name c ++ "_" ++ now w)
                             ".pdf") as [x ->].
    apply mimetype_pdf.
  - unfold synthesized_html_path. rewrite Hname.
    destruct (path_join_ends "downloads" ("RBI_Circular" ++ "_" ++ safe_name c ++ "_" ++ now w)
                             ".html") as [x ->].
    apply mimetype_other; [discriminate | reflexivity].
  - unfold checklist_path. rewrite Hname.
    destruct (path_join_ends (path_join (script_dir w) "downloads")
                             ("RBI_Checklist" ++ "_" ++ safe_name c ++ "_" ++ now w)
                             ".txt") as [x ->].
    apply mimetype_other; [discriminate | reflexivity].
Qed.

(* ================================================================== *)
(** * Google credentials *)

Lemma write_token_actions (env : Auth.environment) (c : Auth.credentials)
      (done : list Auth.action) (x : Auth.action) :
  In x (snd (Auth.write_token env c done)) ->
  In x done \/ (x = Auth.TokenWritten c /\ Auth.token_writable env = true
                /\ fst (Auth.write_token env c done) = Ok c).
Proof.
  unfold Auth.write_token. destruct (Auth.token_writable env); cbn [fst snd]; [|now left].
  intros H. apply in_app_or in H as [H | [<- | []]]; [now left | right; now repeat split].
Qed.

(** X22. A stored token that is valid is returned as it is: nothing is
    refreshed, asked or written.  The token file is written only with
    the credentials that are returned, and never when the stored token
    was usable.  The consent flow runs only without a stored token or
    with one that cannot be refreshed; a refresh that fails ends the
    call and is not followed by the consent flow. *)
Theorem authenticate_token_discipline (env : Auth.environment) :
  (forall c, Auth.token_json env = Some (Ok c) -> Auth.valid c = true ->
             Auth.authenticate_google_apis env = (Ok c, []))
  /\ (forall c, In (Auth.TokenWritten c) (snd (Auth.authenticate_google_apis env)) ->
                fst (Auth.authenticate_google_apis env) = Ok c
                /\ Auth.token_writable env = true
                /\ ~ Auth.usable_token env)
  /\ (In Auth.Consent (snd (Auth.authenticate_google_apis env)) ->
      Auth.token_json env = None
      \/ exists c, Auth.token_json env = Some (Ok c)
                   /\ Auth.valid c = false
                   /\ (Auth.expired c = false \/ truthy_opt (Auth.refresh_token c) = false))
  /\ (In Auth.Refreshed (snd (Auth.authenticate_google_apis env)) ->
      ~ In Auth.Consent (snd (Auth.authenticate_google_apis env))
      /\ exists c, Auth.token_json env = Some (Ok c)
                   /\ (Auth.refresh env c = Raise ->
                       Auth.authenticate_google_apis env = (Raise, [Auth.Refreshed]))).
Proof.
  unfold Auth.authenticate_google_apis, Auth.consent, Auth.usable_token.
  destruct (Auth.token_json env) as [[creds|]|] eqn:Ht.
  - destruct (Auth.valid creds) eqn:Hv.
    + repeat split; try (intros; contradiction).
      intros c E _. now injection E as <-.
    + destruct (Auth.expired creds && truthy_opt (Auth.refresh_token creds)) eqn:Hr.
      * split; [intros c E; injection E as <-; congruence|].
        split; [|split].
        -- intros c H.
           destruct (Auth.refresh env creds) as [r|]; [|destruct H as [H | []]; discriminate H].
           apply write_token_actions in H as [[H | []] | (E & Hw & Hf)]; [discriminate H|].
           injection E as <-. repeat split; try assumption.
           intros [s [Es Hs]]. injection Es as <-. congruence.
        -- intros H. exfalso.
           destruct (Auth.refresh env creds) as [r|]; [|destruct H as [H | []]; discriminate H].
           apply write_token_actions in H as [[H | []] | (E & _)]; discriminate.
        -- intros _. split.
           ++ intros H.
              destruct (Auth.refresh env creds) as [r|];
                [|destruct H as [H | []]; discriminate H].
              apply write_token_actions in H as [[H | []] | (E & _)]; discriminate.
           ++ exists creds. split; [reflexivity|]. intros Hf. now rewrite Hf.
      * split; [intros c E; injection E as <-; congruence|].
        split; [|split].
        -- intros c H.
           destruct (Auth.run_flow env) as [r|]; [|destruct H as [H | []]; discriminate H].
           apply write_token_actions in H as [[H | []] | (E & Hw & Hf)]; [discriminate H|].
           injection E as <-. repeat split; try assumption.
           intros [s [Es Hs]]. injection Es as <-. congruence.
        -- intros _. right. exists creds. repeat split; try assumption.
           apply andb_false_iff in Hr. exact Hr.
        -- intros H. exfalso.
           destruct (Auth.run_flow env) as [r|]; [|destruct H as [H | []]; discriminate H].
           apply write_token_actions in H as [[H | []] | (E & _)]; discriminate.
  - repeat split; try (intros; contradiction); try discriminate.
  - split; [discriminate|]. split; [|split].
    + intros c H.
      destruct (Auth.run_flow env) as [r|]; [|destruct H as [H | []]; discriminate H].
      apply write_token_actions in H as [[H | []] | (E & Hw & Hf)]; [discriminate H|].
      injection E as <-. repeat split; try assumption.
      intros [s [Es _]]. discriminate Es.
    + intros _. now left.
    + intros H. exfalso.
      destruct (Auth.run_flow env) as [r|]; [|destruct H as [H | []]; discriminate H].
      apply write_token_actions in H as [[H | []] | (E & _)]; discriminate.
Qed.

Lemma authenticate_token_discipline_witness :
  Auth.authenticate_google_apis Auth.stale = (Raise, [Auth.Refreshed]).
Proof.
  destruct (proj2 (proj2 (proj2 (authenticate_token_discipline Auth.stale)))
              (or_introl eq_refl)) as [_ [c [_ H]]].
  exact (H eq_refl).
Defined.

(* ================================================================== *)
(** * Checklist generation *)

Lemma lstrip_blank (s : string) : forallb_str is_space s = true -> lstrip s = "".
Proof.
  induction s as [|c s IH]; [reflexivity|].
  cbn [forallb_str lstrip]. intros H. apply andb_true_iff in H as [Hc Hs].
  rewrite Hc. now apply IH.
Qed.

(** X23. The checklist text is the answer of the model without surrounding
    whitespace, and the model is asked with the text of the circular
    unchanged inside the prompt.  An answer that fails, or that is
    blank, gives no checklist: the step then creates no file and uploads
    nothing.  A failure of the set-up is not caught and leaves the step
    as an exception. *)
Theorem checklist_generation (w : World) (c : circular) (setup_ok : bool)
        (generate_content : string -> outcome string) (text : string) :
  (forall t, gemini w t = Checklist.generate_checklist_from_text setup_ok generate_content t) ->
  truthy text = true ->
  (forall r, gemini w text = Ok (Some r) ->
             no_surrounding_space r = true
             /\ exists answer, generate_content (Checklist.prompt_of text) = Ok answer
                               /\ r = strip answer)
  /\ contains text (Checklist.prompt_of text) = true
  /\ (setup_ok = true ->
      generate_content (Checklist.prompt_of text) = Raise
      \/ (exists answer, generate_content (Checklist.prompt_of text) = Ok answer
                         /\ forallb_str is_space answer = true) ->
      checklist_step w c (Some text) = (Ok None, [GeminiRequest]))
  /\ (setup_ok = false -> checklist_step w c (Some text) = (Raise, [GeminiRequest])).
Proof.
  intros Hw Ht. specialize (Hw text).
  unfold Checklist.generate_checklist_from_text in Hw.
  split; [|split; [|split]].
  - intros r Hr. rewrite Hr in Hw.
    destruct setup_ok; [|discriminate Hw]. cbn [negb] in Hw.
    destruct (generate_content (Checklist.prompt_of text)) as [answer|]; [|discriminate Hw].
    injection Hw as ->. split; [apply strip_clean|]. now exists answer.
  - apply contains_spec. now exists Checklist.PROMPT_HEAD, Checklist.PROMPT_TAIL.
  - intros -> Hgen. cbn [negb] in Hw. unfold checklist_step. rewrite Ht, Hw.
    destruct Hgen as [-> | [answer [-> Hblank]]]; [reflexivity|].
    unfold strip. now rewrite (lstrip_blank _ Hblank).
  - intros ->. cbn [negb] in Hw. unfold checklist_step. now rewrite Ht, Hw.
Qed.

Lemma checklist_generation_witness :
  contains "Guidelines on X" (Checklist.prompt_of "Guidelines on X") = true.
Proof.
  exact (proj1 (proj2
    (@checklist_generation Samples.base_world (Samples.circular_numbered "DOR.2025.01")
       true (fun _ => Ok "1. Is X in place?") "Guidelines on X"
       (fun _ => eq_refl) eq_refl))).
Defined.

(* ================================================================== *)
(** * Local files that cannot be written *)

Lemma truthy_append_r (a b : string) : truthy b = true -> truthy (a ++ b) = true.
Proof. intros H. destruct a; [exact H | reflexivity]. Qed.

Lemma checklist_path_truthy (w : World) (c : circular) : truthy (checklist_path w c) = true.
Proof.
  unfold checklist_path, artifact_filename, path_join at 1.
  cbn [append startswith prefix].
  destruct (_ || _); repeat apply truthy_append_r; reflexivity.
Qed.

(** X24. With a checklist text in hand, the checklist step saves it under
    the checklist path and uploads that file; its result is the link of
    the upload.  When the file cannot be written (the directory or the
    file cannot be created, or the write fails) the failure is logged,
    nothing is uploaded and the step ends without a link and without an
    exception, so the mail is sent without the checklist. *)
Theorem checklist_file_outcomes (w : World) (c : circular) (text checklist_text : string) :
  truthy text = true ->
  gemini w text = Ok (Some checklist_text) ->
  truthy checklist_text = true ->
  (local_file w (checklist_path w c) = FileWritten ->
   checklist_step w c (Some text)
   = (Ok (upload_drive w (checklist_path w c)),
      [ GeminiRequest;
        FileWrite (checklist_path w c);
        Log INFO "Checklist saved to: {filepath}";
        DriveUpload (checklist_path w c) ]))
  /\ (local_file w (checklist_path w c) = CannotCreate ->
      checklist_step w c (Some text)
      = (Ok None, [GeminiRequest; Log ERROR "Error saving checklist file: {e}"]))
  /\ (local_file w (checklist_path w c) = WriteFails ->
      checklist_step w c (Some text)
      = (Ok None, [ GeminiRequest;
                    FileWrite (checklist_path w c);
                    Log ERROR "Error saving checklist file: {e}" ]))
  /\ (forall fs p,
        credentials_present w = true ->
        authenticate_google_apis w = Ok true ->
        build_services w = Ok tt ->
        truthy_opt (upload_drive w p) = true ->
        local_file w (checklist_path w c) <> FileWritten ->
        mails (snd (publish w fs c p (Some text))) = [gmail_send w]
        /\ uploads (snd (publish w fs c p (Some text))) = [p]).
Proof.
  intros Ht Hg Hc.
  assert (Hstep : forall o, local_file w (checklist_path w c) = o ->
            checklist_step w c (Some text)
            = match o with
              | FileWritten =>
                  (Ok (upload_drive w (checklist_path w c)),
                   [ GeminiRequest;
                     FileWrite (checklist_path w c);
                     Log INFO "Checklist saved to: {filepath}";
                     DriveUpload (checklist_path w c) ])
              | CannotCreate =>
                  (Ok None, [GeminiRequest; Log ERROR "Error saving checklist file: {e}"])
              | WriteFails =>
                  (Ok None, [ GeminiRequest;
                              FileWrite (checklist_path w c);
                              Log ERROR "Error saving checklist file: {e}" ])
              end).
  { intros o Ho. unfold checklist_step, create_checklist_file.
    rewrite Ht, Hg, Hc, Ho. destruct o; [|reflexivity|reflexivity].
    now rewrite checklist_path_truthy. }
  split; [intros H; exact (Hstep _ H)|].
  split; [intros H; exact (Hstep _ H)|].
  split; [intros H; exact (Hstep _ H)|].
  intros fs p Hcred Ha Hb Hup Hf.
  unfold publish. rewrite Hcred, Ha, Hb, Hup. cbn [negb].
  rewrite (Hstep _ eq_refl).
  unfold set_last_circular_id.
  destruct (local_file w (checklist_path w c)); [now destruct Hf| |];
    destruct (state_write w); split; reflexivity.
Qed.

Lemma checklist_file_outcomes_witness :
  checklist_step Samples.read_only_disk (Samples.circular_numbered "DOR.2025.01")
                 (Some "Circular text")
  = (Ok None, [GeminiRequest; Log ERROR "Error saving checklist file: {e}"]).
Proof.
  exact (proj1 (proj2
    (@checklist_file_outcomes Samples.read_only_disk
       (Samples.circular_numbered "DOR.2025.01") "Circular text" "1. Is X in place?"
       eq_refl eq_refl eq_refl)) eq_refl).
Defined.

